(** * Horus: the LIFX frame codec, the device entity and the selector engine

    A shallow embedding of the Go packages [lifx] (header.go, message.go,
    lifx.go), [tools] (tools.go) and [api] (api.go, tools.go), with the
    properties of the codec, of the refresh sequence, of [Toggle] and of the
    selector engine stated and proved over it.

    Conventions.
    - A Go [byte] is a [Byte.byte]; [uint16] and [uint32] values are [Z]
      with the wrap-around of every conversion written out.
    - A fixed array [[n]byte] is a [list byte] of length [n].
    - A Go slice is a [slice]: the cells below its length and the cells of
      the backing array between its length and its capacity.
    - A run-time panic (index or slice bound out of range, nil pointer
      dereference) is the outcome [Panicked].
    - A Go [string] is a [string]; it is a sequence of bytes in both. *)

From Stdlib Require Import ZArith NArith List String Ascii Bool Lia.
From Stdlib Require Import Strings.Byte.
Import ListNotations.

Local Open Scope string_scope.
Local Open Scope list_scope.
Local Open Scope Z_scope.

Set Implicit Arguments.

(* ================================================================= *)
(** ** Outcomes of Go code *)

(** What a call does: it panics, or it returns a value. *)
Inductive outcome (A : Type) : Type :=
| Panicked : outcome A
| Returned : A -> outcome A.

Arguments Panicked {A}.
Arguments Returned {A} _.

Definition obind {A B : Type} (o : outcome A) (k : A -> outcome B) : outcome B :=
  match o with
  | Panicked => Panicked
  | Returned a => k a
  end.

Declare Scope go_scope.
Delimit Scope go_scope with go.
Notation "x <- c ;; k" := (obind c (fun x => k))
  (at level 61, c at next level, right associativity) : go_scope.

(** The kinds of error of github.com/juju/errors that the code builds, and
    [errors.Annotate], which wraps an error and keeps its cause. *)
Inductive error : Type :=
| NotValid (msg : string)
| NotFound (msg : string)
| NotImplemented (msg : string)
| Transport (msg : string)
| Annotate (err : error) (annotation : string).

Fixpoint Cause (e : error) : error :=
  match e with
  | Annotate e' _ => Cause e'
  | _ => e
  end.

Definition IsNotValid (e : error) : bool :=
  match Cause e with NotValid _ => true | _ => false end.

Definition IsNotFound (e : error) : bool :=
  match Cause e with NotFound _ => true | _ => false end.

Definition IsNotImplemented (e : error) : bool :=
  match Cause e with NotImplemented _ => true | _ => false end.

(** A Go pair [(T, error)]. *)
Inductive result (A : Type) : Type :=
| Ok : A -> result A
| Err : error -> result A.

Arguments Ok {A} _.
Arguments Err {A} _.

(* ================================================================= *)
(** ** Bytes, integers and slices *)

Abbreviation byte := Byte.byte.

(** The conversion [byte(v)]: the low eight bits. *)
Definition byte_of_Z (v : Z) : byte :=
  match Byte.of_N (Z.to_N (v mod 256)) with
  | Some b => b
  | None => x00
  end.

Definition Z_of_byte (b : byte) : Z := Z.of_N (Byte.to_N b).

Definition uint16 (v : Z) : Z := v mod 65536.

(** A slice [s]: [elems s] are [s[0] .. s[len(s)-1]], [spare s] the cells
    of the backing array from [len(s)] up to [cap(s)]. *)
Record slice : Type := mkSlice {
  elems : list byte;
  spare : list byte
}.

Definition len (s : slice) : Z := Z.of_nat (List.length (elems s)).
Definition cap (s : slice) : Z :=
  Z.of_nat (List.length (elems s) + List.length (spare s)).

(** A slice whose capacity is its length, as a composite literal or
    [append([]byte{}, ...)] onto an empty slice gives it. *)
Definition slice_of (bs : list byte) : slice := mkSlice bs [].

(** [s[i]]: the index must be below the length. *)
Definition index (s : slice) (i : Z) : outcome byte :=
  if (0 <=? i) && (i <? len s)
  then match nth_error (elems s) (Z.to_nat i) with
       | Some b => Returned b
       | None => Panicked
       end
  else Panicked.

(** [s[lo:hi]]: in range when [0 <= lo <= hi <= cap(s)]. *)
Definition reslice (s : slice) (lo hi : Z) : outcome slice :=
  if (0 <=? lo) && (lo <=? hi) && (hi <=? cap s)
  then let cells := elems s ++ spare s in
       Returned (mkSlice (firstn (Z.to_nat (hi - lo)) (skipn (Z.to_nat lo) cells))
                         (skipn (Z.to_nat hi) cells))
  else Panicked.

(** [s[lo:]]: the upper bound is [len(s)]. *)
Definition reslice_from (s : slice) (lo : Z) : outcome slice :=
  reslice s lo (len s).

(** [copy(dst[:], src)] into an array or slice of [dst]'s length:
    [min(len(dst), len(src))] cells are overwritten. *)
Definition copy (dst src : list byte) : list byte :=
  firstn (List.length dst) src ++ skipn (List.length src) dst.

(** [binary.LittleEndian.PutUint16(b, v)] on a fresh two-byte buffer. *)
Definition PutUint16 (v : Z) : list byte :=
  [byte_of_Z v; byte_of_Z (Z.shiftr v 8)].

(** [binary.LittleEndian.PutUint32(b, v)] on a fresh four-byte buffer. *)
Definition PutUint32 (v : Z) : list byte :=
  [byte_of_Z v; byte_of_Z (Z.shiftr v 8);
   byte_of_Z (Z.shiftr v 16); byte_of_Z (Z.shiftr v 24)].

(** [binary.LittleEndian.Uint16(b)]: reads [b[0]] and [b[1]]. *)
Definition LittleEndian_Uint16 (b : list byte) : outcome Z :=
  match b with
  | b0 :: b1 :: _ => Returned (Z.lor (Z_of_byte b0) (Z.shiftl (Z_of_byte b1) 8))
  | _ => Panicked
  end.

(** [binary.BigEndian.Uint16(b)]. *)
Definition BigEndian_Uint16 (b : list byte) : outcome Z :=
  match b with
  | b0 :: b1 :: _ => Returned (Z.lor (Z_of_byte b1) (Z.shiftl (Z_of_byte b0) 8))
  | _ => Panicked
  end.

(** [binary.LittleEndian.Uint32(b)]: reads [b[0]] to [b[3]]. *)
Definition LittleEndian_Uint32 (b : list byte) : outcome Z :=
  match b with
  | b0 :: b1 :: b2 :: b3 :: _ =>
      Returned (Z.lor (Z.lor (Z.lor (Z_of_byte b0) (Z.shiftl (Z_of_byte b1) 8))
                             (Z.shiftl (Z_of_byte b2) 16))
                      (Z.shiftl (Z_of_byte b3) 24))
  | _ => Panicked
  end.

Definition zeros (n : nat) : list byte := repeat x00 n.

(** [tools.DecodeToString]: [string(bytes.Trim(datas, "\x00"))], the bytes
    without their leading and trailing zero bytes. *)
Fixpoint trim_left (bs : list byte) : list byte :=
  match bs with
  | x00 :: bs' => trim_left bs'
  | _ => bs
  end.

Definition Trim (bs : list byte) : list byte :=
  rev (trim_left (rev (trim_left bs))).

Definition DecodeToString (datas : list byte) : string :=
  string_of_list_byte (Trim datas).

(* ================================================================= *)
(** ** The model of the packages *)

Section Horus.

(** [TAFrame], the frame of a tagged and addressable message, is declared
    in a file of package [lifx] that is not part of the sources at hand; it
    is a [[2]byte] constant. *)
Variable TAFrame : list byte.

(** [lifx.Source], the [[4]byte] source identifier: zero at start, written
    once by [api.New] from the configuration. *)
Variable Source : list byte.

(* ----------------------------------------------------------------- *)
(** *** header.go *)

Record Header : Type := mkHeader {
  frame : list byte;         (* [2]byte *)
  source : list byte;        (* [4]byte *)
  target : list byte;        (* [8]byte *)
  ackRequired : bool;
  resRequired : bool;
  sequence : byte;
  messageType : list byte    (* [2]byte *)
}.

(** The array lengths that Go's types fix. *)
Definition wf_Header (h : Header) : Prop :=
  List.length (frame h) = 2%nat /\
  List.length (source h) = 4%nat /\
  List.length (target h) = 8%nat /\
  List.length (messageType h) = 2%nat.

Definition DefaultFrame : list byte := TAFrame.
Definition DefaultTarget : list byte := zeros 8.
Definition DefaultSequence : byte := x00.
Definition size : Z := 34.

(** The message types ([MessageType uint16]). *)
Definition GetService : Z := 2.
Definition StateService : Z := 3.
Definition GetHostInfo : Z := 12.
Definition StateHostInfo : Z := 13.
Definition GetHostFirmware : Z := 14.
Definition StateHostFirmware : Z := 15.
Definition GetWifiInfo : Z := 16.
Definition StateWifiInfo : Z := 17.
Definition GetWifiFirmware : Z := 18.
Definition StateWifiFirmware : Z := 19.
Definition GetPowerDevice : Z := 20.
Definition SetPowerDevice : Z := 21.
Definition StatePower : Z := 22.
Definition GetLabel : Z := 23.
Definition SetLabel : Z := 24.
Definition StateLabel : Z := 25.
Definition GetVersion : Z := 32.
Definition StateVersion : Z := 33.
Definition GetInfo : Z := 34.
Definition StateInfo : Z := 35.
Definition Acknowledgement : Z := 45.
Definition GetLocation : Z := 48.
Definition SetLocation : Z := 49.
Definition StateLocation : Z := 50.
Definition GetGroup : Z := 51.
Definition SetGroup : Z := 52.
Definition StateGroup : Z := 53.
Definition EchoRequest : Z := 58.
Definition EchoResponse : Z := 59.
Definition Get : Z := 101.
Definition SetColor : Z := 102.
Definition SetWaveform : Z := 103.
Definition GetPowerLight : Z := 116.
Definition SetPowerLight : Z := 117.

(** The closed enumeration of message-type codes. *)
Definition MessageTypes : list Z :=
  [GetService; StateService; GetHostInfo; StateHostInfo; GetHostFirmware;
   StateHostFirmware; GetWifiInfo; StateWifiInfo; GetWifiFirmware;
   StateWifiFirmware; GetPowerDevice; SetPowerDevice; StatePower; GetLabel;
   SetLabel; StateLabel; GetVersion; StateVersion; GetInfo; StateInfo;
   Acknowledgement; GetLocation; SetLocation; StateLocation; GetGroup;
   SetGroup; StateGroup; EchoRequest; EchoResponse; Get; SetColor;
   SetWaveform; GetPowerLight; SetPowerLight].

Definition NewHeader : Header :=
  {| frame := DefaultFrame;
     source := Source;
     target := DefaultTarget;
     ackRequired := false;
     resRequired := false;
     sequence := DefaultSequence;
     messageType := [x00; x00] |}.

(** The chained mutators; each returns the header it was given, updated. *)
Definition SetFrame (frame' : list byte) (h : Header) : Header :=
  mkHeader frame' (source h) (target h) (ackRequired h) (resRequired h)
           (sequence h) (messageType h).

Definition SetSource (source' : list byte) (h : Header) : Header :=
  mkHeader (frame h) source' (target h) (ackRequired h) (resRequired h)
           (sequence h) (messageType h).

Definition SetTarget (target' : list byte) (h : Header) : Header :=
  mkHeader (frame h) (source h) target' (ackRequired h) (resRequired h)
           (sequence h) (messageType h).

Definition IsAckRequired (required : bool) (h : Header) : Header :=
  mkHeader (frame h) (source h) (target h) required (resRequired h)
           (sequence h) (messageType h).

Definition IsResRequired (required : bool) (h : Header) : Header :=
  mkHeader (frame h) (source h) (target h) (ackRequired h) required
           (sequence h) (messageType h).

Definition SetSequence (sequence' : byte) (h : Header) : Header :=
  mkHeader (frame h) (source h) (target h) (ackRequired h) (resRequired h)
           sequence' (messageType h).

Definition SetMessageType (msgType : Z) (h : Header) : Header :=
  let bs := PutUint16 (uint16 msgType) in
  mkHeader (frame h) (source h) (target h) (ackRequired h) (resRequired h)
           (sequence h) [nth 0 bs x00; nth 1 bs x00].

Definition encodeAckResToByte (h : Header) : byte :=
  if negb (ackRequired h) && negb (resRequired h) then x00
  else if negb (ackRequired h) && resRequired h then x01
  else if ackRequired h && negb (resRequired h) then x10
  else x11.

Definition decodeAckRes (b : byte) : bool * bool :=
  if Byte.eqb b x00 then (false, false)
  else if Byte.eqb b x01 then (false, true)
  else if Byte.eqb b x10 then (true, false)
  else (true, true).

Definition getSize (h : Header) : Z := size.

(** [Header.EncodeToBytes]: the fields and the reserved bytes appended in
    order, and the first 34 bytes of that buffer returned. *)
Definition Header_EncodeToBytes (h : Header) : list byte :=
  let buffer := [] in
  let buffer := buffer ++ frame h in
  let buffer := buffer ++ source h in
  let buffer := buffer ++ target h in
  let buffer := buffer ++ zeros 6 in
  let buffer := buffer ++ [encodeAckResToByte h] in
  let buffer := buffer ++ [sequence h] in
  let buffer := buffer ++ zeros 8 in
  let buffer := buffer ++ messageType h in
  let buffer := buffer ++ [x00; x00] in
  firstn 34 buffer.

(* ----------------------------------------------------------------- *)
(** *** message.go *)

(** [Power], declared in lifx.go, is a string type; the two levels the
    code names. *)
Definition PowerOn : string := "on".
Definition PowerOff : string := "off".

Record HSBK : Type := mkHSBK {
  Hue : Z;           (* uint16 *)
  Saturation : Z;    (* uint16 *)
  Brightness : Z;    (* uint16 *)
  Kelvin : Z         (* uint16 *)
}.

Record Message : Type := mkMessage {
  Size : list byte;          (* [2]byte *)
  Header_ : Header;          (* the field Header *)
  payload : list byte
}.

Definition NewMessage : Message :=
  {| Size := [x00; x00]; Header_ := NewHeader; payload := [] |}.

Definition SetPayload (payload' : list byte) (m : Message) : Message :=
  mkMessage (Size m) (Header_ m) payload'.

(** An update of the header a message points to. *)
Definition withHeader (f : Header -> Header) (m : Message) : Message :=
  mkMessage (Size m) (f (Header_ m)) (payload m).

Definition encodeHSBKToBytes (hsbk : HSBK) : list byte :=
  let hue := PutUint16 (Hue hsbk) in
  let saturation := PutUint16 (Saturation hsbk) in
  let brightness := PutUint16 (Brightness hsbk) in
  let kelvin := PutUint16 (Kelvin hsbk) in
  let result := [] ++ hue in
  let result := result ++ saturation in
  let result := result ++ brightness in
  let result := result ++ kelvin in
  result.

Definition encodeDurationToBytes (duration : Z) : list byte :=
  PutUint32 duration.

(** [SetColorMessage]; its callers pass a non-nil [*HSBK]. *)
Definition SetColorMessage (hsbk : HSBK) (duration : Z) : Message :=
  let hsbkBytes := encodeHSBKToBytes hsbk in
  let durationBytes := encodeDurationToBytes duration in
  let payload' := [] ++ [x00] in
  let payload' := payload' ++ hsbkBytes in
  let payload' := payload' ++ durationBytes in
  let message := SetPayload payload' NewMessage in
  withHeader (fun h => SetFrame TAFrame
                (SetSequence x10 (IsResRequired true (SetMessageType SetColor h))))
             message.

Definition GetMessageWithoutPayload (msgType : Z) : Message :=
  let message := NewMessage in
  let message := withHeader (fun h => SetFrame TAFrame
                    (IsResRequired true (SetMessageType msgType h))) message in
  withHeader (SetSequence x10) message.

(** [SetPowerDeviceMessage]: 65535 for on, 0 for any other level. *)
Definition SetPowerDeviceMessage (power : string) : Message :=
  let message := NewMessage in
  let message := withHeader (fun h => SetFrame TAFrame
                    (IsResRequired true (SetMessageType SetPowerDevice h))) message in
  let message := withHeader (SetSequence x10) message in
  if String.eqb power PowerOn
  then SetPayload [xff; xff] message
  else SetPayload [x00; x00] message.

(** [Message.updateSize]: the sum is computed in [uint16]. *)
Definition updateSize (m : Message) : Message * Z :=
  let size' := uint16 (uint16 2 (* len(m.Size), the length of a [2]byte *)
                       + uint16 (getSize (Header_ m))
                       + uint16 (Z.of_nat (List.length (payload m)))) in
  let buf := PutUint16 size' in
  (mkMessage [nth 0 buf x00; nth 1 buf x00] (Header_ m) (payload m), size').

(** [Message.EncodeToBytes]: the bytes, and the message with its size
    field updated. *)
Definition EncodeToBytes (m : Message) : list byte * Message :=
  let m := fst (updateSize m) in
  let result := [] ++ Size m in
  let headerBytes := Header_EncodeToBytes (Header_ m) in
  let result := result ++ headerBytes in
  let result := result ++ payload m in
  (result, m).

(** [DecodeToMessage].  The message starts as [&Message{Header: &Header{}}]:
    zeroed arrays and a nil payload. *)
Definition DecodeToMessage (bytes : slice) : outcome Message :=
  (s <- reslice bytes 0 2 ;;
   let Size' := copy (zeros 2) (elems s) in
   s <- reslice bytes 2 4 ;;
   let frame' := copy (zeros 2) (elems s) in
   s <- reslice bytes 4 8 ;;
   let source' := copy (zeros 4) (elems s) in
   s <- reslice bytes 8 16 ;;
   let target' := copy (zeros 8) (elems s) in
   b <- index bytes 16 ;;
   let '(ack, res) := decodeAckRes b in
   sequence' <- index bytes 17 ;;
   s <- reslice bytes 18 19 ;;
   let messageType' := copy (zeros 2) (elems s) in
   s <- reslice_from bytes 19 ;;
   let payload' := copy [] (elems s) in
   Returned (mkMessage Size'
               (mkHeader frame' source' target' ack res sequence' messageType')
               payload'))%go.

(* ----------------------------------------------------------------- *)
(** *** lifx.go: the device entity *)

Record Capabilities : Type := mkCapabilities {
  HasColor : bool;
  HasIR : bool;
  HasMultiZone : bool
}.

Record Product : Type := mkProduct {
  Product_ID : Z;                              (* uint32 *)
  Product_Name : string;
  Product_Vendor : string;
  Product_Version : Z;                         (* uint32 *)
  Product_Capabilities : option Capabilities
}.

Record Group : Type := mkGroup {
  Group_ID : list byte;                        (* [16]byte *)
  Group_Label : string
}.

Record Location : Type := mkLocation {
  Location_ID : list byte;                     (* [16]byte *)
  Location_Label : string
}.

Record Info : Type := mkInfo {
  Info_Time : Z;                               (* uint16 *)
  Info_UpTime : Z;                             (* uint16 *)
  Info_DownTime : Z                            (* uint16 *)
}.

(** What a Get (101) message returns. *)
Record State : Type := mkState {
  State_HSBK : option HSBK;
  State_Power : string;
  State_Label : string
}.

(** The transport clients ([client.Client]); package [udp] has the one
    implementation. *)
Inductive Client : Type := UDP_client.

Definition UDP : string := "udp".

(** A device.  Pointer fields are options, [None] the nil pointer.
    [Address] is the [*net.IP], held as the text [net.IP.String] renders.
    The field [Infrared] (a [float32] that no function here reads or
    writes) is left out. *)
Record Lifx : Type := mkLifx {
  UUID : string;
  Label : string;
  Connected : bool;
  Power : string;
  HSBK_ : option HSBK;
  Group_ : option Group;
  Product_ : option Product;
  Info_ : option Info;
  Location_ : option Location;
  Address : option string;
  Port : string;
  Protocol : string;
  client : option Client
}.

Definition set_Label (v : string) (l : Lifx) : Lifx :=
  mkLifx (UUID l) v (Connected l) (Power l) (HSBK_ l) (Group_ l) (Product_ l)
         (Info_ l) (Location_ l) (Address l) (Port l) (Protocol l) (client l).

Definition set_Connected (v : bool) (l : Lifx) : Lifx :=
  mkLifx (UUID l) (Label l) v (Power l) (HSBK_ l) (Group_ l) (Product_ l)
         (Info_ l) (Location_ l) (Address l) (Port l) (Protocol l) (client l).

Definition set_Power (v : string) (l : Lifx) : Lifx :=
  mkLifx (UUID l) (Label l) (Connected l) v (HSBK_ l) (Group_ l) (Product_ l)
         (Info_ l) (Location_ l) (Address l) (Port l) (Protocol l) (client l).

Definition set_HSBK (v : option HSBK) (l : Lifx) : Lifx :=
  mkLifx (UUID l) (Label l) (Connected l) (Power l) v (Group_ l) (Product_ l)
         (Info_ l) (Location_ l) (Address l) (Port l) (Protocol l) (client l).

Definition set_Group (v : option Group) (l : Lifx) : Lifx :=
  mkLifx (UUID l) (Label l) (Connected l) (Power l) (HSBK_ l) v (Product_ l)
         (Info_ l) (Location_ l) (Address l) (Port l) (Protocol l) (client l).

Definition set_Product (v : option Product) (l : Lifx) : Lifx :=
  mkLifx (UUID l) (Label l) (Connected l) (Power l) (HSBK_ l) (Group_ l) v
         (Info_ l) (Location_ l) (Address l) (Port l) (Protocol l) (client l).

Definition set_Info (v : option Info) (l : Lifx) : Lifx :=
  mkLifx (UUID l) (Label l) (Connected l) (Power l) (HSBK_ l) (Group_ l)
         (Product_ l) v (Location_ l) (Address l) (Port l) (Protocol l) (client l).

Definition set_Location (v : option Location) (l : Lifx) : Lifx :=
  mkLifx (UUID l) (Label l) (Connected l) (Power l) (HSBK_ l) (Group_ l)
         (Product_ l) (Info_ l) v (Address l) (Port l) (Protocol l) (client l).

Definition set_client (v : option Client) (l : Lifx) : Lifx :=
  mkLifx (UUID l) (Label l) (Connected l) (Power l) (HSBK_ l) (Group_ l)
         (Product_ l) (Info_ l) (Location_ l) (Address l) (Port l) (Protocol l) v.

(** The premade colors. *)
Definition Off : HSBK :=
  {| Hue := 0; Saturation := 0; Brightness := 0; Kelvin := 0 |}.

Definition On : HSBK :=
  {| Hue := 65535; Saturation := 65535; Brightness := 32767; Kelvin := 65535 |}.

(** [productsList], the map from product id to product that [LoadProducts]
    fills: its lookup, [None] for an absent key or a nil map. *)
Variable productsList : Z -> option Product.

(** **** The network

    A call of [client.Send] hands one datagram to the transport and gets one
    reply, an error or a panic back.  The world holds the datagrams handed
    over so far and the answers the environment will give, in order; when the
    answers are used up a read times out. *)
Record datagram : Type := mkDatagram {
  dest : string;
  dport : string;
  packet : list byte
}.

Record World : Type := mkWorld {
  inbox : list (outcome (result slice));
  outbox : list datagram
}.

(** **** Methods of a device: state passing over the device and the world *)

Inductive exit (A : Type) : Type :=
| Panic : exit A
| Return : A -> exit A
| Fail : error -> exit A.

Arguments Panic {A}.
Arguments Return {A} _.
Arguments Fail {A} _.

Definition M (A : Type) : Type := Lifx -> World -> exit A * Lifx * World.

Definition ret {A : Type} (a : A) : M A := fun l w => (Return a, l, w).
Definition fail {A : Type} (e : error) : M A := fun l w => (Fail e, l, w).
Definition panic {A : Type} : M A := fun l w => (Panic, l, w).

Definition bind {A B : Type} (c : M A) (k : A -> M B) : M B :=
  fun l w =>
    match c l w with
    | (Return a, l', w') => k a l' w'
    | (Panic, l', w') => (Panic, l', w')
    | (Fail e, l', w') => (Fail e, l', w')
    end.

Declare Scope dev_scope.
Delimit Scope dev_scope with dev.
Notation "x <- c ; k" := (bind c (fun x => k))
  (at level 61, c at next level, right associativity) : dev_scope.
Notation "c ;; k" := (bind c (fun _ => k))
  (at level 61, right associativity) : dev_scope.

(** [errors.Annotate(err, annotation)] on the error a call returns. *)
Definition annotate {A : Type} (annotation : string) (c : M A) : M A :=
  fun l w =>
    match c l w with
    | (Fail e, l', w') => (Fail (Annotate e annotation), l', w')
    | r => r
    end.

(** A call of a function that touches neither the device nor the world. *)
Definition lift {A : Type} (o : outcome (result A)) : M A :=
  match o with
  | Panicked => panic
  | Returned (Ok a) => ret a
  | Returned (Err e) => fail e
  end.

(** A pointer dereference. *)
Definition deref {A : Type} (p : option A) : M A :=
  match p with
  | None => panic
  | Some a => ret a
  end.

Definition getLifx : M Lifx := fun l w => (Return l, l, w).
Definition modify (f : Lifx -> Lifx) : M unit := fun l w => (Return tt, f l, w).

(** [l.client.Send(dest, port, packet)]. *)
Definition client_Send (dest' port' : string) (packet' : list byte) : M slice :=
  fun l w =>
    let w' := mkWorld (tl (inbox w))
                      (outbox w ++ [mkDatagram dest' port' packet']) in
    match inbox w with
    | [] => (Fail (Transport "i/o timeout"), l, w')
    | Panicked :: _ => (Panic, l, w')
    | Returned (Ok reply) :: _ => (Return reply, l, w')
    | Returned (Err e) :: _ => (Fail e, l, w')
    end.

(** [Lifx.Send]. *)
Definition Send (message : Message) : M slice :=
  (l <- getLifx ;
   match client l with
   | None =>
       if String.eqb (Protocol l) UDP
       then modify (set_client (Some UDP_client))
       else fail (NotFound ("protocol " ++ Protocol l ++ " not found"))
   | Some _ => ret tt
   end ;;
   address <- deref (Address l) ;
   if (String.length address =? 0)%nat
   then fail (NotValid "address of a lifx has not been initialized")
   else if (String.length (Port l) =? 0)%nat
   then fail (NotValid "port of a lifx has not been initialized")
   else
     let '(bytes, message) := EncodeToBytes message in
     if (List.length bytes =? 0)%nat
     then fail (NotValid "message has not been initialized")
     else client_Send address (Port l) (fst (EncodeToBytes message)))%dev.

(** [DecodeToHSBK]. *)
Definition DecodeToHSBK (bytes : slice) : outcome (result HSBK) :=
  if negb (len bytes =? 8)
  then Returned (Err (NotValid "decoding a HSBK requires 8 bytes."))
  else
    (s <- reslice bytes 0 2 ;;
     hue <- LittleEndian_Uint16 (elems s) ;;
     s <- reslice bytes 2 4 ;;
     saturation <- LittleEndian_Uint16 (elems s) ;;
     s <- reslice bytes 4 6 ;;
     brightness <- LittleEndian_Uint16 (elems s) ;;
     s <- reslice bytes 6 8 ;;
     kelvin <- LittleEndian_Uint16 (elems s) ;;
     Returned (Ok (mkHSBK hue saturation brightness kelvin)))%go.

(** [DecodeToState]. *)
Definition DecodeToState (bytes : slice) : outcome (result State) :=
  let size := len bytes in
  (s <- reslice bytes (size - 52) (size - 44) ;;
   r <- DecodeToHSBK s ;;
   match r with
   | Err err => Returned (Err (Annotate err "decoding state"))
   | Ok hsbk =>
       s <- reslice bytes (size - 40) (size - 8) ;;
       let label := DecodeToString (elems s) in
       s <- reslice bytes (size - 42) (size - 40) ;;
       level <- BigEndian_Uint16 (elems s) ;;
       let power := if level =? 65535 then PowerOn else PowerOff in
       Returned (Ok (mkState (Some hsbk) power label))
   end)%go.

(** [DecodeToGroup]. *)
Definition DecodeToGroup (bytes : slice) : outcome (result Group) :=
  let size := len bytes in
  (s <- reslice bytes (size - 56) (size - 40) ;;
   let buffer := [] ++ elems s in
   let id := copy (zeros 16) buffer in
   s <- reslice bytes (size - 40) (size - 8) ;;
   let label := DecodeToString (elems s) in
   Returned (Ok (mkGroup id label)))%go.

(** [DecodeToInfo]. *)
Definition DecodeToInfo (bytes : slice) : outcome (result Info) :=
  let size := len bytes in
  (s <- reslice bytes (size - 24) (size - 16) ;;
   time <- LittleEndian_Uint16 (elems s) ;;
   s <- reslice bytes (size - 16) (size - 8) ;;
   upTime <- LittleEndian_Uint16 (elems s) ;;
   s <- reslice bytes (size - 8) size ;;
   downTime <- LittleEndian_Uint16 (elems s) ;;
   Returned (Ok (mkInfo time upTime downTime)))%go.

(** [DecodeToLocation]. *)
Definition DecodeToLocation (bytes : slice) : outcome (result Location) :=
  let size := len bytes in
  (s <- reslice bytes (size - 56) (size - 40) ;;
   let buffer := [] ++ elems s in
   let location := copy (zeros 16) buffer in
   s <- reslice bytes (size - 40) (size - 8) ;;
   let label := DecodeToString (elems s) in
   Returned (Ok (mkLocation location label)))%go.

(** [DecodeToProduct]: the product of the table, nil for an unknown id. *)
Definition DecodeToProduct (bytes : slice) : outcome (result (option Product)) :=
  let size := len bytes in
  (s <- reslice bytes (size - 8) (size - 4) ;;
   id <- LittleEndian_Uint32 (elems s) ;;
   Returned (Ok (productsList id)))%go.

(** [Lifx.Update]. *)
Definition Update : M unit :=
  (modify (set_Connected false) ;;
   bytes <- annotate "an error occured while sending a Get (101) Message on updating"
              (Send (GetMessageWithoutPayload Get)) ;
   state <- lift (DecodeToState bytes) ;
   modify (set_HSBK (State_HSBK state)) ;;
   modify (set_Label (State_Label state)) ;;
   modify (set_Power (State_Power state)) ;;
   bytes <- annotate "an error occured while sending a GetGroup (53) Message on updating"
              (Send (GetMessageWithoutPayload GetGroup)) ;
   group <- lift (DecodeToGroup bytes) ;
   modify (set_Group (Some group)) ;;
   bytes <- annotate "an error occured while sending a GetInfo (34) Message on updating"
              (Send (GetMessageWithoutPayload GetInfo)) ;
   info <- lift (DecodeToInfo bytes) ;
   modify (set_Info (Some info)) ;;
   bytes <- annotate "an error occured while sending a GetLocation (48) Message on updating"
              (Send (GetMessageWithoutPayload GetLocation)) ;
   location <- lift (DecodeToLocation bytes) ;
   modify (set_Location (Some location)) ;;
   bytes <- annotate "an error occured while sending a GetVersion (32) Message on updating"
              (Send (GetMessageWithoutPayload GetVersion)) ;
   product <- lift (DecodeToProduct bytes) ;
   modify (set_Product product) ;;
   modify (set_Connected true) ;;
   ret tt)%dev.

(** [Lifx.SetPower]: the reply is dropped, and the power asked for is
    cached. *)
Definition SetPower (power : string) : M unit :=
  (_ <- annotate "setting power" (Send (SetPowerDeviceMessage power)) ;
   modify (set_Power power) ;;
   ret tt)%dev.

(** [Lifx.Toggle]. *)
Definition Toggle (brightness duration : Z) : M unit :=
  (l <- getLifx ;
   cond <- (if String.eqb (Power l) PowerOn
            then hsbk <- deref (HSBK_ l) ; ret (0 <? Brightness hsbk)
            else ret false) ;
   bytes <- (if cond : bool
             then annotate "turning off a device"
                    (Send (SetColorMessage Off duration))
             else
               let on := {| Hue := Hue On;
                            Saturation := Saturation On;
                            Brightness := brightness;
                            Kelvin := Kelvin On |} in
               annotate "turning on a device"
                 (Send (SetColorMessage on duration))) ;
   state <- lift (DecodeToState bytes) ;
   modify (set_HSBK (State_HSBK state)) ;;
   modify (set_Label (State_Label state)) ;;
   modify (set_Power (State_Power state)) ;;
   ret tt)%dev.

(* ----------------------------------------------------------------- *)
(** *** api.go and tools.go of package api: the selector engine *)

Record selector : Type := mkSelector {
  name : string;
  isDynamic : bool;
  value : string
}.

(** The eight package-level variables [all], [label], [uuid], [groupID],
    [group], [locationID], [location] and [sceneID] each point to one
    [selector]; [a.selectors] holds these same pointers, and
    [parseSelector] writes through them.  A [selptr] is such a pointer, a
    [selheap] the contents of the eight objects. *)
Inductive selptr : Type :=
| all | label | uuid | groupID | group | locationID | location | sceneID.

Definition selptr_eqb (p q : selptr) : bool :=
  match p, q with
  | all, all | label, label | uuid, uuid | groupID, groupID
  | group, group | locationID, locationID | location, location
  | sceneID, sceneID => true
  | _, _ => false
  end.

Definition selheap : Type := selptr -> selector.

(** The objects as the [var] block of api.go builds them. *)
Definition selheap_init : selheap :=
  fun p =>
    match p with
    | all => mkSelector "all" false ""
    | label => mkSelector "label" true ""
    | uuid => mkSelector "uuid" true ""
    | groupID => mkSelector "group_id" true ""
    | group => mkSelector "group" true ""
    | locationID => mkSelector "location_id" true ""
    | location => mkSelector "location" true ""
    | sceneID => mkSelector "scene_id" true ""
    end.

(** [s.value = v] through the pointer [s]. *)
Definition store_value (h : selheap) (s : selptr) (v : string) : selheap :=
  fun p =>
    if selptr_eqb p s
    then mkSelector (name (h s)) (isDynamic (h s)) v
    else h p.

Record Config : Type := mkConfig {
  Config_Source : Z;             (* uint32 *)
  MaxBrightness : Z;             (* uint16 *)
  Config_Lifx : list Lifx
}.

Record API : Type := mkAPI {
  config : Config;
  selectors : list selptr
}.

(** The selectors of the API that [New] builds. *)
Definition New_selectors : list selptr :=
  [] ++ [all; label; uuid; groupID; group; locationID; location; sceneID].

(** [strings.Contains(s, ":")]. *)
Fixpoint Contains_colon (s : string) : bool :=
  match s with
  | EmptyString => false
  | String c s' => if Ascii.eqb c ":" then true else Contains_colon s'
  end.

(** [strings.Split(s, ":")]: the substrings between the colons. *)
Fixpoint Split_colon (s : string) : list string :=
  match s with
  | EmptyString => [EmptyString]
  | String c s' =>
      if Ascii.eqb c ":"
      then EmptyString :: Split_colon s'
      else match Split_colon s' with
           | part :: parts => String c part :: parts
           | [] => [String c EmptyString]
           end
  end.

Definition dynamic_annotation : string :=
  "since it is a dynamic selector, it must have the format `type:value`".

(** The first loop of [parseSelector], over the selectors not yet seen. *)
Fixpoint parseSelector_static (h : selheap) (selectorStr : string)
    (errNotValid : error) (ss : list selptr) : result selptr :=
  match ss with
  | [] => Err (NotFound ("selector `" ++ selectorStr ++ "`"))
  | s :: ss' =>
      if String.eqb selectorStr (name (h s))
      then if isDynamic (h s)
           then Err (Annotate errNotValid dynamic_annotation)
           else Ok s
      else parseSelector_static h selectorStr errNotValid ss'
  end.

(** The second loop of [parseSelector]. *)
Fixpoint parseSelector_dynamic (h : selheap) (selectorStr part0 part1 : string)
    (ss : list selptr) : result selptr * selheap :=
  match ss with
  | [] => (Err (NotFound ("selector `" ++ selectorStr ++ "`")), h)
  | s :: ss' =>
      if String.eqb part0 (name (h s))
      then (Ok s, store_value h s part1)
      else parseSelector_dynamic h selectorStr part0 part1 ss'
  end.

(** [API.parseSelector]: the selector found or the error, and the objects
    after the call. *)
Definition parseSelector (a : API) (selectorStr : string) (h : selheap)
  : result selptr * selheap :=
  let errNotValid := NotValid ("selector `" ++ selectorStr ++ "`") in
  if (String.length selectorStr =? 0)%nat then (Ok all, h)
  else if negb (Contains_colon selectorStr)
  then (parseSelector_static h selectorStr errNotValid (selectors a), h)
  else
    let parts := Split_colon selectorStr in
    match parts with
    | [part0; part1] =>
        parseSelector_dynamic h selectorStr part0 part1 (selectors a)
    | _ => (Err (Annotate errNotValid dynamic_annotation), h)
    end.

(** [selector.String]. *)
Definition selector_String (s : selector) : string :=
  if isDynamic s then name s ++ ":" ++ value s else name s.

(** The loop of [sortBySelector] over the devices not yet seen; [devices]
    are the matches so far. *)
Fixpoint sortBySelector_loop (h : selheap) (registry : list Lifx)
    (sel : selector) (rest devices : list Lifx)
  : outcome (result (list Lifx)) :=
  match rest with
  | [] =>
      if (List.length devices =? 0)%nat
      then Returned (Err (NotFound ("devices corresponding to selector "
                                    ++ selector_String sel)))
      else Returned (Ok devices)
  | device :: rest' =>
      if String.eqb (name sel) (name (h all)) then Returned (Ok registry)
      else if String.eqb (name sel) (name (h label)) then
        if String.eqb (value sel) (Label device)
        then sortBySelector_loop h registry sel rest' (devices ++ [device])
        else sortBySelector_loop h registry sel rest' devices
      else if String.eqb (name sel) (name (h uuid)) then
        if String.eqb (value sel) (UUID device)
        then sortBySelector_loop h registry sel rest' (devices ++ [device])
        else sortBySelector_loop h registry sel rest' devices
      else if String.eqb (name sel) (name (h groupID)) then
        Returned (Err (NotImplemented ("selector " ++ name (h sceneID))))
      else if String.eqb (name sel) (name (h group)) then
        match Group_ device with
        | None => Panicked
        | Some g =>
            if String.eqb (value sel) (Group_Label g)
            then sortBySelector_loop h registry sel rest' (devices ++ [device])
            else sortBySelector_loop h registry sel rest' devices
        end
      else if String.eqb (name sel) (name (h locationID)) then
        Returned (Err (NotImplemented ("selector " ++ name (h sceneID))))
      else if String.eqb (name sel) (name (h location)) then
        match Location_ device with
        | None => Panicked
        | Some loc =>
            if String.eqb (value sel) (Location_Label loc)
            then sortBySelector_loop h registry sel rest' (devices ++ [device])
            else sortBySelector_loop h registry sel rest' devices
        end
      else if String.eqb (name sel) (name (h sceneID)) then
        Returned (Err (NotImplemented ("selector " ++ name (h sceneID))))
      else Returned (Err (NotFound ("sorting by selector " ++ name sel)))
  end.

(** [API.sortBySelector]. *)
Definition sortBySelector (a : API) (h : selheap) (sel : selptr)
  : outcome (result (list Lifx)) :=
  sortBySelector_loop h (Config_Lifx (config a)) (h sel)
                      (Config_Lifx (config a)) [].

(* ----------------------------------------------------------------- *)
(** *** The other messages and methods of package lifx *)

(** [SetLabelMessage]: the label copied into a 32-byte array. *)
Definition SetLabelMessage (label' : string) : Message :=
  let message := NewMessage in
  let message := withHeader (fun h => SetFrame TAFrame
                    (IsResRequired true (SetMessageType SetLabel h))) message in
  let message := withHeader (SetSequence x10) message in
  let payload' := copy (zeros 32) (list_byte_of_string label') in
  SetPayload payload' message.

(** [Lifx.SetLabel]: the reply is dropped, and the label asked for is
    cached. *)
Definition Lifx_SetLabel (label' : string) : M unit :=
  (_ <- annotate "setting new label" (Send (SetLabelMessage label')) ;
   modify (set_Label label') ;;
   ret tt)%dev.

(** [Lifx.SetHSBK]: the state that the device returns is cached. *)
Definition SetHSBK (hsbk : HSBK) (duration : Z) : M unit :=
  (bytes <- annotate "setting hsbk" (Send (SetColorMessage hsbk duration)) ;
   state <- annotate "setting hsbk" (lift (DecodeToState bytes)) ;
   modify (set_HSBK (State_HSBK state)) ;;
   modify (set_Label (State_Label state)) ;;
   modify (set_Power (State_Power state)) ;;
   ret tt)%dev.

(** [Lifx.SetState]: up to three writes, each one a round trip. *)
Definition SetState (state : State) (duration : Z) : M unit :=
  ((if (0 <? String.length (State_Label state))%nat
    then annotate "setting state" (Lifx_SetLabel (State_Label state))
    else ret tt) ;;
   (if (0 <? String.length (State_Power state))%nat
    then annotate "setting state" (SetPower (State_Power state))
    else ret tt) ;;
   match State_HSBK state with
   | Some hsbk => annotate "setting state" (SetHSBK hsbk duration)
   | None => ret tt
   end ;;
   ret tt)%dev.

(* ----------------------------------------------------------------- *)
(** *** udp.go: the transport client

    What the network does during one call of [SendWithDeadLine]: the
    errors of resolving the address, of opening the socket and of writing
    the packet, if any, and what the read gives, an error or the datagram
    received. *)
Record UDP_network : Type := mkUDP_network {
  udp_resolve : option error;
  udp_dial : option error;
  udp_write : option error;
  udp_read : result (list byte)
}.

(** [UDP.SendWithDeadLine].  [dest] is a pointer: [dest.String()] on the
    nil pointer panics.  [defer conn.Close()] stands before the test of the
    error of [net.DialUDP]: when the dial fails the connection is nil, and
    evaluating the call of the promoted method [Close] through the nil
    pointer panics, so that the error of the dial is never returned.  The
    datagram is read into a fresh buffer of 2048 bytes, and the first
    [size] bytes of the buffer are returned, [size] being what its first two
    bytes declare. *)
Definition SendWithDeadLine (net : UDP_network) (dest : option string)
    (port : string) (packet : list byte) : outcome (result slice) :=
  match dest with
  | None => Panicked
  | Some _ =>
  match udp_resolve net with
  | Some err => Returned (Err (Annotate err "cannot send udp packet"))
  | None =>
  match udp_dial net with
  | Some _ => Panicked
  | None =>
  match udp_write net with
  | Some err => Returned (Err (Annotate err "cannot send udp packet"))
  | None =>
  match udp_read net with
  | Err err => Returned (Err err)
  | Ok received =>
      let p := slice_of (copy (zeros 2048) received) in
      (s <- reslice p 0 2 ;;
       size <- LittleEndian_Uint16 (elems s) ;;
       reply <- reslice p 0 size ;;
       Returned (Ok reply))%go
  end end end end end.

(** [UDP.Send]: [SendWithDeadLine] with the default deadline. *)
Definition UDP_Send (net : UDP_network) (dest : option string)
    (port : string) (packet : list byte) : outcome (result slice) :=
  SendWithDeadLine net dest port packet.

(* ----------------------------------------------------------------- *)
(** *** tools.go of package api: refreshing the registry *)

(** [API.updateLifx]: the devices of the registry updated in order, up to
    the first that fails.  The registry holds pointers to distinct devices;
    the list returned holds the devices after the call. *)
Fixpoint updateLifx (devices : list Lifx) (w : World)
  : exit unit * list Lifx * World :=
  match devices with
  | [] => (Return tt, [], w)
  | device :: rest =>
      match Update device w with
      | (Return _, device', w') =>
          let '(r, rest', w'') := updateLifx rest w' in
          (r, device' :: rest', w'')
      | (Fail err, device', w') => (Fail err, device' :: rest, w')
      | (Panic, device', w') => (Panic, device' :: rest, w')
      end
  end.

(* ----------------------------------------------------------------- *)
(** *** handlers.go: the three routes

    The handlers take the request already bound by the framework ([in]);
    the context of the framework is not used by them, and the log lines are
    left out. *)

(** The errors a handler returns: those of the packages below, and the
    not-provisioned error ([errors.NewNotProvisioned]) of the handlers. *)
Inductive handler_error : Type :=
| NotProvisioned (msg : string)
| Raised (err : error).

Record HSBKIn : Type := mkHSBKIn {
  HSBKIn_Hue : Z;           (* uint16 *)
  HSBKIn_Saturation : Z;    (* uint16 *)
  HSBKIn_Brightness : Z;    (* uint16 *)
  HSBKIn_Kelvin : Z         (* uint16 *)
}.

Record StateIn : Type := mkStateIn {
  StateIn_Selector : string;
  StateIn_HSBK : option HSBKIn;
  StateIn_Duration : Z;     (* uint32 *)
  StateIn_Power : string;
  StateIn_Label : string
}.

Record DurationIn : Type := mkDurationIn {
  DurationIn_Selector : string;
  DurationIn_Duration : Z   (* uint32 *)
}.

Record ResultOut : Type := mkResultOut {
  ResultOut_UUID : string;
  ResultOut_Label : string;
  ResultOut_Error : option error
}.

(** How a handler ends: it panics, it returns its value, or it returns an
    error. *)
Inductive reply (A : Type) : Type :=
| Crashed : reply A
| Answered : A -> reply A
| Refused : handler_error -> reply A.

Arguments Crashed {A}.
Arguments Answered {A} _.
Arguments Refused {A} _.

(** A handler's result and what it leaves behind: the devices it has
    worked on (the registry for [getDevices], the devices selected for
    [setState] and [toggle]; they are devices of the registry, reached
    through its pointers), the selector objects and the network. *)
Record served (A : Type) : Type := mkServed {
  answer : reply A;
  devices_after : list Lifx;
  objects_after : selheap;
  network_after : World
}.

(** The API with its devices as a call has left them. *)
Definition with_Lifx (a : API) (devices : list Lifx) : API :=
  mkAPI (mkConfig (Config_Source (config a)) (MaxBrightness (config a)) devices)
        (selectors a).

(** [API.getDevices]. *)
Definition getDevices (a : API) (selectorStr : string) (h : selheap) (w : World)
  : served (list Lifx) :=
  if (List.length (Config_Lifx (config a)) =? 0)%nat
  then mkServed (Refused (NotProvisioned "list of Lifx devices"))
                (Config_Lifx (config a)) h w
  else
    match updateLifx (Config_Lifx (config a)) w with
    | (Panic, devices, w') => mkServed Crashed devices h w'
    | (Fail err, devices, w') => mkServed (Refused (Raised err)) devices h w'
    | (Return _, devices, w') =>
        match parseSelector (with_Lifx a devices) selectorStr h with
        | (Err err, h') => mkServed (Refused (Raised err)) devices h' w'
        | (Ok sel, h') =>
            match sortBySelector (with_Lifx a devices) h' sel with
            | Panicked => mkServed Crashed devices h' w'
            | Returned (Err err) =>
                mkServed (Refused (Raised err)) devices h' w'
            | Returned (Ok found) => mkServed (Answered found) devices h' w'
            end
        end
    end.

(** The loop that [setState] and [toggle] end with: the method is called
    on each device in turn, and a result is appended for each, with the
    UUID and the label the device has after the call and the error of the
    call.  A call that panics ends the loop. *)
Fixpoint each_device (method : M unit) (devices : list Lifx)
    (results : list ResultOut) (w : World)
  : outcome (list ResultOut) * list Lifx * World :=
  match devices with
  | [] => (Returned results, [], w)
  | device :: rest =>
      match method device w with
      | (Panic, device', w') => (Panicked, device' :: rest, w')
      | (r, device', w') =>
          let err := match r with Fail e => Some e | _ => None end in
          let result := mkResultOut (UUID device') (Label device') err in
          let '(out, rest', w'') :=
            each_device method rest (results ++ [result]) w' in
          (out, device' :: rest', w'')
      end
  end.

Definition report (h : selheap)
    (r : outcome (list ResultOut) * list Lifx * World)
  : served (list ResultOut) :=
  let '(out, devices, w) := r in
  mkServed match out with
           | Panicked => Crashed
           | Returned results => Answered results
           end devices h w.

(** The state that [setState] builds from its request. *)
Definition state_of (inp : StateIn) : State :=
  let hsbk := match StateIn_HSBK inp with
              | Some c => Some (mkHSBK (HSBKIn_Hue c) (HSBKIn_Saturation c)
                                       (HSBKIn_Brightness c) (HSBKIn_Kelvin c))
              | None => None
              end in
  mkState hsbk (StateIn_Power inp) (StateIn_Label inp).

(** [API.setState]. *)
Definition setState (a : API) (inp : StateIn) (h : selheap) (w : World)
  : served (list ResultOut) :=
  match parseSelector a (StateIn_Selector inp) h with
  | (Err err, h') => mkServed (Refused (Raised err)) [] h' w
  | (Ok sel, h') =>
      match sortBySelector a h' sel with
      | Panicked => mkServed Crashed [] h' w
      | Returned (Err err) => mkServed (Refused (Raised err)) [] h' w
      | Returned (Ok devices) =>
          report h' (each_device (SetState (state_of inp) (StateIn_Duration inp))
                                 devices [] w)
      end
  end.

(** [API.toggle]. *)
Definition toggle (a : API) (inp : DurationIn) (h : selheap) (w : World)
  : served (list ResultOut) :=
  if (List.length (Config_Lifx (config a)) =? 0)%nat
  then mkServed (Refused (NotProvisioned "list of Lifx devices")) [] h w
  else
    match parseSelector a (DurationIn_Selector inp) h with
    | (Err err, h') => mkServed (Refused (Raised err)) [] h' w
    | (Ok sel, h') =>
        match sortBySelector a h' sel with
        | Panicked => mkServed Crashed [] h' w
        | Returned (Err err) => mkServed (Refused (Raised err)) [] h' w
        | Returned (Ok devices) =>
            report h' (each_device
                         (Toggle (MaxBrightness (config a))
                                 (DurationIn_Duration inp))
                         devices [] w)
        end
    end.

(* ----------------------------------------------------------------- *)
(** *** The refresh sequence and the toggle, restated

    Two restatements that the properties below are phrased with; each is
    proved equal to the method it restates. *)

(** One exchange of [Update]: the query it sends, the annotation of a
    failed send, and what it does with the reply. *)
Record exchange : Type := mkExchange {
  query : Z;
  annotation : string;
  store : slice -> M unit
}.

Definition run_exchange (x : exchange) : M unit :=
  (bytes <- annotate (annotation x) (Send (GetMessageWithoutPayload (query x))) ;
   store x bytes)%dev.

Fixpoint run_exchanges (xs : list exchange) : M unit :=
  match xs with
  | [] => ret tt
  | x :: xs' => (run_exchange x ;; run_exchanges xs')%dev
  end.

(** The five exchanges of [Update], in its order. *)
Definition refresh_sequence : list exchange :=
  [ mkExchange Get
      "an error occured while sending a Get (101) Message on updating"
      (fun bytes =>
         state <- lift (DecodeToState bytes) ;
         modify (set_HSBK (State_HSBK state)) ;;
         modify (set_Label (State_Label state)) ;;
         modify (set_Power (State_Power state)))%dev;
    mkExchange GetGroup
      "an error occured while sending a GetGroup (53) Message on updating"
      (fun bytes =>
         group <- lift (DecodeToGroup bytes) ;
         modify (set_Group (Some group)))%dev;
    mkExchange GetInfo
      "an error occured while sending a GetInfo (34) Message on updating"
      (fun bytes =>
         info <- lift (DecodeToInfo bytes) ;
         modify (set_Info (Some info)))%dev;
    mkExchange GetLocation
      "an error occured while sending a GetLocation (48) Message on updating"
      (fun bytes =>
         location <- lift (DecodeToLocation bytes) ;
         modify (set_Location (Some location)))%dev;
    mkExchange GetVersion
      "an error occured while sending a GetVersion (32) Message on updating"
      (fun bytes =>
         product <- lift (DecodeToProduct bytes) ;
         modify (set_Product product))%dev ].

(** The tail of [Toggle]: the message is sent, and the state the device
    returns is decoded and stored. *)
Definition send_and_apply (annotation' : string) (message : Message) : M unit :=
  (bytes <- annotate annotation' (Send message) ;
   state <- lift (DecodeToState bytes) ;
   modify (set_HSBK (State_HSBK state)) ;;
   modify (set_Label (State_Label state)) ;;
   modify (set_Power (State_Power state)) ;;
   ret tt)%dev.

(** The color that the specification of [Toggle] names: all zeros when the
    cached power is on and the cached brightness is greater than 0,
    otherwise the on preset with its brightness replaced by
    [maxBrightness]; and the annotation that goes with it. *)
Definition toggle_color (maxBrightness : Z) (l : Lifx) : HSBK :=
  if String.eqb (Power l) "on"
     && match HSBK_ l with
        | Some c => 0 <? Brightness c
        | None => false
        end
  then mkHSBK 0 0 0 0
  else mkHSBK 65535 65535 maxBrightness 65535.

Definition toggle_annotation (l : Lifx) : string :=
  if String.eqb (Power l) "on"
     && match HSBK_ l with
        | Some c => 0 <? Brightness c
        | None => false
        end
  then "turning off a device"
  else "turning on a device".

(** A device that reaches its transport client: the client exists or the
    protocol names one, and the address and the port are set. *)
Definition configured (l : Lifx) (address : string) : Prop :=
  (client l <> None \/ Protocol l = UDP) /\
  Address l = Some address /\ address <> "" /\ Port l <> "".

(** The number of colons of a string. *)
Fixpoint count_colons (s : string) : nat :=
  match s with
  | EmptyString => 0
  | String c s' => (if Ascii.eqb c ":" then 1 else 0) + count_colons s'
  end.

(** The selector objects keep the names and the kinds they are built with;
    [parseSelector] writes their values only. *)
Definition names_fixed (h : selheap) : Prop :=
  forall p, name (h p) = name (selheap_init p)
            /\ isDynamic (h p) = isDynamic (selheap_init p).

(** What resolving a selector that compares a field gives: the devices of
    the registry that pass the test, in the order of the registry, or the
    not-found error when there is none. *)
Definition matching (sel : selector) (test : Lifx -> bool)
    (registry : list Lifx) : outcome (result (list Lifx)) :=
  match filter test registry with
  | [] => Returned (Err (NotFound ("devices corresponding to selector "
                                   ++ selector_String sel)))
  | found => Returned (Ok found)
  end.

Definition has_group_label (v : string) (d : Lifx) : bool :=
  match Group_ d with
  | Some g => String.eqb v (Group_Label g)
  | None => false
  end.

Definition has_location_label (v : string) (d : Lifx) : bool :=
  match Location_ d with
  | Some loc => String.eqb v (Location_Label loc)
  | None => false
  end.

(** A method that leaves a disconnected device disconnected however it
    ends, and establishes [Q] when it returns. *)
Definition disconnected_or {A : Type} (Q : A -> Lifx -> Prop)
    (r : exit A * Lifx * World) : Prop :=
  match r with
  | (Return a, l', _) => Q a l'
  | (_, l', _) => Connected l' = false
  end.

Definition triple {A : Type} (P : Lifx -> Prop) (c : M A)
    (Q : A -> Lifx -> Prop) : Prop :=
  forall l w, P l -> disconnected_or Q (c l w).

Definition off (l : Lifx) : Prop := Connected l = false.

(** How the loop ends: its matches, or the not-found error. *)
Definition finish (sel : selector) (devices : list Lifx)
  : outcome (result (list Lifx)) :=
  if (List.length devices =? 0)%nat
  then Returned (Err (NotFound ("devices corresponding to selector "
                                ++ selector_String sel)))
  else Returned (Ok devices).


(* ----------------------------------------------------------------- *)
(** *** Values for the examples *)

(** A frame and a source for the examples: the frame of a tagged and
    addressable message of protocol 1024, and the source at start. *)
Definition frame_example : list byte := [x00; x34].
Definition source_example : list byte := zeros 4.
Definition no_products : Z -> option Product := fun _ => None.

(** A device as the configuration gives it: address, port and protocol. *)
Definition bulb : Lifx :=
  mkLifx "u1" "" false "" None None None None None
         (Some "192.168.1.20") "56700" "udp" None.

(** The same device with its power cached as on and no color yet. *)
Definition bulb_on_no_color : Lifx := set_Power "on" bulb.

(** The same device with the power on and a brightness of 20000. *)
Definition bulb_on : Lifx :=
  set_HSBK (Some (mkHSBK 0 0 20000 3500)) (set_Power "on" bulb).

(** A device with the power on and a brightness of 20000, and no port. *)
Definition bulb_no_port : Lifx :=
  mkLifx "u1" "" false "on" (Some (mkHSBK 0 0 20000 3500)) None None None None
         (Some "192.168.1.20") "" "udp" None.

(** The same device with the power off. *)
Definition bulb_off : Lifx :=
  set_HSBK (Some (mkHSBK 0 0 20000 3500)) (set_Power "off" bulb).

(** A reply to a Get (101) message, 88 bytes: 36 bytes of size and header,
    the color (brightness 20000, 3500 K), two reserved bytes, the power
    level 65535, the label "kitchen" padded to 32 bytes, eight reserved
    bytes. *)
Definition state_reply : slice :=
  slice_of (zeros 36
            ++ [x00; x00; x00; x00; x20; x4e; xac; x0d]
            ++ [x00; x00]
            ++ [xff; xff]
            ++ list_byte_of_string "kitchen" ++ zeros 25
            ++ zeros 8).

(** A network that answers the first query and times out on the second. *)
Definition world_group_fails : World :=
  mkWorld [Returned (Ok state_reply); Returned (Err (Transport "i/o timeout"))] [].

Definition world_silent : World := mkWorld [] [].

(** A network that answers one query, with a header and no payload. *)
Definition world_one_reply : World :=
  mkWorld [Returned (Ok (slice_of (zeros 36)))] [].

(** The registry of the examples of selector resolution. *)
Definition kitchen : Lifx :=
  mkLifx "u1" "kitchen" false "" None None None None None
         (Some "192.168.1.20") "56700" "udp" None.

Definition hall : Lifx :=
  mkLifx "u2" "hall" false "" None None None None None
         (Some "192.168.1.21") "56700" "udp" None.

Definition api_example : API :=
  mkAPI (mkConfig 0 30000 [kitchen; hall]) New_selectors.

Definition api_empty : API :=
  mkAPI (mkConfig 0 30000 []) New_selectors.

(* ----------------------------------------------------------------- *)
(** *** Notions for the further properties *)

(** A color whose four fields are in the range of [uint16]. *)
Definition uint16_fields (c : HSBK) : Prop :=
  0 <= Hue c < 65536 /\ 0 <= Saturation c < 65536 /\
  0 <= Brightness c < 65536 /\ 0 <= Kelvin c < 65536.


(** A method that hands at most [n] datagrams to the transport, and takes
    as many answers of the network as it hands datagrams. *)
Definition sends {A : Type} (n : nat) (c : M A) : Prop :=
  forall l w,
    exists dgs,
      (List.length dgs <= n)%nat
      /\ outbox (snd (c l w)) = outbox w ++ dgs
      /\ inbox (snd (c l w)) = skipn (List.length dgs) (inbox w).

(** The device [l'] is the device [l] but for its transport client. *)
Definition same_but_client (l l' : Lifx) : Prop :=
  l' = set_client (client l') l.

(** The device with the state [st] cached. *)
Definition cache_state (st : State) (l : Lifx) : Lifx :=
  set_Power (State_Power st) (set_Label (State_Label st)
    (set_HSBK (State_HSBK st) l)).

(** The device [l'] is the device [l] as far as its identity and its
    configuration go: same UUID, address, port and protocol. *)
Definition same_device (l l' : Lifx) : Prop :=
  UUID l' = UUID l /\ Address l' = Address l /\ Port l' = Port l
  /\ Protocol l' = Protocol l.

(** A method that writes none of these four fields, however it ends. *)
Definition keeps_device {A : Type} (c : M A) : Prop :=
  forall l w, same_device l (snd (fst (c l w))).

(** A device as a call of [Update] that returns leaves it: connected,
    with a client, and with a color, a group, an info and a location. *)
Definition refreshed (l : Lifx) : Prop :=
  Connected l = true /\ client l = Some UDP_client /\ HSBK_ l <> None
  /\ Group_ l <> None /\ Info_ l <> None /\ Location_ l <> None.

(* ----------------------------------------------------------------- *)
(** *** Values for the examples of the further properties *)

(** Two headers: that of the state query, and one that asks for an
    acknowledgement of a power message. *)
Definition header_get : Header :=
  mkHeader frame_example source_example (zeros 8) false true x10 [x65; x00].

Definition header_ack : Header :=
  mkHeader frame_example source_example (zeros 8) true false x10 [x15; x00].

(** A color: brightness 20000 at 3500 K. *)
Definition warm_white : HSBK := mkHSBK 0 0 20000 3500.

(** A network that answers five queries, each with the 88 bytes of
    [state_reply], and one that answers ten. *)
Definition world_five_replies : World :=
  mkWorld (repeat (Returned (Ok state_reply)) 5) [].

Definition world_ten_replies : World :=
  mkWorld (repeat (Returned (Ok state_reply)) 10) [].

(** A network that answers the state query, and the group query with 36
    bytes: a header and no payload. *)
Definition world_group_short : World :=
  mkWorld [Returned (Ok state_reply); Returned (Ok (slice_of (zeros 36)))] [].

(** A network that answers the label message and times out on the power
    message. *)
Definition world_power_fails : World :=
  mkWorld [Returned (Ok state_reply); Returned (Err (Transport "i/o timeout"))] [].

(** One call of the transport: a datagram of 40 bytes comes back that
    declares a size of 38. *)
Definition datagram_38 : list byte := [x26; x00] ++ zeros 38.

Definition network_answers : UDP_network :=
  mkUDP_network None None None (Ok datagram_38).

(** One call of the transport where the socket cannot be opened. *)
Definition network_no_route : UDP_network :=
  mkUDP_network None (Some (Transport "network is unreachable")) None
                (Ok datagram_38).

(** A registry whose first device has a group and whose second has none. *)
Definition kitchen_grouped : Lifx :=
  set_Group (Some (mkGroup (zeros 16) "downstairs")) kitchen.

Definition api_half_grouped : API :=
  mkAPI (mkConfig 0 30000 [kitchen_grouped; hall]) New_selectors.

(** The device of the examples with the protocol tcp, and with no address. *)
Definition bulb_tcp : Lifx :=
  mkLifx "u1" "" false "" None None None None None
         (Some "192.168.1.20") "56700" "tcp" None.

Definition bulb_no_address : Lifx :=
  mkLifx "u1" "" false "" None None None None None None "56700" "udp" None.

(** A network that answers one message with no bytes. *)
Definition world_empty_reply : World := mkWorld [Returned (Ok (slice_of []))] [].

(** A network that answers one message with the state of the examples. *)
Definition world_state_reply : World := mkWorld [Returned (Ok state_reply)] [].

(** The registry of the kitchen and the hall, the hall with its power
    cached as on and no color yet. *)
Definition hall_on : Lifx := set_Power "on" hall.

Definition api_hall_on : API :=
  mkAPI (mkConfig 0 30000 [kitchen; hall_on]) New_selectors.

(* ================================================================= *)
(** ** Properties *)

(* ----------------------------------------------------------------- *)
(** *** Bytes and little-endian integers *)

Lemma Z_of_byte_of_Z (v : Z) : Z_of_byte (byte_of_Z v) = v mod 256.
Proof.
  unfold Z_of_byte, byte_of_Z.
  assert (Hr : 0 <= v mod 256 < 256) by (apply Z.mod_pos_bound; lia).
  destruct (Byte.of_N (Z.to_N (v mod 256))) as [b|] eqn:E.
  - apply Byte.to_of_N in E. rewrite E. lia.
  - apply Byte.of_N_None_iff in E. lia.
Qed.

(** Two bytes put side by side hold a 16-bit integer. *)
Lemma lor_low_high (v : Z) :
  Z.lor (v mod 256) (Z.shiftl (Z.shiftr v 8 mod 256) 8) = v mod 65536.
Proof.
  apply Z.bits_inj'. intros n Hn.
  rewrite Z.lor_spec.
  change 256 with (2 ^ 8). change 65536 with (2 ^ 16).
  rewrite !Z.testbit_mod_pow2 by lia.
  rewrite Z.shiftl_spec by lia.
  destruct (Z.ltb_spec n 8) as [H8|H8].
  - rewrite (Z.testbit_neg_r _ (n - 8)) by lia.
    destruct (Z.ltb_spec n 16); [|lia].
    rewrite orb_false_r. reflexivity.
  - rewrite Z.testbit_mod_pow2 by lia.
    rewrite Z.shiftr_spec by lia.
    replace (n - 8 + 8) with n by lia.
    destruct (Z.ltb_spec (n - 8) 8), (Z.ltb_spec n 16); try lia; reflexivity.
Qed.

Lemma Uint16_PutUint16 (v : Z) :
  LittleEndian_Uint16 (PutUint16 v) = Returned (uint16 v).
Proof.
  unfold LittleEndian_Uint16, PutUint16, uint16.
  rewrite !Z_of_byte_of_Z. f_equal. apply lor_low_high.
Qed.

(* ----------------------------------------------------------------- *)
(** *** Slices *)

Lemma len_le_cap (s : slice) : len s <= cap s.
Proof. unfold len, cap. lia. Qed.

Lemma index_Returned (s : slice) (i : Z) (b : byte) :
  index s i = Returned b -> 0 <= i < len s.
Proof.
  unfold index.
  destruct (Z.leb_spec 0 i), (Z.ltb_spec i (len s)); simpl; try discriminate.
  intros _. lia.
Qed.

Lemma index_in_range (s : slice) (i : Z) :
  0 <= i < len s -> exists b, index s i = Returned b.
Proof.
  intros H. unfold index.
  destruct (Z.leb_spec 0 i), (Z.ltb_spec i (len s)); try lia. simpl.
  destruct (nth_error (elems s) (Z.to_nat i)) as [b|] eqn:E.
  - now exists b.
  - apply nth_error_None in E. unfold len in H. lia.
Qed.

Lemma index_Panicked (s : slice) (i : Z) :
  index s i = Panicked -> i < 0 \/ len s <= i.
Proof.
  intros H.
  destruct (Z.lt_ge_cases i 0) as [|H0]; [now left|].
  destruct (Z.lt_ge_cases i (len s)) as [Hl|]; [|now right].
  destruct (@index_in_range s i) as [b Hb]; [lia|congruence].
Qed.

Lemma reslice_Returned (s : slice) (lo hi : Z) (s' : slice) :
  reslice s lo hi = Returned s' -> 0 <= lo /\ lo <= hi /\ hi <= cap s.
Proof.
  unfold reslice.
  destruct (Z.leb_spec 0 lo), (Z.leb_spec lo hi), (Z.leb_spec hi (cap s));
    simpl; try discriminate.
  intros _. lia.
Qed.

Lemma reslice_Panicked (s : slice) (lo hi : Z) :
  reslice s lo hi = Panicked -> lo < 0 \/ hi < lo \/ cap s < hi.
Proof.
  unfold reslice.
  destruct (Z.leb_spec 0 lo), (Z.leb_spec lo hi), (Z.leb_spec hi (cap s));
    simpl; try discriminate; intros _; lia.
Qed.

Lemma reslice_in_range (s : slice) (lo hi : Z) :
  0 <= lo -> lo <= hi -> hi <= cap s ->
  reslice s lo hi =
  Returned (mkSlice (firstn (Z.to_nat (hi - lo))
                            (skipn (Z.to_nat lo) (elems s ++ spare s)))
                    (skipn (Z.to_nat hi) (elems s ++ spare s))).
Proof.
  intros H0 H1 H2. unfold reslice.
  destruct (Z.leb_spec 0 lo), (Z.leb_spec lo hi), (Z.leb_spec hi (cap s));
    try lia.
  reflexivity.
Qed.

Lemma reslice_negative (s : slice) (lo hi : Z) :
  lo < 0 -> reslice s lo hi = Panicked.
Proof.
  intros H. unfold reslice. destruct (Z.leb_spec 0 lo); [lia|reflexivity].
Qed.

(* ----------------------------------------------------------------- *)
(** *** The control byte *)

Lemma decodeAckRes_encodeAckResToByte (h : Header) :
  decodeAckRes (encodeAckResToByte h) = (ackRequired h, resRequired h).
Proof.
  unfold encodeAckResToByte.
  destruct (ackRequired h), (resRequired h); reflexivity.
Qed.

(** C3, as the code has it: [decodeAckRes] maps 0x00, 0x01, 0x10 and 0x11
    to (ack, res) = (false, false), (false, true), (true, false) and
    (true, true), and maps every other byte to (true, true) too.  It has no
    error result and rejects nothing; on the bytes that
    [encodeAckResToByte] produces it gives back the two flags. *)
Theorem decodeAckRes_total :
  decodeAckRes x00 = (false, false) /\
  decodeAckRes x01 = (false, true) /\
  decodeAckRes x10 = (true, false) /\
  decodeAckRes x11 = (true, true) /\
  (forall b : byte,
      b <> x00 -> b <> x01 -> b <> x10 -> decodeAckRes b = (true, true)) /\
  (forall h : Header,
      decodeAckRes (encodeAckResToByte h) = (ackRequired h, resRequired h)).
Proof.
  repeat split.
  - intros b H0 H1 H2. unfold decodeAckRes.
    destruct (Byte.eqb b x00) eqn:E0; [apply Byte.byte_dec_bl in E0; contradiction|].
    destruct (Byte.eqb b x01) eqn:E1; [apply Byte.byte_dec_bl in E1; contradiction|].
    destruct (Byte.eqb b x10) eqn:E2; [apply Byte.byte_dec_bl in E2; contradiction|].
    reflexivity.
  - apply decodeAckRes_encodeAckResToByte.
Qed.

(* ----------------------------------------------------------------- *)
(** *** The size prefix *)

Lemma updateSize_value (m : Message) :
  snd (updateSize m) = (36 + Z.of_nat (List.length (payload m))) mod 65536.
Proof.
  unfold updateSize, uint16, getSize, size. cbn [snd].
  change (2 mod 65536) with 2. change (34 mod 65536) with 34.
  rewrite Z.add_mod_idemp_r by lia. reflexivity.
Qed.

Lemma EncodeToBytes_prefix (m : Message) :
  firstn 2 (fst (EncodeToBytes m)) = PutUint16 (snd (updateSize m)).
Proof. reflexivity. Qed.

(** The size prefix that [EncodeToBytes] writes, for every payload: the
    sum is taken in 16 bits. *)
Lemma EncodeToBytes_size_mod (m : Message) :
  LittleEndian_Uint16 (firstn 2 (fst (EncodeToBytes m))) =
  Returned ((36 + Z.of_nat (List.length (payload m))) mod 65536).
Proof.
  rewrite EncodeToBytes_prefix, Uint16_PutUint16, updateSize_value.
  unfold uint16. rewrite Z.mod_mod by lia. reflexivity.
Qed.

(** C4, as the code has it: for every message whose payload has a length L
    of at most 65499, so that 36 + L fits the two-byte size field, the first
    two bytes of the encoded buffer read as a little-endian 16-bit integer
    are 36 + L. *)
Theorem EncodeToBytes_size (m : Message) :
  Z.of_nat (List.length (payload m)) <= 65499 ->
  LittleEndian_Uint16 (firstn 2 (fst (EncodeToBytes m))) =
  Returned (36 + Z.of_nat (List.length (payload m))).
Proof.
  intros H. rewrite EncodeToBytes_size_mod.
  rewrite Z.mod_small by lia. reflexivity.
Qed.

(** The size field of the message is the one written to the buffer. *)
Lemma EncodeToBytes_updates_Size (m : Message) :
  Size (snd (EncodeToBytes m)) = firstn 2 (fst (EncodeToBytes m)).
Proof. reflexivity. Qed.

(* ----------------------------------------------------------------- *)
(** *** Decoding a message *)

(** The reads of [DecodeToMessage], one after the other: a read that panics
    bounds the length of the buffer, and the proof goes on with the reads
    that return. *)
Ltac decode_message_reads bytes :=
  unfold DecodeToMessage, reslice_from, obind;
  pose proof (len_le_cap bytes);
  repeat match goal with
         | |- context [match reslice bytes ?lo ?hi with _ => _ end] =>
             let E := fresh "E" in
             destruct (reslice bytes lo hi) eqn:E;
             [apply reslice_Panicked in E|apply reslice_Returned in E]
         | |- context [match index bytes ?i with _ => _ end] =>
             let E := fresh "E" in
             destruct (index bytes i) eqn:E;
             [apply index_Panicked in E|apply index_Returned in E]
         | |- context [decodeAckRes ?b] =>
             destruct (decodeAckRes b)
         end.

(** [DecodeToMessage] panics on a buffer shorter than 19 bytes. *)
Lemma DecodeToMessage_short (bytes : slice) :
  len bytes < 19 -> DecodeToMessage bytes = Panicked.
Proof.
  intros H. decode_message_reads bytes; try reflexivity; lia.
Qed.

(** C9: [DecodeToMessage] returns exactly on the buffers of at least 19
    bytes, and the message it returns has an empty payload whatever the
    buffer holds: the tail of the buffer is copied into the nil payload of
    the fresh message, a destination of length zero. *)
Theorem DecodeToMessage_payload_empty (bytes : slice) :
  match DecodeToMessage bytes with
  | Panicked => len bytes < 19
  | Returned m => 19 <= len bytes /\ payload m = []
  end.
Proof.
  decode_message_reads bytes; try lia.
  split; [lia|]. unfold copy. cbn [List.length firstn app]. apply skipn_nil.
Qed.

Lemma index_nth (s : slice) (i : Z) :
  0 <= i < len s -> index s i = Returned (nth (Z.to_nat i) (elems s) x00).
Proof.
  intros H. unfold index.
  destruct (Z.leb_spec 0 i), (Z.ltb_spec i (len s)); try lia. simpl.
  destruct (nth_error (elems s) (Z.to_nat i)) as [b|] eqn:E.
  - rewrite (nth_error_nth _ _ x00 E). reflexivity.
  - apply nth_error_None in E. unfold len in H. lia.
Qed.

(** What [DecodeToMessage] reads back from the bytes of a message: the
    frame, the source and the target, which it reads at the offsets at
    which [EncodeToBytes] writes them. The control byte, the sequence and
    the message type are written at offsets 22, 23 and 32 and read at
    offsets 16, 17 and 18, among the reserved zero bytes, so both flags come
    back false and the sequence and the message type come back zero. *)
Lemma DecodeToMessage_EncodeToBytes (m : Message) :
  wf_Header (Header_ m) ->
  DecodeToMessage (slice_of (fst (EncodeToBytes m))) =
  Returned (mkMessage (Size (snd (EncodeToBytes m)))
              (mkHeader (frame (Header_ m)) (source (Header_ m))
                        (target (Header_ m)) false false x00 [x00; x00])
              []).
Proof.
  intros (Hf & Hs & Ht & Hm).
  destruct m as [sz [fr so ta ack res sq mt] pl]. cbn in Hf, Hs, Ht, Hm.
  destruct fr as [|f0 [|f1 [|]]]; try discriminate.
  destruct so as [|s0 [|s1 [|s2 [|s3 [|]]]]]; try discriminate.
  destruct ta as [|t0 [|t1 [|t2 [|t3 [|t4 [|t5 [|t6 [|t7 [|]]]]]]]]];
    try discriminate.
  destruct mt as [|m0 [|m1 [|]]]; try discriminate.
  unfold EncodeToBytes, updateSize, Header_EncodeToBytes, PutUint16.
  cbn [fst snd Size Header_ payload frame source target messageType sequence
       nth app zeros repeat firstn].
  generalize (byte_of_Z (uint16 (uint16 2 + uint16 (getSize
               (mkHeader [f0; f1] [s0; s1; s2; s3]
                         [t0; t1; t2; t3; t4; t5; t6; t7] ack res sq [m0; m1]))
               + uint16 (Z.of_nat (List.length pl))))).
  generalize (byte_of_Z (Z.shiftr (uint16 (uint16 2 + uint16 (getSize
               (mkHeader [f0; f1] [s0; s1; s2; s3]
                         [t0; t1; t2; t3; t4; t5; t6; t7] ack res sq [m0; m1]))
               + uint16 (Z.of_nat (List.length pl)))) 8)).
  intros z1 z0.
  match goal with |- DecodeToMessage ?s = _ => set (buf := s) end.
  assert (Hlen : 36 <= len buf).
  { unfold len, buf, slice_of. cbn [elems List.length]. lia. }
  pose proof (len_le_cap buf) as Hcap.
  unfold DecodeToMessage, reslice_from, obind.
  rewrite !reslice_in_range by lia.
  rewrite !index_nth by lia.
  unfold buf, slice_of, copy. cbn. rewrite skipn_nil. reflexivity.
Qed.

(** No message type of the enumeration is written as two zero bytes. *)
Lemma PutUint16_MessageTypes (t : Z) :
  In t MessageTypes -> PutUint16 (uint16 t) <> [x00; x00].
Proof.
  unfold MessageTypes. cbn [In]. intros H.
  repeat (destruct H as [<- | H]; [vm_compute; discriminate|]).
  contradiction.
Qed.

(** C1, on the code: the header does not survive the round trip.  For every
    message whose header carries a message type of the enumeration,
    whatever its flags and its sequence, [DecodeToMessage] returns on the
    bytes of [EncodeToBytes] a message whose header is not the header
    encoded: it has the frame, the source and the target, and both flags
    false, the sequence zero and the message type zero. *)
Theorem Header_round_trip_fails (m : Message) (t : Z) :
  wf_Header (Header_ m) ->
  In t MessageTypes ->
  messageType (Header_ m) = PutUint16 (uint16 t) ->
  exists m',
    DecodeToMessage (slice_of (fst (EncodeToBytes m))) = Returned m'
    /\ Header_ m' <> Header_ m
    /\ Header_ m' = mkHeader (frame (Header_ m)) (source (Header_ m))
                             (target (Header_ m)) false false x00 [x00; x00].
Proof.
  intros Hwf Ht Hm. eexists. split; [apply DecodeToMessage_EncodeToBytes, Hwf|].
  cbn [Header_]. split; [|reflexivity].
  intros Heq. apply (PutUint16_MessageTypes Ht).
  rewrite <- Hm, <- Heq. reflexivity.
Qed.

(* ----------------------------------------------------------------- *)
(** *** Methods of a device *)

Lemma bind_bind {A B C : Type} (c : M A) (k : A -> M B) (k' : B -> M C)
    (l : Lifx) (w : World) :
  bind (bind c k) k' l w = bind c (fun a => bind (k a) k') l w.
Proof.
  unfold bind. destruct (c l w) as [[[ | a | e ] l'] w']; reflexivity.
Qed.

Lemma bind_head {A B : Type} (c : M A) (k k' : A -> M B) (l : Lifx) (w : World) :
  (forall a l' w', k a l' w' = k' a l' w') ->
  bind c k l w = bind c k' l w.
Proof.
  intros H. unfold bind. destruct (c l w) as [[[ | a | e ] l'] w']; auto.
Qed.

Ltac bind_step :=
  repeat rewrite bind_bind; apply bind_head; intros ? ? ?.

(** [Update] is its five exchanges between the two writes of
    [Connected]. *)
Lemma Update_as_sequence (l : Lifx) (w : World) :
  Update l w =
  (modify (set_Connected false) ;;
   run_exchanges refresh_sequence ;;
   modify (set_Connected true) ;;
   ret tt)%dev l w.
Proof.
  unfold Update, refresh_sequence, run_exchanges, run_exchange.
  cbn [query annotation store].
  repeat bind_step.
  reflexivity.
Qed.

(** [Send] writes no field of the device but [client]. *)
Lemma Send_frame (message : Message) (l : Lifx) (w : World) :
  snd (fst (Send message l w)) = set_client (client (snd (fst (Send message l w)))) l.
Proof.
  unfold Send, bind, getLifx, client_Send.
  destruct (EncodeToBytes message) as [bytes message0].
  destruct l as [u la co po hs gr pr inf lo ad pt proto cl].
  cbn [client Protocol Address Port].
  destruct cl as [c|]; [|destruct (String.eqb proto UDP)];
    cbn [ret modify fail set_client]; try reflexivity;
    (destruct ad as [a|]; cbn [deref ret panic]; [|reflexivity]);
    (destruct (String.length a =? 0)%nat; [reflexivity|]);
    (destruct (String.length pt =? 0)%nat; [reflexivity|]);
    (destruct (List.length bytes =? 0)%nat; [reflexivity|]);
    destruct (inbox w) as [|[|[reply|e]] rest]; reflexivity.
Qed.

Lemma Send_Connected (message : Message) (l : Lifx) (w : World) :
  Connected (snd (fst (Send message l w))) = Connected l.
Proof. rewrite Send_frame. reflexivity. Qed.

Lemma triple_bind {A B : Type} (P : Lifx -> Prop) (Q' : A -> Lifx -> Prop)
    (Q : B -> Lifx -> Prop) (c : M A) (k : A -> M B) :
  triple P c Q' -> (forall a, triple (Q' a) (k a) Q) -> triple P (bind c k) Q.
Proof.
  intros Hc Hk l w HP. specialize (Hc l w HP). unfold bind.
  destruct (c l w) as [[[ | a | e ] l'] w']; cbn in *; auto.
  apply Hk. exact Hc.
Qed.

Lemma triple_send (a : string) (message : Message) :
  triple off (annotate a (Send message)) (fun _ => off).
Proof.
  intros l w Hl. unfold annotate.
  pose proof (Send_Connected message l w) as H.
  destruct (Send message l w) as [[[ | s | e ] l'] w']; cbn in *;
    unfold off in *; congruence.
Qed.

Lemma triple_lift {A : Type} (o : outcome (result A)) :
  triple off (lift o) (fun _ => off).
Proof.
  intros l w Hl. destruct o as [ | [ a | e ] ]; exact Hl.
Qed.

Lemma triple_modify (P : Lifx -> Prop) (Q : unit -> Lifx -> Prop) (f : Lifx -> Lifx) :
  (forall l, P l -> Q tt (f l)) -> triple P (modify f) Q.
Proof. intros H l w Hl. apply H, Hl. Qed.

Lemma triple_ret {A : Type} (P : Lifx -> Prop) (a : A) :
  triple P (ret a) (fun _ => P).
Proof. intros l w Hl. exact Hl. Qed.

Ltac each_exchange H :=
  repeat (destruct H as [H|H]; [subst|]); try contradiction.

Lemma triple_exchange (x : exchange) :
  In x refresh_sequence -> triple off (run_exchange x) (fun _ => off).
Proof.
  unfold refresh_sequence. cbn [In]. intros H.
  each_exchange H; unfold run_exchange;
    cbn [query annotation store];
    (eapply triple_bind; [apply triple_send|]); intros bytes;
    (eapply triple_bind; [apply triple_lift|]); intros v;
    repeat (eapply triple_bind; [apply triple_modify; intros l Hl; exact Hl|];
            intros ?);
    apply triple_modify; intros l Hl; exact Hl.
Qed.

Lemma triple_exchanges (xs : list exchange) :
  (forall x, In x xs -> In x refresh_sequence) ->
  triple off (run_exchanges xs) (fun _ => off).
Proof.
  induction xs as [|x xs IH]; intros Hin; cbn [run_exchanges].
  - apply triple_ret.
  - eapply triple_bind.
    + apply triple_exchange, Hin. now left.
    + intros ?. apply IH. intros y Hy. apply Hin. now right.
Qed.

Lemma run_exchanges_app (pre post : list exchange) (l : Lifx) (w : World) :
  run_exchanges (pre ++ post) l w =
  bind (run_exchanges pre) (fun _ => run_exchanges post) l w.
Proof.
  revert l w. induction pre as [|x pre IH]; intros l w; cbn [run_exchanges app].
  - reflexivity.
  - rewrite bind_bind. apply bind_head. intros _ l' w'. apply IH.
Qed.

(** An exchange of the sequence that does not return leaves every field
    but [client] as it found it. *)
Lemma exchange_fails_frame (x : exchange) (l : Lifx) (w : World) :
  In x refresh_sequence ->
  match run_exchange x l w with
  | (Return _, _, _) => True
  | (_, l', _) => l' = set_client (client l') l
  end.
Proof.
  unfold refresh_sequence. cbn [In]. intros H.
  each_exchange H; unfold run_exchange;
    cbn [query annotation store]; unfold bind, annotate;
    match goal with
    | |- context [Send ?m l w] =>
        pose proof (Send_frame m l w) as Hs;
        destruct (Send m l w) as [[[ | bytes | e ] l'] w']; cbn in Hs; auto
    end;
    match goal with
    | |- context [lift ?o] => destruct o as [ | [ v | e ] ]; cbn; auto
    end.
Qed.

(** C8: [Update] sets [Connected] to false at entry and leaves it true
    exactly when it returns without an error; and it returns so exactly when
    the five exchanges (state, group, info, location, version, in this
    order) all succeed: it then returns, with what the five exchanges have
    written and [Connected] true.  When the exchanges before one have
    succeeded and that one does not, [Update] ends as that exchange does,
    without running the exchanges after it: it returns the error of the
    exchange, or it panics where the exchange panics (a reply too short to
    decode).  Either way [Connected] is false, and every field written by
    the earlier exchanges is as they left it. *)
Theorem Update_abort :
  (forall l w,
      match Update l w with
      | (Return _, l', _) => Connected l' = true
      | (_, l', _) => Connected l' = false
      end) /\
  map query refresh_sequence = [Get; GetGroup; GetInfo; GetLocation; GetVersion] /\
  (forall l w l' w',
      Update l w = (Return tt, l', w') <->
      exists l5,
        run_exchanges refresh_sequence (set_Connected false l) w = (Return tt, l5, w')
        /\ l' = set_Connected true l5) /\
  (forall pre x post l w l1 w1 r l2 w2,
      refresh_sequence = pre ++ x :: post ->
      run_exchanges pre (set_Connected false l) w = (Return tt, l1, w1) ->
      run_exchange x l1 w1 = (r, l2, w2) ->
      r <> Return tt ->
      Update l w = (r, l2, w2)
      /\ Connected l2 = false
      /\ l2 = set_client (client l2) l1).
Proof.
  split; [|split; [reflexivity|split]].
  - intros l w. rewrite Update_as_sequence.
    assert (T : triple (fun _ => True)
                  (modify (set_Connected false) ;;
                   run_exchanges refresh_sequence ;;
                   modify (set_Connected true) ;; ret tt)%dev
                  (fun _ l' => Connected l' = true)).
    { eapply triple_bind with (Q' := fun _ => off).
      - apply triple_modify. intros l0 _. reflexivity.
      - intros ?. eapply triple_bind.
        + apply triple_exchanges. auto.
        + intros ?. eapply triple_bind with (Q' := fun _ l' => Connected l' = true).
          * apply triple_modify. intros l0 _. reflexivity.
          * intros ?. apply triple_ret. }
    specialize (T l w I). unfold disconnected_or in T.
    match type of T with
    | context [let (_, _) := ?c in _] =>
        destruct c as [[[ | u | e ] l'] w']; exact T
    end.
  - intros l w l' w'. rewrite Update_as_sequence.
    unfold bind at 1. cbn [modify]. unfold bind at 1.
    split.
    + destruct (run_exchanges refresh_sequence (set_Connected false l) w)
        as [[[ | [] | e ] l5] w5]; try discriminate.
      cbn. intros H. injection H as <- <-. exists l5. split; reflexivity.
    + intros (l5 & -> & ->). reflexivity.
  - intros pre x post l w l1 w1 r l2 w2 Hseq Hpre Hx Hr.
    assert (Hin : In x refresh_sequence).
    { rewrite Hseq. apply in_or_app. right. now left. }
    assert (Hoff : off l1).
    { assert (T : triple off (run_exchanges pre) (fun _ => off)).
      { apply triple_exchanges. intros y Hy. rewrite Hseq.
        apply in_or_app. now left. }
      specialize (T (set_Connected false l) w eq_refl).
      rewrite Hpre in T. exact T. }
    pose proof (@exchange_fails_frame x l1 w1 Hin) as Hframe.
    rewrite Hx in Hframe.
    assert (Hframe' : l2 = set_client (client l2) l1).
    { destruct r as [ | [] | e ]; [exact Hframe|contradiction|exact Hframe]. }
    split; [|split].
    + rewrite Update_as_sequence.
      unfold bind at 1. cbn [modify]. unfold bind at 1.
      rewrite Hseq, run_exchanges_app.
      unfold bind at 1. rewrite Hpre.
      cbn [run_exchanges]. unfold bind at 1. rewrite Hx.
      destruct r as [ | [] | e ]; [reflexivity|contradiction|reflexivity].
    + rewrite Hframe'. exact Hoff.
    + exact Hframe'.
Qed.

(* ----------------------------------------------------------------- *)
(** *** Toggle *)

(** The guard of [Toggle], case by case. *)
Lemma Toggle_cases (brightness duration : Z) (l : Lifx) (w : World) :
  Toggle brightness duration l w =
  if String.eqb (Power l) PowerOn
  then match HSBK_ l with
       | None => (Panic, l, w)
       | Some c =>
           if 0 <? Brightness c
           then send_and_apply "turning off a device"
                  (SetColorMessage Off duration) l w
           else send_and_apply "turning on a device"
                  (SetColorMessage (mkHSBK 65535 65535 brightness 65535) duration) l w
       end
  else send_and_apply "turning on a device"
         (SetColorMessage (mkHSBK 65535 65535 brightness 65535) duration) l w.
Proof.
  unfold Toggle, send_and_apply.
  unfold bind at 1. cbn [getLifx].
  destruct (String.eqb (Power l) PowerOn).
  - destruct (HSBK_ l) as [c|]; [|reflexivity].
    destruct (0 <? Brightness c) eqn:E;
      rewrite bind_bind; unfold bind at 1; cbn [deref ret];
      unfold bind at 1; cbn [ret]; rewrite E; reflexivity.
  - unfold bind at 1. cbn [ret]. reflexivity.
Qed.

Lemma length_zero_string (s : string) : (String.length s =? 0)%nat = false <-> s <> "".
Proof.
  destruct s; cbn; split; intros H; congruence.
Qed.

Lemma EncodeToBytes_nonempty (m : Message) :
  (List.length (fst (EncodeToBytes m)) =? 0)%nat = false.
Proof. reflexivity. Qed.

Lemma EncodeToBytes_again (m : Message) :
  fst (EncodeToBytes (snd (EncodeToBytes m))) = fst (EncodeToBytes m).
Proof. reflexivity. Qed.

(** What a configured device hands to its transport client. *)
Lemma Send_outbox (message : Message) (l : Lifx) (w : World) (address : string) :
  configured l address ->
  outbox (snd (Send message l w)) =
  outbox w ++ [mkDatagram address (Port l) (fst (EncodeToBytes message))].
Proof.
  intros (Hc & Ha & Hne & Hp).
  apply length_zero_string in Hne. apply length_zero_string in Hp.
  unfold Send, bind, getLifx, client_Send.
  pose proof (EncodeToBytes_nonempty message) as Hn.
  pose proof (EncodeToBytes_again message) as Hg.
  destruct (EncodeToBytes message) as [bytes message0]. cbn [fst snd] in Hn, Hg.
  rewrite Ha.
  assert (Hcl : forall w0,
             match client l with
             | Some _ => ret tt
             | None => if String.eqb (Protocol l) UDP
                       then modify (set_client (Some UDP_client))
                       else fail (NotFound ("protocol " ++ Protocol l ++ " not found"))
             end l w0 = (Return tt, set_client (Some UDP_client) l, w0)
             \/ match client l with
                | Some _ => ret tt
                | None => if String.eqb (Protocol l) UDP
                          then modify (set_client (Some UDP_client))
                          else fail (NotFound ("protocol " ++ Protocol l ++ " not found"))
                end l w0 = (Return tt, l, w0)).
  { intros w0. destruct (client l) as [c|].
    - right. reflexivity.
    - left. destruct Hc as [Hc|Hc]; [congruence|].
      rewrite Hc. reflexivity. }
  destruct (Hcl w) as [-> | ->]; cbn [deref ret];
    rewrite Hne, Hp, Hn, Hg;
    destruct (inbox w) as [|[|[reply|e]] rest]; reflexivity.
Qed.

Lemma send_and_apply_outbox (a : string) (message : Message) (l : Lifx)
    (w : World) (address : string) :
  configured l address ->
  outbox (snd (send_and_apply a message l w)) =
  outbox w ++ [mkDatagram address (Port l) (fst (EncodeToBytes message))].
Proof.
  intros H. pose proof (@Send_outbox message l w address H) as Hs.
  unfold send_and_apply, bind, annotate.
  destruct (Send message l w) as [[[ | bytes | e ] l'] w']; cbn [snd] in *; auto.
  destruct (DecodeToState bytes) as [ | [ st | e ] ]; cbn; auto.
Qed.

(** C7, as the code has it: for every device whose cached color is not nil
    when its cached power is on, [Toggle] hands to [Send] a color-set
    message (type 102) whose color is all zeros if the cached power is on
    and the cached brightness is greater than 0, and otherwise the on preset
    with its brightness replaced by [maxBrightness]; a configured device
    passes exactly that message to its transport client. *)
Theorem Toggle_sends (maxBrightness duration : Z) (l : Lifx) (w : World) :
  (Power l = PowerOn -> HSBK_ l <> None) ->
  Toggle maxBrightness duration l w =
    send_and_apply (toggle_annotation l)
      (SetColorMessage (toggle_color maxBrightness l) duration) l w
  /\ messageType (Header_ (SetColorMessage (toggle_color maxBrightness l) duration))
     = PutUint16 SetColor
  /\ payload (SetColorMessage (toggle_color maxBrightness l) duration)
     = [x00] ++ encodeHSBKToBytes (toggle_color maxBrightness l)
             ++ encodeDurationToBytes duration
  /\ (forall address,
         configured l address ->
         outbox (snd (Toggle maxBrightness duration l w)) =
         outbox w ++
         [mkDatagram address (Port l)
            (fst (EncodeToBytes
                    (SetColorMessage (toggle_color maxBrightness l) duration)))]).
Proof.
  intros Hpre.
  assert (Heq : Toggle maxBrightness duration l w =
                send_and_apply (toggle_annotation l)
                  (SetColorMessage (toggle_color maxBrightness l) duration) l w).
  { rewrite Toggle_cases. unfold toggle_color, toggle_annotation.
    change "on" with PowerOn.
    destruct (String.eqb (Power l) PowerOn) eqn:Ep; cbn [andb]; [|reflexivity].
    apply String.eqb_eq in Ep. specialize (Hpre Ep).
    destruct (HSBK_ l) as [c|]; [|contradiction].
    destruct (0 <? Brightness c); reflexivity. }
  split; [exact Heq|]. split; [reflexivity|]. split.
  - unfold SetColorMessage. cbn [payload withHeader SetPayload].
    rewrite <- app_assoc. reflexivity.
  - intros address Hc. rewrite Heq. apply send_and_apply_outbox. exact Hc.
Qed.

(** C10: [Toggle] reads the brightness of the cached color whenever the
    cached power is on.  With the power on and a nil color it panics at
    that read, before anything is sent; with the power not on it never
    reads the color, nil or not; with the power on and a color it goes on
    by the brightness.  So it is defined on, and only on, the devices whose
    color is not nil when their power is on. *)
Theorem Toggle_guard_nil_color (brightness duration : Z) (l : Lifx) (w : World) :
  (Power l = PowerOn -> HSBK_ l = None ->
   Toggle brightness duration l w = (Panic, l, w)) /\
  (Power l <> PowerOn ->
   Toggle brightness duration l w =
   send_and_apply "turning on a device"
     (SetColorMessage (mkHSBK 65535 65535 brightness 65535) duration) l w) /\
  (forall c, Power l = PowerOn -> HSBK_ l = Some c ->
   Toggle brightness duration l w =
   if 0 <? Brightness c
   then send_and_apply "turning off a device" (SetColorMessage Off duration) l w
   else send_and_apply "turning on a device"
          (SetColorMessage (mkHSBK 65535 65535 brightness 65535) duration) l w).
Proof.
  rewrite Toggle_cases. repeat split.
  - intros Hp Hc. rewrite Hp, Hc. reflexivity.
  - intros Hp. apply String.eqb_neq in Hp. rewrite Hp. reflexivity.
  - intros c Hp Hc. rewrite Hp, Hc. reflexivity.
Qed.

(* ----------------------------------------------------------------- *)
(** *** Decoders and short buffers *)

(** C2, on the code: no decoder checks the length of its buffer before it
    slices.  Each panics on a buffer shorter than the deepest offset it
    reads at: 19 bytes for a message, 52 for the state, 56 for the group and
    the location, 24 for the info, 8 for the version. *)
Theorem decoders_panic_on_short_buffers (bytes : slice) :
  (len bytes < 19 -> DecodeToMessage bytes = Panicked) /\
  (len bytes < 52 -> DecodeToState bytes = Panicked) /\
  (len bytes < 56 -> DecodeToGroup bytes = Panicked) /\
  (len bytes < 24 -> DecodeToInfo bytes = Panicked) /\
  (len bytes < 56 -> DecodeToLocation bytes = Panicked) /\
  (len bytes < 8 -> DecodeToProduct bytes = Panicked).
Proof.
  repeat split; intros H.
  - apply DecodeToMessage_short, H.
  - unfold DecodeToState. rewrite reslice_negative by lia. reflexivity.
  - unfold DecodeToGroup. rewrite reslice_negative by lia. reflexivity.
  - unfold DecodeToInfo. rewrite reslice_negative by lia. reflexivity.
  - unfold DecodeToLocation. rewrite reslice_negative by lia. reflexivity.
  - unfold DecodeToProduct. rewrite reslice_negative by lia. reflexivity.
Qed.

(** [DecodeToMessage] never compares the declared size with the length of
    the buffer: two buffers that differ in their first two bytes only are
    both decoded, to messages that differ in [Size] only. *)
Lemma DecodeToMessage_ignores_size (b0 b1 c0 c1 : byte) (rest : list byte) :
  match DecodeToMessage (slice_of (b0 :: b1 :: rest)),
        DecodeToMessage (slice_of (c0 :: c1 :: rest)) with
  | Returned m, Returned m' =>
      Header_ m = Header_ m' /\ payload m = payload m'
      /\ Size m = [b0; b1] /\ Size m' = [c0; c1]
  | Panicked, Panicked => True
  | _, _ => False
  end.
Proof.
  destruct (Z.lt_ge_cases (Z.of_nat (List.length rest)) 17) as [Hs|Hs].
  - rewrite !DecodeToMessage_short; [exact I| |];
      unfold len, slice_of; cbn [elems List.length]; lia.
  - assert (Hl : forall x y, 19 <= len (slice_of (x :: y :: rest))).
    { intros. unfold len, slice_of. cbn [elems List.length]. lia. }
    assert (Hc : forall x y, len (slice_of (x :: y :: rest))
                            <= cap (slice_of (x :: y :: rest))).
    { intros. apply len_le_cap. }
    pose proof (Hl b0 b1). pose proof (Hl c0 c1).
    pose proof (Hc b0 b1). pose proof (Hc c0 c1).
    unfold DecodeToMessage, reslice_from, obind.
    rewrite !reslice_in_range by lia.
    rewrite !index_nth by lia.
    unfold slice_of, len. cbn [elems spare List.length].
    rewrite !app_nil_r.
    change (Z.to_nat 16) with 16%nat. change (Z.to_nat 17) with 17%nat.
    cbn [nth].
    destruct (decodeAckRes (nth 14 rest x00)) as [ack res].
    cbn [Header_ payload Size].
    repeat split.
Qed.

(* ----------------------------------------------------------------- *)
(** *** Parsing a selector *)

Lemma Contains_colon_count (s : string) :
  Contains_colon s = false <-> count_colons s = 0%nat.
Proof.
  induction s as [|c s IH]; cbn; [tauto|].
  destruct (Ascii.eqb c ":"); cbn; [split; discriminate|exact IH].
Qed.

Lemma Split_colon_length (s : string) :
  List.length (Split_colon s) = S (count_colons s).
Proof.
  induction s as [|c s IH]; cbn; [reflexivity|].
  destruct (Ascii.eqb c ":"); cbn [List.length Nat.add].
  - rewrite IH. reflexivity.
  - destruct (Split_colon s) as [|part parts]; [discriminate|exact IH].
Qed.

Lemma Split_colon_none (s : string) :
  Contains_colon s = false -> Split_colon s = [s].
Proof.
  induction s as [|c s IH]; cbn; [reflexivity|].
  destruct (Ascii.eqb c ":"); [discriminate|].
  intros H. rewrite (IH H). reflexivity.
Qed.

Lemma Split_colon_pair (n v : string) :
  Contains_colon n = false -> Contains_colon v = false ->
  Split_colon (n ++ ":" ++ v) = [n; v].
Proof.
  intros Hn Hv. induction n as [|c n IH]; cbn.
  - rewrite (Split_colon_none _ Hv). reflexivity.
  - cbn in Hn. destruct (Ascii.eqb c ":"); [discriminate|].
    cbn in IH. rewrite (IH Hn). reflexivity.
Qed.

Lemma Contains_colon_pair (n v : string) :
  Contains_colon (n ++ ":" ++ v) = true.
Proof.
  induction n as [|c n IH]; cbn; [reflexivity|].
  destruct (Ascii.eqb c ":"); [reflexivity|exact IH].
Qed.

Lemma pair_nonempty (n v : string) :
  (String.length (n ++ ":" ++ v) =? 0)%nat = false.
Proof. destruct n; reflexivity. Qed.

Lemma selheap_init_names_fixed : names_fixed selheap_init.
Proof. intros p. split; reflexivity. Qed.

Lemma store_value_names_fixed (h : selheap) (s : selptr) (v : string) :
  names_fixed h -> names_fixed (store_value h s v).
Proof.
  intros H p. unfold store_value.
  destruct (selptr_eqb p s) eqn:E; [|apply H].
  assert (p = s) as -> by (destruct p, s; discriminate || reflexivity).
  cbn. apply H.
Qed.

(** The names of the eight objects, read through a heap that keeps them. *)
Ltac read_names h Hfix :=
  rewrite ?(proj1 (Hfix all)), ?(proj1 (Hfix label)), ?(proj1 (Hfix uuid)),
          ?(proj1 (Hfix groupID)), ?(proj1 (Hfix group)),
          ?(proj1 (Hfix locationID)), ?(proj1 (Hfix location)),
          ?(proj1 (Hfix sceneID)),
          ?(proj2 (Hfix all)), ?(proj2 (Hfix label)), ?(proj2 (Hfix uuid)),
          ?(proj2 (Hfix groupID)), ?(proj2 (Hfix group)),
          ?(proj2 (Hfix locationID)), ?(proj2 (Hfix location)),
          ?(proj2 (Hfix sceneID)).

Lemma parseSelector_static_unknown (h : selheap) (s : string) (err : error) :
  names_fixed h ->
  (forall p, s <> name (selheap_init p)) ->
  parseSelector_static h s err New_selectors
  = Err (NotFound ("selector `" ++ s ++ "`")).
Proof.
  intros Hfix Hs. unfold New_selectors. cbn [app parseSelector_static].
  read_names h Hfix.
  rewrite (proj2 (String.eqb_neq _ _) (Hs all)),
          (proj2 (String.eqb_neq _ _) (Hs label)),
          (proj2 (String.eqb_neq _ _) (Hs uuid)),
          (proj2 (String.eqb_neq _ _) (Hs groupID)),
          (proj2 (String.eqb_neq _ _) (Hs group)),
          (proj2 (String.eqb_neq _ _) (Hs locationID)),
          (proj2 (String.eqb_neq _ _) (Hs location)),
          (proj2 (String.eqb_neq _ _) (Hs sceneID)).
  reflexivity.
Qed.

Lemma parseSelector_dynamic_unknown (h : selheap) (s n v : string) :
  names_fixed h ->
  (forall p, n <> name (selheap_init p)) ->
  parseSelector_dynamic h s n v New_selectors
  = (Err (NotFound ("selector `" ++ s ++ "`")), h).
Proof.
  intros Hfix Hs. unfold New_selectors. cbn [app parseSelector_dynamic].
  read_names h Hfix.
  rewrite (proj2 (String.eqb_neq _ _) (Hs all)),
          (proj2 (String.eqb_neq _ _) (Hs label)),
          (proj2 (String.eqb_neq _ _) (Hs uuid)),
          (proj2 (String.eqb_neq _ _) (Hs groupID)),
          (proj2 (String.eqb_neq _ _) (Hs group)),
          (proj2 (String.eqb_neq _ _) (Hs locationID)),
          (proj2 (String.eqb_neq _ _) (Hs location)),
          (proj2 (String.eqb_neq _ _) (Hs sceneID)).
  reflexivity.
Qed.

Lemma parseSelector_dynamic_known (h : selheap) (s v : string) (p : selptr) :
  names_fixed h ->
  parseSelector_dynamic h s (name (selheap_init p)) v New_selectors
  = (Ok p, store_value h p v).
Proof.
  intros Hfix. unfold New_selectors. cbn [app parseSelector_dynamic].
  read_names h Hfix.
  destruct p; reflexivity.
Qed.

(** C5: what [parseSelector] answers, for the selectors of the API that
    [New] builds: the empty string is the static selector [all], and so is
    its name; a string without a colon that names a dynamic selector is not
    valid, and one that names no selector is not found; [name:value] with a known name is that
    selector, carrying the value; with an unknown name it is not found; a
    string with more than one colon is not valid. *)
Theorem parseSelector_cases (a : API) (h : selheap) :
  selectors a = New_selectors ->
  names_fixed h ->
  parseSelector a "" h = (Ok all, h) /\
  parseSelector a "all" h = (Ok all, h) /\
  (forall p, isDynamic (selheap_init p) = true ->
     exists e, parseSelector a (name (selheap_init p)) h = (Err e, h)
               /\ IsNotValid e = true) /\
  (forall s, s <> "" -> Contains_colon s = false ->
     (forall p, s <> name (selheap_init p)) ->
     exists e, parseSelector a s h = (Err e, h) /\ IsNotFound e = true) /\
  (forall p v, Contains_colon v = false ->
     parseSelector a (name (selheap_init p) ++ ":" ++ v) h
     = (Ok p, store_value h p v)
     /\ name (store_value h p v p) = name (selheap_init p)
     /\ value (store_value h p v p) = v) /\
  (forall n v, Contains_colon n = false -> Contains_colon v = false ->
     (forall p, n <> name (selheap_init p)) ->
     exists e, parseSelector a (n ++ ":" ++ v) h = (Err e, h)
               /\ IsNotFound e = true) /\
  (forall s, (2 <= count_colons s)%nat ->
     exists e, parseSelector a s h = (Err e, h) /\ IsNotValid e = true).
Proof.
  intros Ha Hfix. unfold parseSelector. rewrite Ha.
  split; [reflexivity|]. split; [|split; [|split; [|split; [|split]]]].
  - cbn [String.length Nat.eqb Contains_colon Ascii.eqb Bool.eqb negb].
    unfold New_selectors. cbn [app parseSelector_static].
    read_names h Hfix. reflexivity.
  - intros p Hd.
    destruct p; try discriminate Hd;
      (eexists; split; [|shelve]);
      cbn [selheap_init name String.length Nat.eqb Contains_colon Ascii.eqb
           Bool.eqb negb];
      unfold New_selectors; cbn [app parseSelector_static];
      read_names h Hfix; cbn; reflexivity.
    Unshelve. all: reflexivity.
  - intros s Hne Hc Hs.
    apply length_zero_string in Hne. rewrite Hne, Hc. cbn [negb].
    rewrite parseSelector_static_unknown by assumption.
    eexists. split; reflexivity.
  - intros p v Hv.
    assert (Hn : Contains_colon (name (selheap_init p)) = false)
      by (destruct p; reflexivity).
    rewrite pair_nonempty, Contains_colon_pair. cbn [negb].
    rewrite (Split_colon_pair _ _ Hn Hv).
    rewrite parseSelector_dynamic_known by assumption.
    split; [reflexivity|].
    unfold store_value.
    assert (selptr_eqb p p = true) as -> by (destruct p; reflexivity).
    cbn [name value]. split; [apply Hfix|reflexivity].
  - intros n v Hn Hv Hs.
    rewrite pair_nonempty, Contains_colon_pair. cbn [negb].
    rewrite (Split_colon_pair _ _ Hn Hv).
    rewrite parseSelector_dynamic_unknown by assumption.
    eexists. split; reflexivity.
  - intros s Hc.
    assert (Hne : (String.length s =? 0)%nat = false)
      by (destruct s; [cbn in Hc; lia|reflexivity]).
    assert (Hcc : Contains_colon s = true).
    { destruct (Contains_colon s) eqn:E; [reflexivity|].
      apply Contains_colon_count in E. lia. }
    rewrite Hne, Hcc. cbn [negb].
    pose proof (Split_colon_length s) as Hl.
    destruct (Split_colon s) as [|p0 [|p1 [|p2 parts]]]; cbn in Hl; try lia.
    eexists. split; reflexivity.
Qed.

(* ----------------------------------------------------------------- *)
(** *** Resolving a selector *)

Lemma finish_matching (sel : selector) (test : Lifx -> bool) (registry : list Lifx) :
  finish sel ([] ++ filter test registry) = matching sel test registry.
Proof.
  unfold finish, matching. cbn [app].
  destruct (filter test registry); reflexivity.
Qed.

Lemma finish_not_empty (sel : selector) (devices : list Lifx) :
  finish sel devices <> Returned (Ok []).
Proof.
  unfold finish. destruct devices; cbn; discriminate.
Qed.

Ltac loop_by_field Hfix Hname :=
  match goal with
  | |- forall devices, sortBySelector_loop ?h ?registry ?sel ?rest devices = _ =>
      induction rest as [|device rest IH]; intros devices;
      cbn [sortBySelector_loop filter];
      [ rewrite app_nil_r; reflexivity
      | read_names h Hfix; rewrite Hname;
        cbn [selheap_init name String.eqb Ascii.eqb Bool.eqb] ]
  end.

Lemma loop_label (h : selheap) (registry : list Lifx) (sel : selector)
    (rest : list Lifx) :
  names_fixed h -> name sel = "label" ->
  forall devices,
    sortBySelector_loop h registry sel rest devices
    = finish sel (devices ++ filter (fun d => String.eqb (value sel) (Label d)) rest).
Proof.
  intros Hfix Hname. loop_by_field Hfix Hname.
  destruct (String.eqb (value sel) (Label device)); rewrite IH;
    [rewrite <- app_assoc|]; reflexivity.
Qed.

Lemma loop_uuid (h : selheap) (registry : list Lifx) (sel : selector)
    (rest : list Lifx) :
  names_fixed h -> name sel = "uuid" ->
  forall devices,
    sortBySelector_loop h registry sel rest devices
    = finish sel (devices ++ filter (fun d => String.eqb (value sel) (UUID d)) rest).
Proof.
  intros Hfix Hname. loop_by_field Hfix Hname.
  destruct (String.eqb (value sel) (UUID device)); rewrite IH;
    [rewrite <- app_assoc|]; reflexivity.
Qed.

Lemma loop_group (h : selheap) (registry : list Lifx) (sel : selector)
    (rest : list Lifx) :
  names_fixed h -> name sel = "group" ->
  (forall d, In d rest -> Group_ d <> None) ->
  forall devices,
    sortBySelector_loop h registry sel rest devices
    = finish sel (devices ++ filter (has_group_label (value sel)) rest).
Proof.
  intros Hfix Hname. revert rest.
  assert (G : forall rest, (forall d, In d rest -> Group_ d <> None) ->
              forall devices,
                sortBySelector_loop h registry sel rest devices
                = finish sel (devices ++ filter (has_group_label (value sel)) rest)).
  { intros rest. induction rest as [|device rest IH]; intros Hall devices;
      cbn [sortBySelector_loop filter].
    - rewrite app_nil_r. reflexivity.
    - read_names h Hfix. rewrite Hname.
      cbn [selheap_init name String.eqb Ascii.eqb Bool.eqb].
      unfold has_group_label at 1.
      destruct (Group_ device) as [g|] eqn:Eg.
      + destruct (String.eqb (value sel) (Group_Label g)); rewrite IH;
          try (intros d Hd; apply Hall; now right);
          [rewrite <- app_assoc|]; reflexivity.
      + exfalso. apply (Hall device); [now left|exact Eg]. }
  exact G.
Qed.

Lemma loop_location (h : selheap) (registry : list Lifx) (sel : selector)
    (rest : list Lifx) :
  names_fixed h -> name sel = "location" ->
  (forall d, In d rest -> Location_ d <> None) ->
  forall devices,
    sortBySelector_loop h registry sel rest devices
    = finish sel (devices ++ filter (has_location_label (value sel)) rest).
Proof.
  intros Hfix Hname. revert rest.
  assert (G : forall rest, (forall d, In d rest -> Location_ d <> None) ->
              forall devices,
                sortBySelector_loop h registry sel rest devices
                = finish sel (devices ++ filter (has_location_label (value sel)) rest)).
  { intros rest. induction rest as [|device rest IH]; intros Hall devices;
      cbn [sortBySelector_loop filter].
    - rewrite app_nil_r. reflexivity.
    - read_names h Hfix. rewrite Hname.
      cbn [selheap_init name String.eqb Ascii.eqb Bool.eqb].
      unfold has_location_label at 1.
      destruct (Location_ device) as [loc|] eqn:Eg.
      + destruct (String.eqb (value sel) (Location_Label loc)); rewrite IH;
          try (intros d Hd; apply Hall; now right);
          [rewrite <- app_assoc|]; reflexivity.
      + exfalso. apply (Hall device); [now left|exact Eg]. }
  exact G.
Qed.

(** The loop never returns an empty list of devices with no error. *)
Lemma loop_not_empty (h : selheap) (registry : list Lifx) (sel : selector)
    (rest : list Lifx) :
  registry <> [] ->
  forall devices,
    sortBySelector_loop h registry sel rest devices <> Returned (Ok []).
Proof.
  intros Hreg. induction rest as [|device rest IH]; intros devices;
    cbn [sortBySelector_loop].
  - apply finish_not_empty.
  - repeat match goal with
           | |- (if ?b then _ else _) <> _ => destruct b
           | |- match ?o with Some _ => _ | None => _ end <> _ => destruct o
           end;
      try apply IH; try discriminate.
    intros H. injection H as H. contradiction.
Qed.

(** C6, as the code has it.  For every registry that is not empty:
    resolving [all] returns the registry, in its order; resolving
    [label:v] or [uuid:v] returns exactly the devices whose label or UUID
    is [v], in the order of the registry, and the not-found error when
    there is none; resolving [group:v] or [location:v] does the same by the
    label of the group or of the location, when every device of the
    registry has one.  On the empty registry every resolution, that of
    [all] too, is the not-found error; and for every registry, empty or
    not, no resolution returns an empty list without an error. *)
Theorem sortBySelector_cases (a : API) (h : selheap) :
  names_fixed h ->
  Config_Lifx (config a) <> [] ->
  sortBySelector a h all = Returned (Ok (Config_Lifx (config a))) /\
  sortBySelector a h label
  = matching (h label) (fun d => String.eqb (value (h label)) (Label d))
             (Config_Lifx (config a)) /\
  sortBySelector a h uuid
  = matching (h uuid) (fun d => String.eqb (value (h uuid)) (UUID d))
             (Config_Lifx (config a)) /\
  ((forall d, In d (Config_Lifx (config a)) -> Group_ d <> None) ->
   sortBySelector a h group
   = matching (h group) (has_group_label (value (h group)))
              (Config_Lifx (config a))) /\
  ((forall d, In d (Config_Lifx (config a)) -> Location_ d <> None) ->
   sortBySelector a h location
   = matching (h location) (has_location_label (value (h location)))
              (Config_Lifx (config a))) /\
  (forall (a' : API) (h' : selheap) (p : selptr),
      Config_Lifx (config a') = [] ->
      sortBySelector a' h' p
      = Returned (Err (NotFound ("devices corresponding to selector "
                                 ++ selector_String (h' p))))) /\
  (forall (a' : API) (h' : selheap) (p : selptr),
      sortBySelector a' h' p <> Returned (Ok [])).
Proof.
  intros Hfix Hreg. unfold sortBySelector.
  split; [|split; [|split; [|split; [|split; [|split]]]]].
  - destruct (Config_Lifx (config a)) as [|d ds]; [contradiction|].
    cbn [sortBySelector_loop]. rewrite String.eqb_refl. reflexivity.
  - rewrite loop_label; [apply finish_matching|exact Hfix|apply Hfix].
  - rewrite loop_uuid; [apply finish_matching|exact Hfix|apply Hfix].
  - intros Hg.
    rewrite loop_group; [apply finish_matching|exact Hfix|apply Hfix|exact Hg].
  - intros Hl.
    rewrite loop_location; [apply finish_matching|exact Hfix|apply Hfix|exact Hl].
  - intros a' h' p E. rewrite E. reflexivity.
  - intros a' h' p.
    destruct (Config_Lifx (config a')) as [|d ds] eqn:E.
    + cbn. discriminate.
    + apply loop_not_empty. discriminate.
Qed.

(** The selectors by identifier are recognised and not implemented. *)
Lemma sortBySelector_not_implemented (a : API) (h : selheap) (p : selptr) :
  names_fixed h ->
  Config_Lifx (config a) <> [] ->
  p = groupID \/ p = locationID \/ p = sceneID ->
  exists e, sortBySelector a h p = Returned (Err e) /\ IsNotImplemented e = true.
Proof.
  intros Hfix Hreg Hp. unfold sortBySelector.
  destruct (Config_Lifx (config a)) as [|d ds]; [contradiction|].
  cbn [sortBySelector_loop].
  destruct Hp as [-> | [-> | ->]]; read_names h Hfix;
    cbn [selheap_init name String.eqb Ascii.eqb Bool.eqb];
    eexists; split; reflexivity.
Qed.

(* ================================================================= *)
(** ** More properties of the packages *)

(* ----------------------------------------------------------------- *)
(** *** Integers in bytes *)

Lemma Z_of_byte_bounds (b : byte) : 0 <= Z_of_byte b < 256.
Proof.
  unfold Z_of_byte. pose proof (Byte.to_N_bounded b). lia.
Qed.

Lemma byte_of_Z_small (b : byte) : byte_of_Z (Z_of_byte b) = b.
Proof.
  unfold byte_of_Z. pose proof (Z_of_byte_bounds b) as Hb.
  rewrite Z.mod_small by lia. unfold Z_of_byte.
  rewrite N2Z.id, Byte.of_to_N. reflexivity.
Qed.

(** A value below [2 ^ n] put under a value shifted by [n]. *)
Lemma lor_shiftl_add (a b n : Z) :
  0 <= n -> 0 <= a < 2 ^ n -> Z.lor a (Z.shiftl b n) = a + b * 2 ^ n.
Proof.
  intros Hn Ha.
  assert (Hland : Z.land a (Z.shiftl b n) = 0).
  { apply Z.bits_inj'. intros k Hk.
    rewrite Z.land_spec, Z.bits_0, Z.shiftl_spec by lia.
    destruct (Z.lt_ge_cases k n) as [Hlt|Hge].
    - rewrite (Z.testbit_neg_r b (k - n)) by lia. apply andb_false_r.
    - destruct (Z.eq_dec a 0) as [->|Hne]; [rewrite Z.bits_0; reflexivity|].
      rewrite (Z.bits_above_log2 a k); [reflexivity|lia|].
      apply Z.log2_lt_pow2; [lia|].
      eapply Z.lt_le_trans; [apply Ha|]. apply Z.pow_le_mono_r; lia. }
  rewrite <- Z.lxor_lor by exact Hland.
  rewrite <- Z.add_nocarry_lxor by exact Hland.
  rewrite Z.shiftl_mul_pow2 by lia. reflexivity.
Qed.

Lemma Uint16_value (b0 b1 : byte) (rest : list byte) :
  LittleEndian_Uint16 (b0 :: b1 :: rest)
  = Returned (Z_of_byte b0 + 256 * Z_of_byte b1).
Proof.
  cbn [LittleEndian_Uint16]. f_equal.
  rewrite lor_shiftl_add; [lia|lia|]. apply (Z_of_byte_bounds b0).
Qed.

Lemma Uint16_range (b : list byte) (v : Z) :
  LittleEndian_Uint16 b = Returned v -> 0 <= v < 65536.
Proof.
  destruct b as [|b0 [|b1 rest]]; try discriminate.
  rewrite Uint16_value. intros H.
  assert (Hv : v = Z_of_byte b0 + 256 * Z_of_byte b1) by congruence.
  pose proof (Z_of_byte_bounds b0). pose proof (Z_of_byte_bounds b1). lia.
Qed.

Lemma Uint32_value (b0 b1 b2 b3 : byte) (rest : list byte) :
  LittleEndian_Uint32 (b0 :: b1 :: b2 :: b3 :: rest)
  = Returned (Z_of_byte b0 + 256 * Z_of_byte b1 + 65536 * Z_of_byte b2
              + 16777216 * Z_of_byte b3).
Proof.
  cbn [LittleEndian_Uint32]. f_equal.
  pose proof (Z_of_byte_bounds b0). pose proof (Z_of_byte_bounds b1).
  pose proof (Z_of_byte_bounds b2). pose proof (Z_of_byte_bounds b3).
  rewrite (@lor_shiftl_add (Z_of_byte b0) (Z_of_byte b1) 8) by lia.
  rewrite (@lor_shiftl_add _ (Z_of_byte b2) 16) by lia.
  rewrite (@lor_shiftl_add _ (Z_of_byte b3) 24) by lia.
  lia.
Qed.

Lemma Uint16_PutUint16_small (v : Z) :
  0 <= v < 65536 -> LittleEndian_Uint16 (PutUint16 v) = Returned v.
Proof.
  intros H. rewrite Uint16_PutUint16. unfold uint16.
  rewrite Z.mod_small by lia. reflexivity.
Qed.

Lemma Uint32_PutUint32 (v : Z) :
  0 <= v < 4294967296 -> LittleEndian_Uint32 (PutUint32 v) = Returned v.
Proof.
  intros H. unfold PutUint32. rewrite Uint32_value, !Z_of_byte_of_Z.
  f_equal. rewrite !Z.shiftr_div_pow2 by lia.
  change (2 ^ 8) with 256. change (2 ^ 16) with 65536.
  change (2 ^ 24) with 16777216.
  assert (H3 : (v / 16777216) mod 256 = v / 16777216).
  { apply Z.mod_small. split; [apply Z.div_pos; lia|].
    apply Z.div_lt_upper_bound; lia. }
  rewrite H3.
  pose proof (Z.div_mod v 256 ltac:(lia)) as E0.
  pose proof (Z.div_mod (v / 256) 256 ltac:(lia)) as E1.
  pose proof (Z.div_mod (v / 65536) 256 ltac:(lia)) as E2.
  replace (v / 256 / 256) with (v / 65536) in E1
    by (rewrite Z.div_div by lia; reflexivity).
  replace (v / 65536 / 256) with (v / 16777216) in E2
    by (rewrite Z.div_div by lia; reflexivity).
  lia.
Qed.

(* ----------------------------------------------------------------- *)
(** *** Encoding *)

Ltac length2 l := destruct l as [|? [|? [|]]]; try discriminate.
Ltac length4 l := destruct l as [|? [|? [|? [|? [|]]]]]; try discriminate.
Ltac length8 l :=
  destruct l as [|? [|? [|? [|? [|? [|? [|? [|? [|]]]]]]]]]; try discriminate.

(** X1: the bytes of a header are 34, and they determine the header: two
    headers with the same bytes have the same frame, source, target, flags,
    sequence and message type. *)
Theorem Header_EncodeToBytes_injective (h1 h2 : Header) :
  wf_Header h1 -> wf_Header h2 ->
  List.length (Header_EncodeToBytes h1) = 34%nat /\
  (Header_EncodeToBytes h1 = Header_EncodeToBytes h2 -> h1 = h2).
Proof.
  intros (Hf1 & Hs1 & Ht1 & Hm1) (Hf2 & Hs2 & Ht2 & Hm2).
  destruct h1 as [f1 s1 t1 a1 r1 q1 m1], h2 as [f2 s2 t2 a2 r2 q2 m2].
  cbn [frame source target messageType] in *.
  length2 f1. length4 s1. length8 t1. length2 m1.
  length2 f2. length4 s2. length8 t2. length2 m2.
  unfold Header_EncodeToBytes, encodeAckResToByte.
  cbn [frame source target messageType sequence ackRequired resRequired
       app zeros repeat firstn].
  split; [reflexivity|].
  intros H. injection H as -> -> -> -> -> -> -> -> -> -> -> -> -> -> Hc -> -> ->.
  destruct a1, r1, a2, r2; cbn in Hc; try discriminate Hc; reflexivity.
Qed.

Lemma Header_EncodeToBytes_length (h : Header) :
  wf_Header h -> List.length (Header_EncodeToBytes h) = 34%nat.
Proof.
  intros (Hf & Hs & Ht & Hm).
  unfold Header_EncodeToBytes. cbn zeta.
  rewrite firstn_all2; rewrite !length_app, Hf, Hs, Ht, Hm; cbn; lia.
Qed.

(** X2: the buffer of a message is its size field, the 34 bytes of its
    header and its payload, in this order, 36 + L bytes for a payload of L
    bytes; when L is at most 65499 the size it declares is its length. *)
Theorem EncodeToBytes_layout (m : Message) :
  wf_Header (Header_ m) ->
  fst (EncodeToBytes m)
  = PutUint16 (snd (updateSize m)) ++ Header_EncodeToBytes (Header_ m) ++ payload m
  /\ List.length (fst (EncodeToBytes m)) = (36 + List.length (payload m))%nat
  /\ skipn 36 (fst (EncodeToBytes m)) = payload m
  /\ (Z.of_nat (List.length (payload m)) <= 65499 ->
      LittleEndian_Uint16 (fst (EncodeToBytes m))
      = Returned (Z.of_nat (List.length (fst (EncodeToBytes m))))).
Proof.
  intros Hwf. pose proof (@Header_EncodeToBytes_length (Header_ m) Hwf) as Hh.
  assert (E : fst (EncodeToBytes m)
              = PutUint16 (snd (updateSize m))
                ++ Header_EncodeToBytes (Header_ m) ++ payload m).
  { unfold EncodeToBytes, updateSize.
    cbn [fst snd Size Header_ payload PutUint16 nth app].
    reflexivity. }
  assert (L : List.length (fst (EncodeToBytes m))
              = (36 + List.length (payload m))%nat).
  { rewrite E, !length_app, Hh. cbn [PutUint16 List.length]. lia. }
  split; [exact E|]. split; [exact L|]. split.
  - rewrite E. unfold PutUint16. cbn [app].
    match goal with
    | |- skipn 36 (?x :: ?y :: ?l) = _ => change (skipn 34 l = payload m)
    end.
    rewrite skipn_app, Hh, Nat.sub_diag.
    rewrite skipn_all2 by lia. reflexivity.
  - intros Hl. rewrite L, E. unfold PutUint16 at 1. cbn [app].
    rewrite Uint16_value, !Z_of_byte_of_Z, updateSize_value.
    f_equal.
    rewrite Z.shiftr_div_pow2 by lia. change (2 ^ 8) with 256.
    rewrite (Z.mod_small (36 + _) 65536) by lia.
    rewrite (Z.mod_small (_ / 256) 256)
      by (split; [apply Z.div_pos; lia|apply Z.div_lt_upper_bound; lia]).
    pose proof (Z.div_mod (36 + Z.of_nat (List.length (payload m))) 256
                  ltac:(lia)).
    lia.
Qed.

Lemma PutUint16_value (v : Z) :
  0 <= v < 65536 ->
  Z_of_byte (byte_of_Z v) + 256 * Z_of_byte (byte_of_Z (Z.shiftr v 8)) = v.
Proof.
  intros H. pose proof (@Uint16_PutUint16_small v H) as E.
  unfold PutUint16 in E. rewrite Uint16_value in E. congruence.
Qed.

(** What [DecodeToHSBK] reads in eight bytes. *)
Lemma DecodeToHSBK_eight (b0 b1 b2 b3 b4 b5 b6 b7 : byte) (extra : list byte) :
  DecodeToHSBK (mkSlice [b0; b1; b2; b3; b4; b5; b6; b7] extra)
  = Returned (Ok (mkHSBK (Z_of_byte b0 + 256 * Z_of_byte b1)
                         (Z_of_byte b2 + 256 * Z_of_byte b3)
                         (Z_of_byte b4 + 256 * Z_of_byte b5)
                         (Z_of_byte b6 + 256 * Z_of_byte b7))).
Proof.
  unfold DecodeToHSBK.
  change (len (mkSlice [b0; b1; b2; b3; b4; b5; b6; b7] extra)) with 8.
  cbn [Z.eqb Pos.eqb negb].
  assert (Hcap : 8 <= cap (mkSlice [b0; b1; b2; b3; b4; b5; b6; b7] extra))
    by (unfold cap; cbn [elems spare List.length]; lia).
  rewrite !reslice_in_range by lia.
  cbn [obind elems spare app].
  change (Z.to_nat (2 - 0)) with 2%nat. change (Z.to_nat (4 - 2)) with 2%nat.
  change (Z.to_nat (6 - 4)) with 2%nat. change (Z.to_nat (8 - 6)) with 2%nat.
  change (Z.to_nat 0) with 0%nat. change (Z.to_nat 2) with 2%nat.
  change (Z.to_nat 4) with 4%nat. change (Z.to_nat 6) with 6%nat.
  cbn [skipn firstn].
  rewrite !Uint16_value. reflexivity.
Qed.

(** X3: a color whose four fields are 16-bit values comes back from its
    eight bytes. *)
Theorem DecodeToHSBK_encodeHSBKToBytes (c : HSBK) :
  0 <= Hue c < 65536 -> 0 <= Saturation c < 65536 ->
  0 <= Brightness c < 65536 -> 0 <= Kelvin c < 65536 ->
  DecodeToHSBK (slice_of (encodeHSBKToBytes c)) = Returned (Ok c).
Proof.
  intros Hh Hs Hb Hk. destruct c as [hu sa br ke].
  cbn [Hue Saturation Brightness Kelvin] in *.
  cbv [encodeHSBKToBytes slice_of PutUint16 app Hue Saturation Brightness Kelvin].
  rewrite DecodeToHSBK_eight, !PutUint16_value by assumption. reflexivity.
Qed.

(* ----------------------------------------------------------------- *)
(** *** Decoding *)

Lemma reslice_len (s : slice) (lo hi : Z) (s' : slice) :
  reslice s lo hi = Returned s' -> len s' = hi - lo.
Proof.
  intros H. pose proof (reslice_Returned _ _ _ H) as (H0 & H1 & H2).
  rewrite reslice_in_range in H by assumption.
  injection H as <-. unfold len, cap in *. cbn [elems].
  rewrite length_firstn, length_skipn, length_app. lia.
Qed.

(** The part of a buffer between two of its offsets. *)
Lemma reslice_middle (pre mid post extra : list byte) (lo hi : Z) :
  lo = Z.of_nat (List.length pre) ->
  hi = lo + Z.of_nat (List.length mid) ->
  reslice (mkSlice (pre ++ mid ++ post) extra) lo hi
  = Returned (mkSlice mid (post ++ extra)).
Proof.
  intros -> ->. rewrite reslice_in_range;
    [|lia|lia|unfold cap; cbn [elems spare]; rewrite !length_app; lia].
  cbn [elems spare]. f_equal.
  replace (Z.of_nat (List.length pre) + Z.of_nat (List.length mid)
           - Z.of_nat (List.length pre)) with (Z.of_nat (List.length mid)) by lia.
  rewrite <- Nat2Z.inj_add, !Nat2Z.id.
  rewrite <- !app_assoc.
  f_equal.
  - rewrite skipn_app, skipn_all, Nat.sub_diag. cbn [skipn app].
    rewrite firstn_app, firstn_all, Nat.sub_diag. cbn [firstn].
    apply app_nil_r.
  - rewrite (app_assoc pre mid), skipn_app, skipn_all2
      by (rewrite length_app; lia).
    rewrite length_app, Nat.sub_diag. reflexivity.
Qed.

Lemma elems_of_len_2 (s : slice) :
  len s = 2 -> exists b0 b1, elems s = [b0; b1].
Proof.
  unfold len. destruct (elems s) as [|b0 [|b1 [|]]]; cbn [List.length]; try lia.
  intros _. now exists b0, b1.
Qed.

Lemma elems_of_len_8 (s : slice) :
  len s = 8 -> exists b0 b1 b2 b3 b4 b5 b6 b7,
    elems s = [b0; b1; b2; b3; b4; b5; b6; b7].
Proof.
  unfold len.
  destruct (elems s) as [|b0 [|b1 [|b2 [|b3 [|b4 [|b5 [|b6 [|b7 [|]]]]]]]]];
    cbn [List.length]; try lia.
  intros _. now exists b0, b1, b2, b3, b4, b5, b6, b7.
Qed.

Lemma DecodeToHSBK_len_8 (s : slice) :
  len s = 8 -> exists c, DecodeToHSBK s = Returned (Ok c) /\ uint16_fields c.
Proof.
  intros H. destruct (@elems_of_len_8 s H) as (b0 & b1 & b2 & b3 & b4 & b5 & b6 & b7 & E).
  destruct s as [el sp]. cbn [elems] in E. subst el.
  rewrite DecodeToHSBK_eight. eexists. split; [reflexivity|].
  pose proof (Z_of_byte_bounds b0). pose proof (Z_of_byte_bounds b1).
  pose proof (Z_of_byte_bounds b2). pose proof (Z_of_byte_bounds b3).
  pose proof (Z_of_byte_bounds b4). pose proof (Z_of_byte_bounds b5).
  pose proof (Z_of_byte_bounds b6). pose proof (Z_of_byte_bounds b7).
  unfold uint16_fields. cbn [Hue Saturation Brightness Kelvin]. lia.
Qed.

(** X4: [DecodeToHSBK] never panics.  It returns the not-valid error on
    every buffer whose length is not 8, and on a buffer of 8 bytes a color
    whose four fields are 16-bit values. *)
Theorem DecodeToHSBK_outcome (bytes : slice) :
  match DecodeToHSBK bytes with
  | Panicked => False
  | Returned (Err e) => len bytes <> 8 /\ IsNotValid e = true
  | Returned (Ok c) => len bytes = 8 /\ uint16_fields c
  end.
Proof.
  destruct (Z.eq_dec (len bytes) 8) as [H|H].
  - destruct (@DecodeToHSBK_len_8 bytes H) as (c & -> & Hc). split; assumption.
  - unfold DecodeToHSBK. apply Z.eqb_neq in H. rewrite H. cbn [negb].
    apply Z.eqb_neq in H. split; [exact H|reflexivity].
Qed.

(** X5: the payload of a color-set message has 13 bytes: a zero byte, the
    color, and the duration in four bytes, little-endian.  A color of 16-bit
    fields and a duration below 2^32 are read back from it; the header asks
    for a response, not for an acknowledgement, with the sequence 0x10 and
    the type 102. *)
Theorem SetColorMessage_payload (c : HSBK) (duration : Z) :
  uint16_fields c -> 0 <= duration < 4294967296 ->
  List.length (payload (SetColorMessage c duration)) = 13%nat
  /\ firstn 1 (payload (SetColorMessage c duration)) = [x00]
  /\ DecodeToHSBK (slice_of (firstn 8 (skipn 1 (payload (SetColorMessage c duration)))))
     = Returned (Ok c)
  /\ LittleEndian_Uint32 (skipn 9 (payload (SetColorMessage c duration)))
     = Returned duration
  /\ (ackRequired (Header_ (SetColorMessage c duration)),
      resRequired (Header_ (SetColorMessage c duration)),
      sequence (Header_ (SetColorMessage c duration)),
      messageType (Header_ (SetColorMessage c duration)))
     = (false, true, x10, PutUint16 102).
Proof.
  intros (Hh & Hs & Hb & Hk) Hd. destruct c as [hu sa br ke].
  cbn [Hue Saturation Brightness Kelvin] in *.
  cbv [SetColorMessage payload SetPayload withHeader NewMessage
       encodeHSBKToBytes encodeDurationToBytes PutUint16 PutUint32 app
       Hue Saturation Brightness Kelvin].
  cbn [List.length firstn skipn].
  split; [reflexivity|]. split; [reflexivity|]. split; [|split].
  - unfold slice_of. rewrite DecodeToHSBK_eight, !PutUint16_value by assumption.
    reflexivity.
  - apply (@Uint32_PutUint32 duration Hd).
  - reflexivity.
Qed.

Lemma reslice_at (L pre mid post : list byte) (lo hi : Z) :
  L = pre ++ mid ++ post ->
  lo = Z.of_nat (List.length pre) ->
  hi = lo + Z.of_nat (List.length mid) ->
  reslice (slice_of L) lo hi = Returned (mkSlice mid (post ++ [])).
Proof.
  intros -> Hlo Hhi. unfold slice_of. apply reslice_middle; assumption.
Qed.

(** In range, a slice between two offsets of the buffer is returned. *)
Lemma reslice_within (s : slice) (lo hi : Z) :
  0 <= lo -> lo <= hi -> hi <= len s ->
  exists s', reslice s lo hi = Returned s' /\ len s' = hi - lo.
Proof.
  intros H0 H1 H2. pose proof (len_le_cap s).
  destruct (reslice s lo hi) as [|s'] eqn:E.
  - apply reslice_Panicked in E. lia.
  - exists s'. split; [reflexivity|]. apply (reslice_len _ _ _ E).
Qed.

Lemma Z_of_byte_xff (b : byte) : Z_of_byte b = 255 <-> b = xff.
Proof.
  split; [|intros ->; reflexivity].
  intros H. rewrite <- (byte_of_Z_small b), H. reflexivity.
Qed.

(** The power level is 65535 when both of its bytes are 0xff. *)
Lemma power_level (p0 p1 : byte) :
  (Z.lor (Z_of_byte p1) (Z.shiftl (Z_of_byte p0) 8) =? 65535)
  = Byte.eqb p0 xff && Byte.eqb p1 xff.
Proof.
  pose proof (Z_of_byte_bounds p0). pose proof (Z_of_byte_bounds p1).
  rewrite lor_shiftl_add by lia. change (2 ^ 8) with 256.
  destruct (Byte.eqb p0 xff) eqn:E0; destruct (Byte.eqb p1 xff) eqn:E1; cbn [andb].
  - apply Byte.byte_dec_bl in E0. apply Byte.byte_dec_bl in E1. subst. reflexivity.
  - apply Z.eqb_neq. intros Hs. apply Byte.eqb_false in E1.
    apply E1, Z_of_byte_xff. lia.
  - apply Z.eqb_neq. intros Hs. apply Byte.eqb_false in E0.
    apply E0, Z_of_byte_xff. lia.
  - apply Z.eqb_neq. intros Hs. apply Byte.eqb_false in E0.
    apply E0, Z_of_byte_xff. lia.
Qed.

(** X6: [DecodeToState] returns exactly on the buffers of at least 52
    bytes and panics on the others; it never returns an error.  The state
    it returns has a color, of 16-bit fields, and the power on or off. *)
Theorem DecodeToState_outcome (bytes : slice) :
  match DecodeToState bytes with
  | Panicked => len bytes < 52
  | Returned (Err _) => False
  | Returned (Ok state) =>
      52 <= len bytes
      /\ (exists c, State_HSBK state = Some c /\ uint16_fields c)
      /\ (State_Power state = PowerOn \/ State_Power state = PowerOff)
  end.
Proof.
  destruct (Z.lt_ge_cases (len bytes) 52) as [H|H].
  - unfold DecodeToState. rewrite reslice_negative by lia. exact H.
  - unfold DecodeToState, obind.
    destruct (@reslice_within bytes (len bytes - 52) (len bytes - 44))
      as (s1 & -> & L1); try lia.
    destruct (@DecodeToHSBK_len_8 s1) as (c & -> & Hc); [lia|].
    destruct (@reslice_within bytes (len bytes - 40) (len bytes - 8))
      as (s2 & -> & L2); try lia.
    destruct (@reslice_within bytes (len bytes - 42) (len bytes - 40))
      as (s3 & -> & L3); try lia.
    destruct (@elems_of_len_2 s3) as (p0 & p1 & ->); [lia|].
    cbn [BigEndian_Uint16 State_HSBK State_Power].
    split; [exact H|]. split; [exists c; split; [reflexivity|exact Hc]|].
    destruct (_ =? 65535); [now left|now right].
Qed.

(** X7: what [DecodeToState] reads, counted from the end of the buffer:
    the color in the eight bytes that start 52 bytes before the end, the
    power in the two bytes that start 42 before it, on when both are 0xff,
    and the label in the 32 bytes that start 40 before it.  What comes
    before these bytes, and the two bytes between color and power, are not
    read; a color of 16-bit fields comes back from its encoding. *)
Theorem DecodeToState_layout (pre reserved label' tail : list byte)
    (c : HSBK) (p0 p1 : byte) :
  uint16_fields c ->
  List.length reserved = 2%nat ->
  List.length label' = 32%nat ->
  List.length tail = 8%nat ->
  DecodeToState
    (slice_of (pre ++ encodeHSBKToBytes c ++ reserved ++ [p0; p1]
                   ++ label' ++ tail))
  = Returned (Ok (mkState (Some c)
                    (if Byte.eqb p0 xff && Byte.eqb p1 xff
                     then PowerOn else PowerOff)
                    (DecodeToString label'))).
Proof.
  intros (Hh & Hs & Hb & Hk) Hr Hl Ht.
  set (L := pre ++ encodeHSBKToBytes c ++ reserved ++ [p0; p1] ++ label' ++ tail).
  assert (He : List.length (encodeHSBKToBytes c) = 8%nat) by reflexivity.
  assert (Hlen : len (slice_of L) = Z.of_nat (List.length pre) + 52).
  { unfold len, slice_of, L. cbn [elems].
    rewrite !length_app, He, Hr, Hl, Ht. cbn [List.length]. lia. }
  unfold DecodeToState, obind. rewrite Hlen.
  rewrite (@reslice_at L pre (encodeHSBKToBytes c)
             (reserved ++ [p0; p1] ++ label' ++ tail) _ _ eq_refl)
    by (rewrite ?He; lia).
  destruct c as [hu sa br ke]. cbn [Hue Saturation Brightness Kelvin] in *.
  cbv [encodeHSBKToBytes PutUint16 app Hue Saturation Brightness Kelvin] in L |- * .
  rewrite DecodeToHSBK_eight, !PutUint16_value by assumption.
  rewrite (@reslice_at L (pre ++ encodeHSBKToBytes (mkHSBK hu sa br ke)
                              ++ reserved ++ [p0; p1]) label' tail _ _)
    by (try (unfold L; rewrite <- !app_assoc; reflexivity);
        rewrite ?length_app, ?He, ?Hr, ?Hl; cbn [List.length]; lia).
  rewrite (@reslice_at L (pre ++ encodeHSBKToBytes (mkHSBK hu sa br ke)
                              ++ reserved) [p0; p1] (label' ++ tail) _ _)
    by (try (unfold L; rewrite <- !app_assoc; reflexivity);
        rewrite ?length_app, ?He, ?Hr, ?Hl; cbn [List.length]; lia).
  cbn [elems BigEndian_Uint16]. rewrite power_level.
  reflexivity.
Qed.

Lemma copy_full (dst src : list byte) :
  List.length src = List.length dst -> copy dst src = src.
Proof.
  intros H. unfold copy. rewrite <- H, firstn_all.
  rewrite skipn_all2 by lia. apply app_nil_r.
Qed.

Lemma copy_length (dst src : list byte) :
  List.length (copy dst src) = List.length dst.
Proof.
  unfold copy. rewrite length_app, length_firstn, length_skipn. lia.
Qed.

(** X8: [DecodeToGroup] and [DecodeToLocation] read alike: the identifier
    in the 16 bytes that start 56 bytes before the end of the buffer, the
    label in the 32 bytes after them.  Both return exactly on the buffers
    of at least 56 bytes, panic on the others and never return an error; the
    identifier they return has 16 bytes. *)
Theorem DecodeToGroup_DecodeToLocation_layout :
  (forall pre id label' tail,
      List.length id = 16%nat -> List.length label' = 32%nat ->
      List.length tail = 8%nat ->
      DecodeToGroup (slice_of (pre ++ id ++ label' ++ tail))
      = Returned (Ok (mkGroup id (DecodeToString label')))
      /\ DecodeToLocation (slice_of (pre ++ id ++ label' ++ tail))
         = Returned (Ok (mkLocation id (DecodeToString label')))) /\
  (forall bytes,
      match DecodeToGroup bytes with
      | Panicked => len bytes < 56
      | Returned (Err _) => False
      | Returned (Ok g) => 56 <= len bytes /\ List.length (Group_ID g) = 16%nat
      end
      /\ match DecodeToLocation bytes with
         | Panicked => len bytes < 56
         | Returned (Err _) => False
         | Returned (Ok loc) =>
             56 <= len bytes /\ List.length (Location_ID loc) = 16%nat
         end).
Proof.
  split.
  - intros pre id label' tail Hi Hl Ht.
    set (L := pre ++ id ++ label' ++ tail).
    assert (Hlen : len (slice_of L) = Z.of_nat (List.length pre) + 56).
    { unfold len, slice_of, L. cbn [elems].
      rewrite !length_app, Hi, Hl, Ht. lia. }
    unfold DecodeToGroup, DecodeToLocation, obind. rewrite Hlen.
    rewrite (@reslice_at L pre id (label' ++ tail) _ _ eq_refl)
      by (rewrite ?Hi; lia).
    rewrite (@reslice_at L (pre ++ id) label' tail _ _)
      by (try (unfold L; rewrite <- !app_assoc; reflexivity);
          rewrite ?length_app, ?Hi, ?Hl; lia).
    cbn [elems app]. rewrite copy_full by (rewrite Hi; reflexivity).
    split; reflexivity.
  - intros bytes.
    destruct (Z.lt_ge_cases (len bytes) 56) as [H|H].
    + unfold DecodeToGroup, DecodeToLocation.
      rewrite reslice_negative by lia. split; exact H.
    + unfold DecodeToGroup, DecodeToLocation, obind.
      destruct (@reslice_within bytes (len bytes - 56) (len bytes - 40))
        as (s1 & -> & L1); try lia.
      destruct (@reslice_within bytes (len bytes - 40) (len bytes - 8))
        as (s2 & -> & L2); try lia.
      cbn [Group_ID Location_ID]. rewrite copy_length.
      repeat split; assumption.
Qed.

(** X9: [DecodeToInfo] keeps 16 bits of each of the three 8-byte fields at
    the end of the buffer: the time, the up time and the down time it
    returns are the first two bytes of each field, little-endian, whatever
    the other six bytes are.  It returns exactly on the buffers of at least
    24 bytes. *)
Theorem DecodeToInfo_low_16_bits :
  (forall pre t0 t1 t u0 u1 u d0 d1 d,
      List.length t = 6%nat -> List.length u = 6%nat -> List.length d = 6%nat ->
      DecodeToInfo (slice_of (pre ++ (t0 :: t1 :: t) ++ (u0 :: u1 :: u)
                                  ++ (d0 :: d1 :: d)))
      = Returned (Ok (mkInfo (Z_of_byte t0 + 256 * Z_of_byte t1)
                             (Z_of_byte u0 + 256 * Z_of_byte u1)
                             (Z_of_byte d0 + 256 * Z_of_byte d1)))) /\
  (forall bytes,
      match DecodeToInfo bytes with
      | Panicked => len bytes < 24
      | Returned (Err _) => False
      | Returned (Ok info) =>
          24 <= len bytes /\ 0 <= Info_Time info < 65536
          /\ 0 <= Info_UpTime info < 65536 /\ 0 <= Info_DownTime info < 65536
      end).
Proof.
  split.
  - intros pre t0 t1 t u0 u1 u d0 d1 d Ht Hu Hd.
    set (T := t0 :: t1 :: t). set (U := u0 :: u1 :: u). set (D := d0 :: d1 :: d).
    assert (HT : List.length T = 8%nat) by (unfold T; cbn [List.length]; lia).
    assert (HU : List.length U = 8%nat) by (unfold U; cbn [List.length]; lia).
    assert (HD : List.length D = 8%nat) by (unfold D; cbn [List.length]; lia).
    set (L := pre ++ T ++ U ++ D).
    assert (Hlen : len (slice_of L) = Z.of_nat (List.length pre) + 24).
    { unfold len, slice_of, L. cbn [elems]. rewrite !length_app, HT, HU, HD. lia. }
    unfold DecodeToInfo, obind. rewrite Hlen.
    rewrite (@reslice_at L pre T (U ++ D) _ _ eq_refl) by (rewrite ?HT; lia).
    rewrite (@reslice_at L (pre ++ T) U D _ _)
      by (try (unfold L; rewrite <- !app_assoc; reflexivity);
          rewrite ?length_app, ?HT, ?HU; lia).
    rewrite (@reslice_at L (pre ++ T ++ U) D [] _ _)
      by (try (unfold L; rewrite <- !app_assoc, ?app_nil_r; reflexivity);
          rewrite ?length_app, ?HT, ?HU, ?HD; lia).
    cbn [elems]. unfold T, U, D. rewrite !Uint16_value. reflexivity.
  - intros bytes.
    destruct (Z.lt_ge_cases (len bytes) 24) as [H|H].
    + unfold DecodeToInfo. rewrite reslice_negative by lia. exact H.
    + unfold DecodeToInfo, obind.
      destruct (@reslice_within bytes (len bytes - 24) (len bytes - 16))
        as (s1 & -> & L1); try lia.
      destruct (@elems_of_len_8 s1) as (a0 & a1 & ? & ? & ? & ? & ? & ? & ->); [lia|].
      destruct (@reslice_within bytes (len bytes - 16) (len bytes - 8))
        as (s2 & -> & L2); try lia.
      destruct (@elems_of_len_8 s2) as (b0 & b1 & ? & ? & ? & ? & ? & ? & ->); [lia|].
      destruct (@reslice_within bytes (len bytes - 8) (len bytes))
        as (s3 & -> & L3); try lia.
      destruct (@elems_of_len_8 s3) as (c0 & c1 & ? & ? & ? & ? & ? & ? & ->); [lia|].
      rewrite !Uint16_value. cbn [Info_Time Info_UpTime Info_DownTime].
      pose proof (Z_of_byte_bounds a0). pose proof (Z_of_byte_bounds a1).
      pose proof (Z_of_byte_bounds b0). pose proof (Z_of_byte_bounds b1).
      pose proof (Z_of_byte_bounds c0). pose proof (Z_of_byte_bounds c1).
      lia.
Qed.

(** X10: [DecodeToProduct] looks up in the table the product identifier
    that the four bytes starting 8 bytes before the end of the buffer hold,
    little-endian.  An identifier that the table does not have gives no
    product and no error.  It returns exactly on the buffers of at least 8
    bytes. *)
Theorem DecodeToProduct_lookup :
  (forall pre i0 i1 i2 i3 tail,
      List.length tail = 4%nat ->
      DecodeToProduct (slice_of (pre ++ [i0; i1; i2; i3] ++ tail))
      = Returned (Ok (productsList
                        (Z_of_byte i0 + 256 * Z_of_byte i1
                         + 65536 * Z_of_byte i2 + 16777216 * Z_of_byte i3)))) /\
  (forall bytes,
      match DecodeToProduct bytes with
      | Panicked => len bytes < 8
      | Returned (Err _) => False
      | Returned (Ok product) =>
          8 <= len bytes
          /\ exists id, 0 <= id < 4294967296 /\ product = productsList id
      end).
Proof.
  split.
  - intros pre i0 i1 i2 i3 tail Ht.
    set (L := pre ++ [i0; i1; i2; i3] ++ tail).
    assert (Hlen : len (slice_of L) = Z.of_nat (List.length pre) + 8).
    { unfold len, slice_of, L. cbn [elems].
      rewrite !length_app, Ht. cbn [List.length]. lia. }
    unfold DecodeToProduct, obind. rewrite Hlen.
    rewrite (@reslice_at L pre [i0; i1; i2; i3] tail _ _ eq_refl)
      by (cbn [List.length]; lia).
    cbn [elems]. rewrite Uint32_value. reflexivity.
  - intros bytes.
    destruct (Z.lt_ge_cases (len bytes) 8) as [H|H].
    + unfold DecodeToProduct. rewrite reslice_negative by lia. exact H.
    + unfold DecodeToProduct, obind.
      destruct (@reslice_within bytes (len bytes - 8) (len bytes - 4))
        as (s1 & -> & L1); try lia.
      assert (E : exists i0 i1 i2 i3, elems s1 = [i0; i1; i2; i3]).
      { unfold len in L1.
        destruct (elems s1) as [|i0 [|i1 [|i2 [|i3 [|]]]]];
          cbn [List.length] in L1; try lia.
        now exists i0, i1, i2, i3. }
      destruct E as (i0 & i1 & i2 & i3 & ->). rewrite Uint32_value.
      split; [exact H|]. eexists. split; [|reflexivity].
      pose proof (Z_of_byte_bounds i0). pose proof (Z_of_byte_bounds i1).
      pose proof (Z_of_byte_bounds i2). pose proof (Z_of_byte_bounds i3).
      lia.
Qed.

(* ----------------------------------------------------------------- *)
(** *** Labels *)

Lemma trim_left_nonzero (b : byte) (l : list byte) :
  b <> x00 -> trim_left (b :: l) = b :: l.
Proof.
  intros H. destruct b; try reflexivity. contradiction.
Qed.

Lemma trim_left_zeros (n : nat) (l : list byte) :
  trim_left (zeros n ++ l) = trim_left l.
Proof.
  induction n as [|n IH]; [reflexivity|exact IH].
Qed.

Lemma trim_left_hd (l : list byte) :
  hd x01 l <> x00 -> trim_left l = l.
Proof.
  destruct l as [|b l]; [reflexivity|]. cbn [hd]. apply trim_left_nonzero.
Qed.

Lemma hd_trim_left (l : list byte) : hd x01 (trim_left l) <> x00.
Proof.
  induction l as [|b l IH]; [discriminate|].
  destruct (Byte.byte_eq_dec b x00) as [->|Hb]; [exact IH|].
  rewrite trim_left_nonzero by exact Hb. exact Hb.
Qed.

Lemma trim_left_suffix (l : list byte) :
  exists n, l = zeros n ++ trim_left l.
Proof.
  induction l as [|b l (n & IH)]; [now exists 0%nat|].
  destruct (Byte.byte_eq_dec b x00) as [->|Hb].
  - exists (S n). cbn [trim_left zeros repeat app]. f_equal. exact IH.
  - exists 0%nat. rewrite trim_left_nonzero by exact Hb. reflexivity.
Qed.

Lemma rev_zeros (n : nat) : rev (zeros n) = zeros n.
Proof.
  unfold zeros. induction n as [|n IH]; [reflexivity|].
  cbn [repeat rev]. rewrite IH. clear IH.
  induction n as [|n IH]; [reflexivity|]. cbn [repeat app]. f_equal. exact IH.
Qed.

Lemma hd_rev (l : list byte) : hd x01 (rev l) = last l x01.
Proof.
  induction l as [|b l IH]; [reflexivity|].
  cbn [rev]. destruct l as [|b' l]; [reflexivity|].
  change (last (b :: b' :: l) x01) with (last (b' :: l) x01).
  rewrite <- IH. cbn [rev]. destruct (rev l ++ [b']) eqn:E; [|reflexivity].
  destruct (rev l); discriminate.
Qed.

Lemma skipn_zeros (k n : nat) : skipn k (zeros n) = zeros (n - k).
Proof.
  unfold zeros. revert k. induction n as [|n IH]; intros [|k]; try reflexivity.
  cbn [repeat skipn Nat.sub]. apply IH.
Qed.

(** The bytes between two runs of zero bytes, when they neither start nor
    end with a zero byte. *)
Lemma Trim_padded (n m : nat) (bs : list byte) :
  hd x01 bs <> x00 -> last bs x01 <> x00 ->
  Trim (zeros n ++ bs ++ zeros m) = bs.
Proof.
  intros Hh Hl. unfold Trim. rewrite trim_left_zeros.
  assert (E : trim_left (bs ++ zeros m) = bs ++ zeros m \/ bs = []).
  { destruct bs as [|b bs]; [now right|left].
    cbn [app]. apply trim_left_nonzero. exact Hh. }
  destruct E as [E | ->].
  - rewrite E, rev_app_distr, rev_zeros, trim_left_zeros.
    rewrite trim_left_hd by (rewrite hd_rev; exact Hl).
    apply rev_involutive.
  - cbn [app]. replace (trim_left (zeros m)) with (@nil byte).
    + reflexivity.
    + rewrite <- (app_nil_r (zeros m)), trim_left_zeros. reflexivity.
Qed.

(** X11: [DecodeToString] drops the zero bytes at both ends of the buffer
    and no other: bytes that neither start nor end with a zero byte come
    back whole from between any two runs of zero bytes, the zero bytes
    among them included; and the bytes of the string returned never start
    or end with a zero byte. *)
Theorem DecodeToString_ends (bs : list byte) :
  (forall n m,
      hd x01 bs <> x00 -> last bs x01 <> x00 ->
      DecodeToString (zeros n ++ bs ++ zeros m) = string_of_list_byte bs) /\
  hd x01 (list_byte_of_string (DecodeToString bs)) <> x00 /\
  last (list_byte_of_string (DecodeToString bs)) x01 <> x00.
Proof.
  split; [|split].
  - intros n m Hh Hl. unfold DecodeToString. rewrite Trim_padded by assumption.
    reflexivity.
  - unfold DecodeToString. rewrite list_byte_of_string_of_list_byte.
    unfold Trim. set (r := rev (trim_left bs)).
    destruct (trim_left_suffix r) as (k & Er).
    assert (Eb : trim_left bs = rev (trim_left r) ++ zeros k).
    { rewrite <- (rev_involutive (trim_left bs)). fold r.
      rewrite Er at 1. rewrite rev_app_distr, rev_zeros. reflexivity. }
    pose proof (hd_trim_left bs) as Hh. rewrite Eb in Hh.
    destruct (rev (trim_left r)) as [|b t]; [cbn; discriminate|exact Hh].
  - unfold DecodeToString. rewrite list_byte_of_string_of_list_byte.
    unfold Trim. rewrite <- hd_rev, rev_involutive. apply hd_trim_left.
Qed.

(** X12: the payload of a label-set message has 32 bytes, whatever the
    label: a label of at most 32 bytes followed by zero bytes, or the first
    32 bytes of a longer one.  A label of at most 32 bytes that neither
    starts nor ends with a zero byte is what [DecodeToString] reads in the
    payload. *)
Theorem SetLabelMessage_payload (label' : string) :
  List.length (payload (SetLabelMessage label')) = 32%nat /\
  ((List.length (list_byte_of_string label') <= 32)%nat ->
   payload (SetLabelMessage label')
   = list_byte_of_string label'
     ++ zeros (32 - List.length (list_byte_of_string label'))) /\
  ((32 <= List.length (list_byte_of_string label'))%nat ->
   payload (SetLabelMessage label') = firstn 32 (list_byte_of_string label')) /\
  ((List.length (list_byte_of_string label') <= 32)%nat ->
   hd x01 (list_byte_of_string label') <> x00 ->
   last (list_byte_of_string label') x01 <> x00 ->
   DecodeToString (payload (SetLabelMessage label')) = label').
Proof.
  assert (P : payload (SetLabelMessage label')
              = copy (zeros 32) (list_byte_of_string label')) by reflexivity.
  assert (Short : (List.length (list_byte_of_string label') <= 32)%nat ->
                  copy (zeros 32) (list_byte_of_string label')
                  = list_byte_of_string label'
                    ++ zeros (32 - List.length (list_byte_of_string label'))).
  { intros H. unfold copy.
    rewrite firstn_all2 by (unfold zeros; rewrite repeat_length; exact H).
    f_equal. apply skipn_zeros. }
  rewrite P. split; [apply copy_length|]. split; [exact Short|]. split.
  - intros H. unfold copy.
    rewrite skipn_all2 by (unfold zeros; rewrite repeat_length; exact H).
    unfold zeros. rewrite repeat_length. apply app_nil_r.
  - intros H Hh Hl. rewrite (Short H).
    unfold DecodeToString.
    change (list_byte_of_string label' ++ zeros ?m)
      with (zeros 0 ++ list_byte_of_string label' ++ zeros m).
    rewrite (@Trim_padded 0 _ (list_byte_of_string label') Hh Hl).
    apply string_of_list_byte_of_string.
Qed.

(* ----------------------------------------------------------------- *)
(** *** Sending, and the methods that write to the device *)

Lemma bind_Return {A B : Type} (c : M A) (k : A -> M B) (l l' : Lifx)
    (w w' : World) (b : B) :
  bind c k l w = (Return b, l', w') ->
  exists a l1 w1, c l w = (Return a, l1, w1) /\ k a l1 w1 = (Return b, l', w').
Proof.
  unfold bind. destruct (c l w) as [[[ | a | e ] l1] w1]; try discriminate.
  intros H. now exists a, l1, w1.
Qed.

Lemma annotate_Return {A : Type} (s : string) (c : M A) (l l' : Lifx)
    (w w' : World) (a : A) :
  annotate s c l w = (Return a, l', w') -> c l w = (Return a, l', w').
Proof.
  unfold annotate. destruct (c l w) as [[[ | a' | e ] l1] w1]; try discriminate.
  auto.
Qed.

Lemma lift_Return {A : Type} (o : outcome (result A)) (l l' : Lifx)
    (w w' : World) (a : A) :
  lift o l w = (Return a, l', w') -> o = Returned (Ok a) /\ l' = l /\ w' = w.
Proof.
  destruct o as [ | [ a' | e ] ]; cbn; try discriminate.
  intros H. injection H as -> -> ->. auto.
Qed.

(** What [Send] does, case by case: it refuses, and the world is as it
    was; or it hands the bytes of the message to the client, for the
    address and the port of the device, and takes the next answer. *)
Lemma Send_cases (message : Message) (l : Lifx) (w : World) :
  (snd (Send message l w) = w
   /\ same_but_client l (snd (fst (Send message l w)))
   /\ (fst (fst (Send message l w)) = Panic
       \/ exists e, fst (fst (Send message l w)) = Fail e
                    /\ (IsNotFound e = true \/ IsNotValid e = true)))
  \/ (exists address,
         Address l = Some address /\ address <> "" /\ Port l <> ""
         /\ snd (fst (Send message l w)) = set_client (Some UDP_client) l
         /\ snd (Send message l w)
            = mkWorld (tl (inbox w))
                (outbox w ++ [mkDatagram address (Port l)
                                (fst (EncodeToBytes message))])
         /\ fst (fst (Send message l w))
            = match inbox w with
              | [] => Fail (Transport "i/o timeout")
              | Panicked :: _ => Panic
              | Returned (Ok reply) :: _ => Return reply
              | Returned (Err e) :: _ => Fail e
              end).
Proof.
  unfold Send, bind, getLifx, client_Send, same_but_client.
  pose proof (EncodeToBytes_nonempty message) as Hn.
  pose proof (EncodeToBytes_again message) as Hg.
  destruct (EncodeToBytes message) as [bytes message0]. cbn [fst snd] in Hn, Hg.
  rewrite Hn, Hg.
  destruct l as [u la co po hs gr pr inf lo ad pt proto cl].
  cbn [client Protocol Address Port].
  assert (Hc : forall c : Client, c = UDP_client) by (intros []; reflexivity).
  destruct cl as [c|]; [rewrite (Hc c)|destruct (String.eqb proto UDP)];
    cbn [ret modify fail set_client fst snd client];
    try (left; split; [reflexivity|split; [reflexivity|right]];
         eexists; split; [reflexivity|left; reflexivity]);
    (destruct ad as [a|]; cbn [deref ret panic fst snd client];
     [|left; split; [reflexivity|split; [reflexivity|left; reflexivity]]]);
    (destruct (String.length a =? 0)%nat eqn:Ea;
     [left; split; [reflexivity|split; [reflexivity|right]];
      eexists; split; [reflexivity|right; reflexivity]|]);
    (destruct (String.length pt =? 0)%nat eqn:Ep;
     [left; split; [reflexivity|split; [reflexivity|right]];
      eexists; split; [reflexivity|right; reflexivity]|]);
    right; exists a;
    apply length_zero_string in Ea; apply length_zero_string in Ep;
    (split; [reflexivity|]); (split; [exact Ea|]); (split; [exact Ep|]);
    destruct (inbox w) as [|[|[reply|e]] rest]; repeat split.
Qed.

Lemma Send_not_Return (message : Message) (l : Lifx) (w : World) :
  same_but_client l (snd (fst (Send message l w))).
Proof.
  destruct (Send_cases message l w)
    as [(Hw & Hl & Hr) | (a & Ha & Hne & Hp & Hl & Hw & Hr)].
  - exact Hl.
  - rewrite Hl. reflexivity.
Qed.

(** [Send], by what the device lacks. *)
Lemma Send_by_cause (message : Message) (l : Lifx) (w : World) :
  Send message l w =
  match client l, String.eqb (Protocol l) UDP with
  | None, false =>
      (Fail (NotFound ("protocol " ++ Protocol l ++ " not found")), l, w)
  | _, _ =>
      match Address l with
      | None => (Panic, set_client (Some UDP_client) l, w)
      | Some address =>
          if (String.length address =? 0)%nat
          then (Fail (NotValid "address of a lifx has not been initialized"),
                set_client (Some UDP_client) l, w)
          else if (String.length (Port l) =? 0)%nat
          then (Fail (NotValid "port of a lifx has not been initialized"),
                set_client (Some UDP_client) l, w)
          else client_Send address (Port l) (fst (EncodeToBytes message))
                           (set_client (Some UDP_client) l) w
      end
  end.
Proof.
  unfold Send, bind, getLifx.
  pose proof (EncodeToBytes_nonempty message) as Hn.
  pose proof (EncodeToBytes_again message) as Hg.
  destruct (EncodeToBytes message) as [bytes message0]. cbn [fst snd] in Hn, Hg.
  rewrite Hn, Hg.
  destruct l as [u la co po hs gr pr inf lo ad pt proto cl].
  cbn [client Protocol Address Port].
  assert (Hc : forall c : Client, c = UDP_client) by (intros []; reflexivity).
  destruct cl as [c|]; [rewrite (Hc c)|destruct (String.eqb proto UDP)];
    cbn [ret modify fail set_client fst snd client UUID Label Connected Power
         HSBK_ Group_ Product_ Info_ Location_ Address Port Protocol];
    try reflexivity;
    (destruct ad as [a|]; cbn [deref ret panic]; [|destruct (String.eqb proto UDP); reflexivity]);
    destruct (String.eqb proto UDP);
    destruct (String.length a =? 0)%nat; try reflexivity;
    destruct (String.length pt =? 0)%nat; reflexivity.
Qed.

(** X13: a call of [Send] refuses for one of three causes, in this order,
    and otherwise hands one datagram over.  A device with no client and a
    protocol other than udp: the not-found error, the device and the network
    untouched.  Otherwise the device gets its client, and: with a nil
    address the call panics; with an empty port it returns the not-valid
    error of the port; in both the network is untouched.  Otherwise it hands
    the bytes of the message to the client, for the address and the port of
    the device, takes one answer, and ends as the answer does.  It writes no
    field of the device but [client].  The address is taken as it renders,
    never empty; the guard on an empty message never refuses, a message
    having at least 36 bytes. *)
Theorem Send_effect (message : Message) (l : Lifx) (w : World) :
  same_but_client l (snd (fst (Send message l w))) /\
  (client l = None -> Protocol l <> UDP ->
   Send message l w
   = (Fail (NotFound ("protocol " ++ Protocol l ++ " not found")), l, w)) /\
  (client l <> None \/ Protocol l = UDP ->
   (Address l = None ->
    Send message l w = (Panic, set_client (Some UDP_client) l, w)) /\
   (forall address,
       Address l = Some address -> address <> "" ->
       (Port l = "" ->
        Send message l w
        = (Fail (NotValid "port of a lifx has not been initialized"),
           set_client (Some UDP_client) l, w)) /\
       (Port l <> "" ->
        Send message l w
        = (match inbox w with
           | [] => Fail (Transport "i/o timeout")
           | Panicked :: _ => Panic
           | Returned (Ok reply) :: _ => Return reply
           | Returned (Err e) :: _ => Fail e
           end,
           set_client (Some UDP_client) l,
           mkWorld (tl (inbox w))
             (outbox w ++ [mkDatagram address (Port l)
                             (fst (EncodeToBytes message))]))))).
Proof.
  split; [apply Send_not_Return|].
  rewrite Send_by_cause. split.
  - intros Hc Hp. rewrite Hc.
    apply String.eqb_neq in Hp. rewrite Hp. reflexivity.
  - intros Hreach.
    assert (E : forall (A : Type) (x y : A),
               match client l, String.eqb (Protocol l) UDP with
               | None, false => x
               | _, _ => y
               end = y).
    { intros A x y. destruct (client l) as [c|]; [reflexivity|].
      destruct Hreach as [Hc|Hp]; [congruence|]. rewrite Hp. reflexivity. }
    rewrite E. split.
    + intros ->. reflexivity.
    + intros address -> Hne. apply length_zero_string in Hne. rewrite Hne.
      split.
      * intros ->. reflexivity.
      * intros Hp. apply length_zero_string in Hp. rewrite Hp.
        unfold client_Send.
        destruct (inbox w) as [|[|[reply|e]] rest]; reflexivity.
Qed.

Lemma Send_Return (message : Message) (l l' : Lifx) (w w' : World) (bytes : slice) :
  Send message l w = (Return bytes, l', w') ->
  l' = set_client (Some UDP_client) l
  /\ inbox w = Returned (Ok bytes) :: inbox w'
  /\ exists address,
       Address l = Some address
       /\ outbox w' = outbox w ++ [mkDatagram address (Port l)
                                     (fst (EncodeToBytes message))].
Proof.
  intros H.
  destruct (Send_cases message l w)
    as [(Hw & Hl & Hr) | (a & Ha & Hne & Hp & Hl & Hw & Hr)];
    rewrite H in *; cbn [fst snd] in *.
  - destruct Hr as [Hr | (e & Hr & _)]; discriminate.
  - subst l' w'. cbn [inbox outbox].
    destruct (inbox w) as [|[|[reply|e]] rest]; try discriminate.
    injection Hr as ->. split; [reflexivity|]. split; [reflexivity|].
    exists a. split; [exact Ha|reflexivity].
Qed.

(** **** Counting datagrams *)

Lemma sends_still {A : Type} (c : M A) :
  (forall l w, snd (c l w) = w) -> sends 0 c.
Proof.
  intros H l w. exists []. rewrite H, app_nil_r. repeat split. apply le_n.
Qed.

Lemma sends_more {A : Type} (n m : nat) (c : M A) :
  (n <= m)%nat -> sends n c -> sends m c.
Proof.
  intros Hnm H l w. destruct (H l w) as (dgs & Hl & Ho & Hi).
  exists dgs. repeat split; try assumption. lia.
Qed.

Lemma sends_bind {A B : Type} (n m : nat) (c : M A) (k : A -> M B) :
  sends n c -> (forall a, sends m (k a)) -> sends (n + m) (bind c k).
Proof.
  intros Hc Hk l w. destruct (Hc l w) as (dgs & Hl & Ho & Hi).
  unfold bind. destruct (c l w) as [[[ | a | e ] l1] w1]; cbn [snd] in *.
  - exists dgs. repeat split; try assumption. lia.
  - destruct (Hk a l1 w1) as (dgs' & Hl' & Ho' & Hi').
    exists (dgs ++ dgs'). rewrite length_app, Ho', Hi', Ho, Hi, skipn_skipn.
    rewrite app_assoc, (Nat.add_comm (List.length dgs')). repeat split. lia.
  - exists dgs. repeat split; try assumption. lia.
Qed.

Lemma sends_annotate {A : Type} (n : nat) (s : string) (c : M A) :
  sends n c -> sends n (annotate s c).
Proof.
  intros H l w. destruct (H l w) as (dgs & Hl & Ho & Hi).
  exists dgs. unfold annotate.
  destruct (c l w) as [[[ | a | e ] l1] w1]; cbn [snd] in *; auto.
Qed.

Lemma sends_lift {A : Type} (o : outcome (result A)) : sends 0 (lift o).
Proof. apply sends_still. intros l w. destruct o as [ | [ a | e ] ]; reflexivity. Qed.

Lemma sends_modify (f : Lifx -> Lifx) : sends 0 (modify f).
Proof. apply sends_still. reflexivity. Qed.

Lemma sends_ret {A : Type} (a : A) : sends 0 (ret a).
Proof. apply sends_still. reflexivity. Qed.

Lemma sends_Send (message : Message) : sends 1 (Send message).
Proof.
  intros l w.
  destruct (Send_cases message l w)
    as [(Hw & Hl & Hr) | (a & Ha & Hne & Hp & Hl & Hw & Hr)].
  - exists []. rewrite Hw, app_nil_r. repeat split. cbn; lia.
  - eexists [_]. rewrite Hw. cbn [inbox outbox List.length skipn].
    repeat split. destruct (inbox w); reflexivity.
Qed.

Ltac count_sends :=
  repeat first
    [ apply sends_Send
    | apply sends_lift
    | apply sends_modify
    | apply sends_ret
    | apply sends_annotate
    | match goal with
      | |- sends _ (bind (annotate _ (Send _)) _) =>
          eapply (sends_bind (n := 1)); [|intros ?]
      | |- sends _ (bind _ _) => eapply (sends_bind (n := 0)); [|intros ?]
      end ].

Lemma sends_SetLabel (v : string) : sends 1 (Lifx_SetLabel v).
Proof. unfold Lifx_SetLabel. apply (sends_more (n := 1 + (0 + 0))); [lia|]. count_sends. Qed.

Lemma sends_SetPower (v : string) : sends 1 (SetPower v).
Proof. unfold SetPower. apply (sends_more (n := 1 + (0 + 0))); [lia|]. count_sends. Qed.

Lemma sends_SetHSBK (c : HSBK) (d : Z) : sends 1 (SetHSBK c d).
Proof.
  unfold SetHSBK. apply (sends_more (n := 1 + (0 + (0 + (0 + (0 + 0)))))); [lia|].
  count_sends.
Qed.

Lemma sends_send_and_apply (a : string) (message : Message) :
  sends 1 (send_and_apply a message).
Proof.
  unfold send_and_apply.
  apply (sends_more (n := 1 + (0 + (0 + (0 + (0 + 0)))))); [lia|]. count_sends.
Qed.

(** **** Writes of one field *)

Lemma SetLabel_effect (v : string) (l : Lifx) (w : World) :
  match Lifx_SetLabel v l w with
  | (Return _, l', w') =>
      l' = set_Label v (set_client (Some UDP_client) l)
      /\ exists reply, inbox w = Returned (Ok reply) :: inbox w'
  | (_, l', _) => same_but_client l l'
  end.
Proof.
  unfold Lifx_SetLabel, bind, annotate.
  pose proof (Send_not_Return (SetLabelMessage v) l w) as Hf.
  destruct (Send (SetLabelMessage v) l w) as [[[ | reply | e ] l1] w1] eqn:E;
    cbn [fst snd] in Hf; try exact Hf.
  apply Send_Return in E. destruct E as (-> & Hi & _).
  cbn [modify ret]. split; [reflexivity|]. now exists reply.
Qed.

Lemma SetPower_effect (v : string) (l : Lifx) (w : World) :
  match SetPower v l w with
  | (Return _, l', w') =>
      l' = set_Power v (set_client (Some UDP_client) l)
      /\ exists reply, inbox w = Returned (Ok reply) :: inbox w'
  | (_, l', _) => same_but_client l l'
  end.
Proof.
  unfold SetPower, bind, annotate.
  pose proof (Send_not_Return (SetPowerDeviceMessage v) l w) as Hf.
  destruct (Send (SetPowerDeviceMessage v) l w) as [[[ | reply | e ] l1] w1] eqn:E;
    cbn [fst snd] in Hf; try exact Hf.
  apply Send_Return in E. destruct E as (-> & Hi & _).
  cbn [modify ret]. split; [reflexivity|]. now exists reply.
Qed.

(** A configured device that the network answers: [Send] returns the
    answer. *)
Lemma Send_answered (message : Message) (l : Lifx) (w : World)
    (address : string) (reply : slice) (rest : list (outcome (result slice))) :
  configured l address ->
  inbox w = Returned (Ok reply) :: rest ->
  Send message l w
  = (Return reply, set_client (Some UDP_client) l,
     mkWorld rest (outbox w ++ [mkDatagram address (Port l)
                                  (fst (EncodeToBytes message))])).
Proof.
  intros (Hc & Ha & Hne & Hp) Hi. rewrite Send_by_cause, Ha.
  apply length_zero_string in Hne. apply length_zero_string in Hp.
  rewrite Hne, Hp. unfold client_Send. rewrite Hi. cbn [tl].
  destruct (client l) as [c|]; [reflexivity|].
  destruct Hc as [Hc|Hc]; [congruence|]. rewrite Hc. reflexivity.
Qed.

(** X14: [SetLabel] and [SetPower] do not read the reply.  On a
    configured device, whatever bytes the network answers with, the empty
    reply included, the call returns, one datagram with the message has gone
    out, and the value asked for is cached.  They return in no other way:
    when they return a reply has been taken and the value is cached; when
    they do not, the device keeps every field it had but [client].  Each
    hands at most one datagram over. *)
Theorem SetLabel_SetPower_cache (v : string) (l : Lifx) (w : World) :
  (forall address reply rest,
      configured l address ->
      inbox w = Returned (Ok reply) :: rest ->
      Lifx_SetLabel v l w
      = (Return tt, set_Label v (set_client (Some UDP_client) l),
         mkWorld rest (outbox w ++ [mkDatagram address (Port l)
                                      (fst (EncodeToBytes (SetLabelMessage v)))]))
      /\ SetPower v l w
         = (Return tt, set_Power v (set_client (Some UDP_client) l),
            mkWorld rest
              (outbox w ++ [mkDatagram address (Port l)
                              (fst (EncodeToBytes (SetPowerDeviceMessage v)))])))
  /\ match Lifx_SetLabel v l w with
     | (Return _, l', w') =>
         l' = set_Label v (set_client (Some UDP_client) l)
         /\ exists reply, inbox w = Returned (Ok reply) :: inbox w'
     | (_, l', _) => same_but_client l l'
     end
  /\ match SetPower v l w with
     | (Return _, l', w') =>
         l' = set_Power v (set_client (Some UDP_client) l)
         /\ exists reply, inbox w = Returned (Ok reply) :: inbox w'
     | (_, l', _) => same_but_client l l'
     end
  /\ sends 1 (Lifx_SetLabel v) /\ sends 1 (SetPower v).
Proof.
  split.
  { intros address reply rest Hc Hi. split.
    - unfold Lifx_SetLabel, bind, annotate.
      rewrite (@Send_answered _ l w address reply rest Hc Hi). reflexivity.
    - unfold SetPower, bind, annotate.
      rewrite (@Send_answered _ l w address reply rest Hc Hi). reflexivity. }
  split; [apply SetLabel_effect|].
  split; [apply SetPower_effect|].
  split; [apply sends_SetLabel|apply sends_SetPower].
Qed.

Lemma DecodeToState_has_color (bytes : slice) (st : State) :
  DecodeToState bytes = Returned (Ok st) -> State_HSBK st <> None.
Proof.
  unfold DecodeToState, obind.
  destruct (reslice bytes (len bytes - 52) (len bytes - 44)); [discriminate|].
  destruct (DecodeToHSBK s) as [ | [ c | e ] ]; try discriminate.
  destruct (reslice bytes (len bytes - 40) (len bytes - 8)); [discriminate|].
  destruct (reslice bytes (len bytes - 42) (len bytes - 40)); [discriminate|].
  destruct (BigEndian_Uint16 (elems s1)); [discriminate|].
  intros H. injection H as <-. discriminate.
Qed.

(** How the state of a reply is cached, by [SetHSBK] and by [Toggle]. *)
Lemma send_and_apply_effect (a : string) (message : Message) (l : Lifx) (w : World) :
  match send_and_apply a message l w with
  | (Return _, l', w') =>
      exists reply st,
        inbox w = Returned (Ok reply) :: inbox w'
        /\ DecodeToState reply = Returned (Ok st)
        /\ l' = cache_state st (set_client (Some UDP_client) l)
  | (_, l', _) => same_but_client l l'
  end.
Proof.
  unfold send_and_apply, bind, annotate.
  pose proof (Send_not_Return message l w) as Hf.
  destruct (Send message l w) as [[[ | reply | e ] l1] w1] eqn:E;
    cbn [fst snd] in Hf; try exact Hf.
  apply Send_Return in E. destruct E as (-> & Hi & _).
  destruct (DecodeToState reply) as [ | [ st | e ] ] eqn:D;
    cbn [lift panic fail ret modify]; try exact Hf.
  exists reply, st. repeat split; assumption.
Qed.

(** X15: when [SetHSBK] returns, the color, the label and the power
    cached are those decoded from the reply of the device, not the color
    asked for; the color cached is not nil.  When it does not return, no
    field of the device but [client] has changed. *)
Theorem SetHSBK_caches_reply (hsbk : HSBK) (duration : Z) (l : Lifx) (w : World) :
  match SetHSBK hsbk duration l w with
  | (Return _, l', w') =>
      exists reply st,
        inbox w = Returned (Ok reply) :: inbox w'
        /\ DecodeToState reply = Returned (Ok st)
        /\ l' = cache_state st (set_client (Some UDP_client) l)
        /\ HSBK_ l' <> None
  | (_, l', _) => same_but_client l l'
  end.
Proof.
  unfold SetHSBK, bind, annotate.
  pose proof (Send_not_Return (SetColorMessage hsbk duration) l w) as Hf.
  destruct (Send (SetColorMessage hsbk duration) l w)
    as [[[ | reply | e ] l1] w1] eqn:E; cbn [fst snd] in Hf; try exact Hf.
  apply Send_Return in E. destruct E as (-> & Hi & _).
  destruct (DecodeToState reply) as [ | [ st | e ] ] eqn:D;
    cbn [lift panic fail ret modify]; try exact Hf.
  exists reply, st. repeat split; try assumption.
  unfold cache_state. cbn [HSBK_ set_Power set_Label set_HSBK].
  apply (@DecodeToState_has_color reply st D).
Qed.

(** **** The batch of writes *)

Lemma length_positive_string (s : string) :
  s <> "" -> (0 <? String.length s)%nat = true.
Proof. destruct s; [congruence|reflexivity]. Qed.

Lemma sends_SetState (st : State) (d : Z) : sends 3 (SetState st d).
Proof.
  unfold SetState.
  apply (sends_more (n := 1 + (1 + (1 + 0)))); [lia|].
  apply sends_bind.
  { destruct (0 <? String.length (State_Label st))%nat;
      [apply sends_annotate, sends_SetLabel
      |apply (sends_more (n := 0)); [lia|apply sends_ret]]. }
  intros ?. apply sends_bind.
  { destruct (0 <? String.length (State_Power st))%nat;
      [apply sends_annotate, sends_SetPower
      |apply (sends_more (n := 0)); [lia|apply sends_ret]]. }
  intros ?. apply sends_bind.
  { destruct (State_HSBK st);
      [apply sends_annotate, sends_SetHSBK
      |apply (sends_more (n := 0)); [lia|apply sends_ret]]. }
  intros ?. apply sends_ret.
Qed.

(** X16: [SetState] is a batch of up to three writes, label, power and
    color, and not a transaction.  It hands at most three datagrams over;
    with no label, no power and no color it does nothing and returns.  When
    the label has been written and the write of the power fails, it returns
    that error, annotated, without trying the color: the new label stays
    cached, the power and the color are as before. *)
Theorem SetState_not_atomic :
  (forall st d, sends 3 (SetState st d)) /\
  (forall d l w, SetState (mkState None "" "") d l w = (Return tt, l, w)) /\
  (forall st d l w l1 w1 e l2 w2,
      State_Label st <> "" -> State_Power st <> "" ->
      Lifx_SetLabel (State_Label st) l w = (Return tt, l1, w1) ->
      SetPower (State_Power st) l1 w1 = (Fail e, l2, w2) ->
      SetState st d l w = (Fail (Annotate e "setting state"), l2, w2)
      /\ Label l2 = State_Label st
      /\ Power l2 = Power l
      /\ HSBK_ l2 = HSBK_ l).
Proof.
  split; [exact sends_SetState|]. split; [reflexivity|].
  intros st d l w l1 w1 e l2 w2 Hl Hp H1 H2.
  split.
  - unfold SetState.
    rewrite (length_positive_string Hl), (length_positive_string Hp).
    unfold bind at 1. unfold annotate at 1. rewrite H1.
    unfold bind at 1. unfold annotate at 1. rewrite H2. reflexivity.
  - pose proof (SetLabel_effect (State_Label st) l w) as E1. rewrite H1 in E1.
    pose proof (SetPower_effect (State_Power st) l1 w1) as E2. rewrite H2 in E2.
    destruct E1 as (-> & _). unfold same_but_client in E2. rewrite E2.
    repeat split.
Qed.

(** **** Toggle *)

(** What a call of [Toggle] leaves in the device. *)
Lemma Toggle_effect (brightness duration : Z) (l : Lifx) (w : World) :
  match Toggle brightness duration l w with
  | (Return _, l', w') =>
      exists reply st,
        inbox w = Returned (Ok reply) :: inbox w'
        /\ DecodeToState reply = Returned (Ok st)
        /\ l' = cache_state st (set_client (Some UDP_client) l)
        /\ HSBK_ l' <> None
  | (_, l', _) => same_but_client l l'
  end.
Proof.
  assert (Panics : forall l : Lifx, same_but_client l l).
  { intros l0. unfold same_but_client. destruct l0; reflexivity. }
  rewrite Toggle_cases.
  assert (G : forall a m,
             match send_and_apply a m l w with
             | (Return _, l', w') =>
                 exists reply st,
                   inbox w = Returned (Ok reply) :: inbox w'
                   /\ DecodeToState reply = Returned (Ok st)
                   /\ l' = cache_state st (set_client (Some UDP_client) l)
                   /\ HSBK_ l' <> None
             | (_, l', _) => same_but_client l l'
             end).
  { intros a m. pose proof (send_and_apply_effect a m l w) as E.
    destruct (send_and_apply a m l w) as [[[ | u | e ] l'] w']; try exact E.
    destruct E as (reply & st & Hi & D & ->).
    exists reply, st. repeat split; try assumption.
    unfold cache_state. cbn [HSBK_ set_Power set_Label set_HSBK].
    apply (@DecodeToState_has_color reply st D). }
  destruct (String.eqb (Power l) PowerOn); [|apply G].
  destruct (HSBK_ l) as [c|]; [|apply (Panics l)].
  destruct (0 <? Brightness c); apply G.
Qed.

Lemma sends_Toggle (brightness duration : Z) : sends 1 (Toggle brightness duration).
Proof.
  intros l w. rewrite Toggle_cases.
  destruct (String.eqb (Power l) PowerOn); [|apply sends_send_and_apply].
  destruct (HSBK_ l) as [c|].
  - destruct (0 <? Brightness c); apply sends_send_and_apply.
  - exists []. cbn [snd List.length skipn]. rewrite app_nil_r.
    repeat split. lia.
Qed.

(** X17: when [Toggle] returns, the color, the label and the power cached
    are those decoded from the reply of the device, and the color cached is
    not nil; when it does not return (the guard panics, the send fails, the
    reply is too short) no field of the device but [client] has changed.
    It hands at most one datagram over. *)
Theorem Toggle_caches_reply (brightness duration : Z) :
  (forall l w,
      match Toggle brightness duration l w with
      | (Return _, l', w') =>
          exists reply st,
            inbox w = Returned (Ok reply) :: inbox w'
            /\ DecodeToState reply = Returned (Ok st)
            /\ l' = cache_state st (set_client (Some UDP_client) l)
            /\ HSBK_ l' <> None
      | (_, l', _) => same_but_client l l'
      end) /\
  sends 1 (Toggle brightness duration).
Proof.
  split; [apply Toggle_effect|apply sends_Toggle].
Qed.

(** **** The refresh *)

Ltac run_returns :=
  repeat match goal with
  | H : bind _ _ _ _ = (Return _, _, _) |- _ =>
      apply bind_Return in H; destruct H as (? & ? & ? & ? & H)
  | H : annotate _ _ _ _ = (Return _, _, _) |- _ => apply annotate_Return in H
  | H : lift _ _ _ = (Return _, _, _) |- _ =>
      apply lift_Return in H; destruct H as (? & ? & ?); subst
  | H : modify _ _ _ = (Return _, _, _) |- _ =>
      cbn [modify] in H; injection H; clear H; intros; subst
  | H : ret _ _ _ = (Return _, _, _) |- _ =>
      cbn [ret] in H; injection H; clear H; intros; subst
  | H : Send _ _ _ = (Return _, _, _) |- _ =>
      apply Send_Return in H; destruct H as (? & ? & ? & ? & ?); subst
  end.

Lemma sends_Update : sends 5 Update.
Proof.
  unfold Update.
  apply (sends_more (n := 0 + (1 + (0 + (0 + (0 + (0 + (1 + (0 + (0 + (1
           + (0 + (0 + (1 + (0 + (0 + (1 + (0 + (0 + (0 +
           (0)))))))))))))))))))));
    [lia|].
  count_sends.
Qed.

(** What a call of [Update] that returns has done. *)
Lemma Update_Return :
  forall l w l' w',
    Update l w = (Return tt, l', w') ->
    exists b1 b2 b3 b4 b5 st group info location product address,
      inbox w = Returned (Ok b1) :: Returned (Ok b2) :: Returned (Ok b3)
                  :: Returned (Ok b4) :: Returned (Ok b5) :: inbox w'
      /\ DecodeToState b1 = Returned (Ok st)
      /\ DecodeToGroup b2 = Returned (Ok group)
      /\ DecodeToInfo b3 = Returned (Ok info)
      /\ DecodeToLocation b4 = Returned (Ok location)
      /\ DecodeToProduct b5 = Returned (Ok product)
      /\ l' = set_Connected true
                (set_Product product
                   (set_Location (Some location)
                      (set_Info (Some info)
                         (set_Group (Some group)
                            (cache_state st
                               (set_client (Some UDP_client) l))))))
      /\ HSBK_ l' <> None
      /\ Address l = Some address
      /\ outbox w'
         = outbox w
             ++ map (fun q => mkDatagram address (Port l)
                                (fst (EncodeToBytes (GetMessageWithoutPayload q))))
                  [Get; GetGroup; GetInfo; GetLocation; GetVersion].
Proof.
  intros l w l' w' H. unfold Update in H. run_returns.
  match goal with l : Lifx |- _ =>
    destruct l as [u la co po hs gr pr inf lo ad pt proto cl] end.
  cbn [Address Port set_Connected set_Power set_Label set_HSBK set_Group
       set_Info set_Location set_Product set_client UUID Label Connected
       Power HSBK_ Group_ Product_ Info_ Location_ Protocol client] in *.
  subst ad.
  repeat match goal with
         | H : Some _ = Some _ |- _ => injection H as <-
         end.
  match goal with
  | D1 : DecodeToState ?b1 = Returned (Ok ?st),
    D2 : DecodeToGroup ?b2 = Returned (Ok ?g),
    D3 : DecodeToInfo ?b3 = Returned (Ok ?i),
    D4 : DecodeToLocation ?b4 = Returned (Ok ?lo'),
    D5 : DecodeToProduct ?b5 = Returned (Ok ?p) |- _ =>
      exists b1, b2, b3, b4, b5, st, g, i, lo', p;
      pose proof (@DecodeToState_has_color b1 st D1) as Hc
  end.
  eexists.
  repeat match goal with
         | H : inbox ?a = _ |- context [inbox ?a] => rewrite H
         | H : outbox ?a = _ |- context [outbox ?a] => rewrite H
         end.
  repeat split; try assumption; try reflexivity.
  cbn [map]. rewrite <- !app_assoc. reflexivity.
Qed.

(** X18: [Update] hands at most five datagrams over.  When it returns, it
    has taken exactly five answers and sent, to the address and the port of
    the device and in this order, the queries Get (101), GetGroup (53),
    GetInfo (34), GetLocation (48) and GetVersion (32); the device is
    connected, holds a client, and caches what the five answers decode to:
    a color that is not nil, the label, the power, the group, the info, the
    location and the product.  Its UUID, address, port and protocol are as
    before. *)
Theorem Update_refreshes :
  sends 5 Update /\
  forall l w l' w',
    Update l w = (Return tt, l', w') ->
    exists b1 b2 b3 b4 b5 st group info location product address,
      inbox w = Returned (Ok b1) :: Returned (Ok b2) :: Returned (Ok b3)
                  :: Returned (Ok b4) :: Returned (Ok b5) :: inbox w'
      /\ DecodeToState b1 = Returned (Ok st)
      /\ DecodeToGroup b2 = Returned (Ok group)
      /\ DecodeToInfo b3 = Returned (Ok info)
      /\ DecodeToLocation b4 = Returned (Ok location)
      /\ DecodeToProduct b5 = Returned (Ok product)
      /\ l' = set_Connected true
                (set_Product product
                   (set_Location (Some location)
                      (set_Info (Some info)
                         (set_Group (Some group)
                            (cache_state st
                               (set_client (Some UDP_client) l))))))
      /\ HSBK_ l' <> None
      /\ Address l = Some address
      /\ outbox w'
         = outbox w
             ++ map (fun q => mkDatagram address (Port l)
                                (fst (EncodeToBytes (GetMessageWithoutPayload q))))
                  [Get; GetGroup; GetInfo; GetLocation; GetVersion].
Proof. split; [exact sends_Update|exact Update_Return]. Qed.

(** **** The power asked for *)

Lemma EncodeToBytes_payload_offset (m : Message) :
  wf_Header (Header_ m) -> skipn 36 (fst (EncodeToBytes m)) = payload m.
Proof.
  intros Hwf. pose proof (@Header_EncodeToBytes_length (Header_ m) Hwf) as Hh.
  unfold EncodeToBytes, updateSize.
  cbn [fst snd Size Header_ payload PutUint16 nth app].
  match goal with
  | |- skipn 36 (?x :: ?y :: ?l) = _ => change (skipn 34 l = payload m)
  end.
  rewrite skipn_app, Hh, Nat.sub_diag.
  rewrite skipn_all2 by lia. reflexivity.
Qed.

(** X26: [SetPower] checks nothing of the power it is given.  Whatever
    the string, when the device answers the string is cached as the power
    of the device; the datagram that has gone out carries the level 65535
    for the string "on" and the level 0 for every other string, "ON" and
    the empty string included.  So after a call with such a string the
    device has been switched off and its cached power is that string. *)
Theorem SetPower_any_string (v : string) (l l' : Lifx) (w w' : World) :
  List.length TAFrame = 2%nat -> List.length Source = 4%nat ->
  SetPower v l w = (Return tt, l', w') ->
  Power l' = v
  /\ exists address packet',
       Address l = Some address
       /\ outbox w' = outbox w ++ [mkDatagram address (Port l) packet']
       /\ List.length packet' = 38%nat
       /\ BigEndian_Uint16 (skipn 36 packet')
          = Returned (if String.eqb v PowerOn then 65535 else 0).
Proof.
  intros Hf Hs H.
  pose proof (SetPower_effect v l w) as E. rewrite H in E.
  destruct E as (-> & _). split; [reflexivity|].
  unfold SetPower in H. run_returns.
  match goal with
  | Ha : Address l = Some ?a, Ho : outbox w' = _ |- _ =>
      exists a, (fst (EncodeToBytes (SetPowerDeviceMessage v)));
      split; [exact Ha|]; split; [exact Ho|]
  end.
  assert (Hwf : wf_Header (Header_ (SetPowerDeviceMessage v))).
  { unfold SetPowerDeviceMessage.
    destruct (String.eqb v PowerOn); repeat split; assumption. }
  assert (Hp : payload (SetPowerDeviceMessage v)
               = if String.eqb v PowerOn then [xff; xff] else [x00; x00]).
  { unfold SetPowerDeviceMessage. destruct (String.eqb v PowerOn); reflexivity. }
  split.
  - rewrite <- (firstn_skipn 36 (fst (EncodeToBytes (SetPowerDeviceMessage v)))).
    rewrite (@EncodeToBytes_payload_offset _ Hwf), length_app, length_firstn, Hp.
    assert (Hlen : (36 <= List.length (fst (EncodeToBytes (SetPowerDeviceMessage v))))%nat).
    { rewrite <- (firstn_skipn 36 (fst (EncodeToBytes (SetPowerDeviceMessage v)))) at 1.
      pose proof (f_equal (@List.length byte) (@EncodeToBytes_payload_offset _ Hwf)) as Hk.
      rewrite length_skipn, Hp in Hk.
      destruct (String.eqb v PowerOn); cbn [List.length] in Hk;
        rewrite firstn_skipn; lia. }
    destruct (String.eqb v PowerOn); cbn [List.length]; lia.
  - rewrite (@EncodeToBytes_payload_offset _ Hwf), Hp.
    destruct (String.eqb v PowerOn); reflexivity.
Qed.

(* ----------------------------------------------------------------- *)
(** *** Refreshing the registry *)

Lemma same_device_refl (l : Lifx) : same_device l l.
Proof. repeat split. Qed.

Lemma same_device_trans (l1 l2 l3 : Lifx) :
  same_device l1 l2 -> same_device l2 l3 -> same_device l1 l3.
Proof. unfold same_device. intuition congruence. Qed.

Lemma keeps_bind {A B : Type} (c : M A) (k : A -> M B) :
  keeps_device c -> (forall a, keeps_device (k a)) -> keeps_device (bind c k).
Proof.
  intros Hc Hk l w. specialize (Hc l w). unfold bind.
  destruct (c l w) as [[[ | a | e ] l1] w1]; cbn [fst snd] in *; try exact Hc.
  apply (same_device_trans Hc). apply Hk.
Qed.

Lemma keeps_annotate {A : Type} (s : string) (c : M A) :
  keeps_device c -> keeps_device (annotate s c).
Proof.
  intros H l w. specialize (H l w). unfold annotate.
  destruct (c l w) as [[[ | a | e ] l1] w1]; exact H.
Qed.

Lemma keeps_lift {A : Type} (o : outcome (result A)) : keeps_device (lift o).
Proof. intros l w. destruct o as [ | [ a | e ] ]; apply same_device_refl. Qed.

Lemma keeps_ret {A : Type} (a : A) : keeps_device (ret a).
Proof. intros l w. apply same_device_refl. Qed.

Lemma keeps_modify (f : Lifx -> Lifx) :
  (forall l, same_device l (f l)) -> keeps_device (modify f).
Proof. intros H l w. apply H. Qed.

Lemma keeps_Send (message : Message) : keeps_device (Send message).
Proof.
  intros l w. pose proof (Send_not_Return message l w) as H.
  unfold same_but_client in H. rewrite H. repeat split.
Qed.

Ltac keeps :=
  repeat first
    [ apply keeps_Send
    | apply keeps_lift
    | apply keeps_ret
    | apply keeps_annotate
    | apply keeps_modify; intros ?; repeat split
    | apply keeps_bind; [|intros ?] ].

Lemma keeps_Update : keeps_device Update.
Proof. unfold Update. keeps. Qed.

Lemma Update_Connected (l : Lifx) (w : World) :
  match Update l w with
  | (Return _, l', _) => Connected l' = true
  | (_, l', _) => Connected l' = false
  end.
Proof.
  rewrite Update_as_sequence.
  assert (T : triple (fun _ => True)
                (modify (set_Connected false) ;;
                 run_exchanges refresh_sequence ;;
                 modify (set_Connected true) ;; ret tt)%dev
                (fun _ l' => Connected l' = true)).
  { eapply triple_bind with (Q' := fun _ => off).
    - apply triple_modify. intros l0 _. reflexivity.
    - intros ?. eapply triple_bind.
      + apply triple_exchanges. auto.
      + intros ?. eapply triple_bind with (Q' := fun _ l' => Connected l' = true).
        * apply triple_modify. intros l0 _. reflexivity.
        * intros ?. apply triple_ret. }
  specialize (T l w I). unfold disconnected_or in T.
  match type of T with
  | context [let (_, _) := ?c in _] =>
      destruct c as [[[ | u | e ] l'] w']; exact T
  end.
Qed.

Lemma Update_refreshed (l l' : Lifx) (w w' : World) :
  Update l w = (Return tt, l', w') -> refreshed l'.
Proof.
  intros H.
  destruct (@Update_Return l w l' w' H)
    as (b1 & b2 & b3 & b4 & b5 & st & g & i & lo & p & a
        & _ & _ & _ & _ & _ & _ & -> & Hc & _).
  repeat split; try discriminate. exact Hc.
Qed.

(** What [updateLifx] does to the registry and to the network. *)
Lemma updateLifx_effect (devices : list Lifx) (w : World) :
  match updateLifx devices w with
  | (Return _, devices', w') =>
      map UUID devices' = map UUID devices
      /\ Forall refreshed devices'
      /\ List.length (outbox w')
         = (List.length (outbox w) + 5 * List.length devices)%nat
  | (_, devices', w') =>
      map UUID devices' = map UUID devices
      /\ exists n failed,
           Forall refreshed (firstn n devices')
           /\ nth_error devices' n = Some failed
           /\ Connected failed = false
           /\ skipn (S n) devices' = skipn (S n) devices
           /\ (List.length (outbox w')
               <= List.length (outbox w) + 5 * S n)%nat
  end.
Proof.
  revert w. induction devices as [|device rest IH]; intros w.
  - cbn. repeat split; [constructor|lia].
  - cbn [updateLifx].
    pose proof (Update_Connected device w) as Hc.
    pose proof (keeps_Update device w) as (Hu & _).
    pose proof (sends_Update device w) as (dgs & Hn & Ho & _).
    pose proof (@Update_Return device w) as Hr.
    pose proof (fun l' w' => @Update_refreshed device l' w w') as Hf.
    cbv beta in Hf.
    destruct (Update device w) as [[[ | [] | e ] device'] w1];
      cbn [fst snd] in Hu, Ho.
    + split; [cbn [map]; now rewrite Hu|].
      exists 0%nat, device'. cbn [firstn nth_error skipn].
      repeat split; [constructor|exact Hc|]. rewrite Ho, length_app. lia.
    + specialize (IH w1). specialize (Hf device' w1 eq_refl).
      destruct (Hr device' w1 eq_refl)
        as (b1 & b2 & b3 & b4 & b5 & st & g & i & lo & p & a
            & _ & _ & _ & _ & _ & _ & _ & _ & _ & Ho5).
      assert (L : List.length (outbox w1) = (List.length (outbox w) + 5)%nat).
      { rewrite Ho5, length_app. reflexivity. }
      destruct (updateLifx rest w1) as [[[ | [] | e ] rest'] w2].
      * destruct IH as (IHu & n & failed & F & N & C & S' & O).
        split; [cbn [map]; now rewrite Hu, IHu|].
        exists (S n), failed. cbn [firstn nth_error skipn].
        repeat split; try assumption; [constructor; assumption|lia].
      * destruct IH as (IHu & F & O).
        split; [cbn [map]; now rewrite Hu, IHu|].
        split; [constructor; assumption|]. cbn [List.length]. lia.
      * destruct IH as (IHu & n & failed & F & N & C & S' & O).
        split; [cbn [map]; now rewrite Hu, IHu|].
        exists (S n), failed. cbn [firstn nth_error skipn].
        repeat split; try assumption; [constructor; assumption|lia].
    + split; [cbn [map]; now rewrite Hu|].
      exists 0%nat, device'. cbn [firstn nth_error skipn].
      repeat split; [constructor|exact Hc|]. rewrite Ho, length_app. lia.
Qed.

(** X19: [updateLifx] updates the devices of the registry in its order and
    stops at the first that does not return.  When it returns, every device
    is connected, holds a color, a group, an info and a location, and five
    datagrams have gone out for each.  When it does not, the devices before
    the one that failed are so, that one is disconnected, and those after it
    are exactly as they were, their [Connected] flag included: they have
    not been asked.  Either way the registry keeps its devices, in their
    order, with their UUIDs. *)
Theorem updateLifx_stops_at_first_failure (devices : list Lifx) (w : World) :
  match updateLifx devices w with
  | (Return _, devices', w') =>
      map UUID devices' = map UUID devices
      /\ Forall refreshed devices'
      /\ List.length (outbox w')
         = (List.length (outbox w) + 5 * List.length devices)%nat
  | (_, devices', w') =>
      map UUID devices' = map UUID devices
      /\ exists n failed,
           Forall refreshed (firstn n devices')
           /\ nth_error devices' n = Some failed
           /\ Connected failed = false
           /\ skipn (S n) devices' = skipn (S n) devices
           /\ (List.length (outbox w')
               <= List.length (outbox w) + 5 * S n)%nat
  end.
Proof. exact (updateLifx_effect devices w). Qed.

(* ----------------------------------------------------------------- *)
(** *** The transport client *)

Lemma skipn_zeros_min (n m : nat) : skipn n (zeros m) = zeros (m - n).
Proof.
  unfold zeros. revert n. induction m as [|m IH]; intros [|n]; cbn; auto.
Qed.

Lemma firstn_zeros (n m : nat) : firstn n (zeros m) = zeros (Nat.min n m).
Proof.
  unfold zeros. revert n. induction m as [|m IH]; intros [|n]; cbn; auto.
  now rewrite IH.
Qed.

(** Copying into a zeroed buffer: the source, cut or padded with zeros to
    the length of the buffer. *)
Lemma copy_zeros (n : nat) (src : list byte) :
  copy (zeros n) src = firstn n (src ++ zeros n).
Proof.
  unfold copy. rewrite firstn_app, skipn_zeros_min, firstn_zeros.
  unfold zeros at 1. rewrite repeat_length.
  f_equal. f_equal. lia.
Qed.

Lemma Uint16_firstn (n : nat) (b : list byte) :
  (2 <= n)%nat -> LittleEndian_Uint16 (firstn n b) = LittleEndian_Uint16 b.
Proof.
  intros H. destruct n as [|[|n]]; try lia.
  destruct b as [|b0 [|b1 rest]]; reflexivity.
Qed.

Lemma Uint16_padded (b : list byte) (n : nat) :
  (2 <= n)%nat ->
  LittleEndian_Uint16 (b ++ zeros n) = LittleEndian_Uint16 (b ++ zeros 2).
Proof.
  intros H. destruct n as [|[|n]]; try lia.
  destruct b as [|b0 [|b1 rest]]; reflexivity.
Qed.

(** X20: how a call of [SendWithDeadLine] ends.  With a nil destination it
    panics.  An error of resolving the address or of writing the packet
    comes back annotated, an error of the read (the deadline) as it is; a
    failed dial is a panic, its error is never returned.  When an answer has
    come in, the size is read from its first two bytes, little-endian (an
    answer shorter than two bytes reads as padded with zeros): when the size
    is at most 2048 the reply is the first [size] bytes of the answer, padded
    with zeros when the answer is shorter, the number of bytes received not
    being looked at; when the size is above 2048, the length of the buffer,
    the call panics. *)
Theorem SendWithDeadLine_reply (net : UDP_network) (dest : option string)
    (port : string) (packet : list byte) :
  (dest = None -> SendWithDeadLine net dest port packet = Panicked) /\
  (dest <> None ->
   match udp_resolve net, udp_dial net, udp_write net, udp_read net with
   | Some err, _, _, _ =>
       SendWithDeadLine net dest port packet
       = Returned (Err (Annotate err "cannot send udp packet"))
   | None, Some _, _, _ => SendWithDeadLine net dest port packet = Panicked
   | None, None, Some err, _ =>
       SendWithDeadLine net dest port packet
       = Returned (Err (Annotate err "cannot send udp packet"))
   | None, None, None, Err err =>
       SendWithDeadLine net dest port packet = Returned (Err err)
   | None, None, None, Ok received =>
       exists size,
         LittleEndian_Uint16 (received ++ zeros 2) = Returned size
         /\ (size <= 2048 ->
             exists reply,
               SendWithDeadLine net dest port packet = Returned (Ok reply)
               /\ len reply = size
               /\ elems reply = firstn (Z.to_nat size) (received ++ zeros 2048))
         /\ (2048 < size -> SendWithDeadLine net dest port packet = Panicked)
   end).
Proof.
  split; [intros ->; reflexivity|].
  intros Hdest. destruct dest as [d|]; [clear Hdest|contradiction].
  unfold SendWithDeadLine.
  destruct (udp_resolve net) as [e|]; [reflexivity|].
  destruct (udp_dial net) as [e|]; [reflexivity|].
  destruct (udp_write net) as [e|]; [reflexivity|].
  destruct (udp_read net) as [received|e]; [|reflexivity].
  rewrite copy_zeros.
  set (buf := firstn 2048 (received ++ zeros 2048)).
  assert (Hlen : List.length buf = 2048%nat).
  { unfold buf. rewrite length_firstn, length_app. unfold zeros.
    rewrite repeat_length. lia. }
  assert (Hsize : LittleEndian_Uint16 (firstn 2 buf)
                  = LittleEndian_Uint16 (received ++ zeros 2)).
  { rewrite Uint16_firstn by lia. unfold buf.
    rewrite Uint16_firstn by lia. apply Uint16_padded. lia. }
  destruct (LittleEndian_Uint16 (received ++ zeros 2)) as [|size] eqn:E.
  { destruct received as [|b0 [|b1 rest]]; discriminate E. }
  pose proof (Uint16_range _ E) as Hrange.
  exists size. split; [reflexivity|].
  assert (H2 : reslice (slice_of buf) 0 2
               = Returned (mkSlice (firstn 2 buf) (skipn 2 buf))).
  { unfold reslice, cap, slice_of. cbn [elems spare List.length].
    rewrite Hlen. cbn [app]. rewrite app_nil_r. reflexivity. }
  unfold obind. rewrite H2. cbn [elems]. rewrite Hsize.
  split.
  - intros Hs. unfold reslice, cap, slice_of. cbn [elems spare List.length].
    rewrite Hlen, app_nil_r.
    replace ((0 <=? 0) && (0 <=? size) && (size <=? Z.of_nat (2048 + 0)))
      with true by (symmetry; rewrite !andb_true_iff, !Z.leb_le; lia).
    eexists. split; [reflexivity|].
    change (Z.to_nat 0) with 0%nat. cbn [elems skipn]. rewrite Z.sub_0_r.
    split.
    + unfold len. cbn [elems]. rewrite length_firstn, Hlen. lia.
    + unfold buf. rewrite firstn_firstn. f_equal. lia.
  - intros Hs. unfold reslice, cap, slice_of. cbn [elems spare List.length].
    rewrite Hlen.
    replace ((0 <=? 0) && (0 <=? size) && (size <=? Z.of_nat (2048 + 0)))
      with false by (symmetry; rewrite !andb_false_iff, !Z.leb_gt; lia).
    reflexivity.
Qed.

(* ----------------------------------------------------------------- *)
(** *** The selector objects *)

Lemma selptr_eqb_eq (p q : selptr) : selptr_eqb p q = true <-> p = q.
Proof. destruct p, q; cbn; split; congruence. Qed.

Lemma store_value_other (h : selheap) (p q : selptr) (v : string) :
  q <> p -> store_value h p v q = h q.
Proof.
  intros H. unfold store_value.
  destruct (selptr_eqb q p) eqn:E; [|reflexivity].
  apply selptr_eqb_eq in E. contradiction.
Qed.

Lemma store_value_same (h : selheap) (p : selptr) (v : string) :
  store_value h p v p = mkSelector (name (h p)) (isDynamic (h p)) v.
Proof.
  unfold store_value.
  destruct (selptr_eqb p p) eqn:E; [reflexivity|].
  assert (selptr_eqb p p = true) by now apply selptr_eqb_eq. congruence.
Qed.

Lemma parseSelector_dynamic_stores (h : selheap) (s part0 part1 : string)
    (ss : list selptr) :
  match parseSelector_dynamic h s part0 part1 ss with
  | (Ok p, h') => h' = store_value h p part1
  | (Err _, h') => h' = h
  end.
Proof.
  induction ss as [|p ss IH]; cbn [parseSelector_dynamic]; [reflexivity|].
  destruct (String.eqb part0 (name (h p))); [reflexivity|exact IH].
Qed.

(** What a call of [parseSelector] does to the objects. *)
Lemma parseSelector_stores (a : API) (s : string) (h : selheap) :
  match parseSelector a s h with
  | (Ok p, h') => h' = h \/ exists v, h' = store_value h p v
  | (Err _, h') => h' = h
  end.
Proof.
  unfold parseSelector.
  destruct (String.length s =? 0)%nat; [now left|].
  destruct (negb (Contains_colon s)).
  { destruct (parseSelector_static h s _ (selectors a)); [now left|reflexivity]. }
  destruct (Split_colon s) as [|p0 [|p1 [|p2 parts]]]; try reflexivity.
  pose proof (parseSelector_dynamic_stores h s p0 p1 (selectors a)) as H.
  destruct (parseSelector_dynamic h s p0 p1 (selectors a)) as [[p|e] h'];
    [right; now exists p1|exact H].
Qed.

(** X21: the selectors that [parseSelector] returns are the eight shared
    objects, and the value is written into the object.  A call writes no
    name and no kind, writes nothing when it returns an error, and writes
    the value of the object it returns at most.  So after two requests
    that name the same dynamic selector, the object holds the value of the
    second one, also for the holder of the first result; and the string
    of a dynamic selector just parsed is the string given. *)
Theorem parseSelector_shares_objects (a : API) (h : selheap) :
  selectors a = New_selectors ->
  names_fixed h ->
  (forall s,
      names_fixed (snd (parseSelector a s h))
      /\ match fst (parseSelector a s h) with
         | Ok p => forall q, q <> p -> snd (parseSelector a s h) q = h q
         | Err _ => snd (parseSelector a s h) = h
         end) /\
  (forall p v1 v2,
      Contains_colon v1 = false -> Contains_colon v2 = false ->
      let first :=
        parseSelector a (name (selheap_init p) ++ ":" ++ v1)%string h in
      let second :=
        parseSelector a (name (selheap_init p) ++ ":" ++ v2)%string (snd first) in
      fst first = Ok p /\ value (snd first p) = v1
      /\ fst second = Ok p /\ value (snd second p) = v2) /\
  (forall p v,
      p <> all -> Contains_colon v = false ->
      selector_String
        (snd (parseSelector a (name (selheap_init p) ++ ":" ++ v)%string h) p)
      = (name (selheap_init p) ++ ":" ++ v)%string).
Proof.
  intros Ha Hfix.
  assert (Known : forall h0 p v,
             names_fixed h0 -> Contains_colon v = false ->
             parseSelector a (name (selheap_init p) ++ ":" ++ v)%string h0
             = (Ok p, store_value h0 p v)).
  { intros h0 p v Hfix0 Hv. unfold parseSelector. rewrite Ha.
    assert (Hn : Contains_colon (name (selheap_init p)) = false)
      by (destruct p; reflexivity).
    rewrite pair_nonempty, Contains_colon_pair. cbn [negb].
    rewrite (Split_colon_pair _ _ Hn Hv).
    apply parseSelector_dynamic_known. exact Hfix0. }
  split; [|split].
  - intros s. pose proof (parseSelector_stores a s h) as H.
    destruct (parseSelector a s h) as [[p|e] h']; cbn [fst snd].
    + destruct H as [-> | (v & ->)].
      * split; [exact Hfix|reflexivity].
      * split; [apply store_value_names_fixed, Hfix|].
        intros q Hq. apply store_value_other, Hq.
    + subst h'. split; [exact Hfix|reflexivity].
  - intros p v1 v2 Hv1 Hv2. cbv zeta.
    rewrite (Known h p v1 Hfix Hv1). cbn [fst snd].
    rewrite (Known _ p v2 (store_value_names_fixed p v1 Hfix) Hv2).
    cbn [fst snd]. rewrite !store_value_same. repeat split.
  - intros p v Hp Hv. rewrite (Known h p v Hfix Hv). cbn [snd].
    rewrite store_value_same. unfold selector_String. cbn [isDynamic name value].
    rewrite (proj1 (Hfix p)), (proj2 (Hfix p)).
    destruct p; try reflexivity. contradiction.
Qed.

(* ----------------------------------------------------------------- *)
(** *** Resolving a selector: the nil dereference *)

Lemma finish_returns (sel : selector) (devices : list Lifx) :
  finish sel devices <> Panicked.
Proof. unfold finish. destruct (List.length devices =? 0)%nat; discriminate. Qed.

Lemma loop_end (h : selheap) (registry : list Lifx) (sel : selector)
    (devices : list Lifx) :
  sortBySelector_loop h registry sel [] devices = finish sel devices.
Proof. reflexivity. Qed.

Lemma loop_group_panics (h : selheap) (registry : list Lifx) (sel : selector)
    (rest : list Lifx) :
  names_fixed h -> name sel = "group" ->
  forall devices,
    sortBySelector_loop h registry sel rest devices = Panicked
    <-> exists d, In d rest /\ Group_ d = None.
Proof.
  intros Hfix Hname.
  induction rest as [|device rest IH]; intros devices.
  - rewrite loop_end. split.
    + intros H. now apply finish_returns in H.
    + intros (d & [] & _).
  - cbn [sortBySelector_loop]. read_names h Hfix. rewrite Hname.
    cbn [selheap_init name String.eqb Ascii.eqb Bool.eqb].
    destruct (Group_ device) as [g|] eqn:Eg.
    + assert (Hd : (exists d, In d (device :: rest) /\ Group_ d = None)
                   <-> exists d, In d rest /\ Group_ d = None).
      { split; intros (d & Hin & Hnil).
        - destruct Hin as [<- | Hin]; [congruence|now exists d].
        - exists d. split; [now right|exact Hnil]. }
      rewrite Hd. destruct (String.eqb (value sel) (Group_Label g)); apply IH.
    + split; [|reflexivity]. intros _. exists device. split; [now left|exact Eg].
Qed.

Lemma loop_location_panics (h : selheap) (registry : list Lifx) (sel : selector)
    (rest : list Lifx) :
  names_fixed h -> name sel = "location" ->
  forall devices,
    sortBySelector_loop h registry sel rest devices = Panicked
    <-> exists d, In d rest /\ Location_ d = None.
Proof.
  intros Hfix Hname.
  induction rest as [|device rest IH]; intros devices.
  - rewrite loop_end. split.
    + intros H. now apply finish_returns in H.
    + intros (d & [] & _).
  - cbn [sortBySelector_loop]. read_names h Hfix. rewrite Hname.
    cbn [selheap_init name String.eqb Ascii.eqb Bool.eqb].
    destruct (Location_ device) as [g|] eqn:Eg.
    + assert (Hd : (exists d, In d (device :: rest) /\ Location_ d = None)
                   <-> exists d, In d rest /\ Location_ d = None).
      { split; intros (d & Hin & Hnil).
        - destruct Hin as [<- | Hin]; [congruence|now exists d].
        - exists d. split; [now right|exact Hnil]. }
      rewrite Hd. destruct (String.eqb (value sel) (Location_Label g)); apply IH.
    + split; [|reflexivity]. intros _. exists device. split; [now left|exact Eg].
Qed.

Lemma loop_returns (h : selheap) (registry : list Lifx) (sel : selector)
    (rest : list Lifx) (p : selptr) :
  names_fixed h -> name sel = name (selheap_init p) ->
  p <> group -> p <> location ->
  forall devices,
    sortBySelector_loop h registry sel rest devices <> Panicked.
Proof.
  intros Hfix Hname Hg Hl.
  induction rest as [|device rest IH]; intros devices.
  - rewrite loop_end. apply finish_returns.
  - cbn [sortBySelector_loop]. read_names h Hfix. rewrite Hname.
    destruct p; try contradiction;
      cbn [selheap_init name String.eqb Ascii.eqb Bool.eqb];
      try discriminate;
      match goal with
      | |- (if ?b then _ else _) <> _ => destruct b; apply IH
      end.
Qed.

(** X22: resolving a selector panics in exactly one situation: the
    selector is [group] and a device of the registry has no group, or it is
    [location] and a device has no location.  Whether that device would
    match does not matter, nor what the devices before it are. *)
Theorem sortBySelector_panics (a : API) (h : selheap) (p : selptr) :
  names_fixed h ->
  sortBySelector a h p = Panicked
  <-> (p = group /\ exists d, In d (Config_Lifx (config a)) /\ Group_ d = None)
      \/ (p = location
          /\ exists d, In d (Config_Lifx (config a)) /\ Location_ d = None).
Proof.
  intros Hfix. unfold sortBySelector.
  assert (Dec : p = group \/ p = location \/ (p <> group /\ p <> location))
    by (destruct p; auto; right; right; split; discriminate).
  destruct Dec as [-> | [-> | (Hg & Hl)]].
  - rewrite loop_group_panics; [|exact Hfix|apply Hfix].
    split; [intros H; left; now split|].
    intros [(_ & H) | (H & _)]; [exact H|discriminate].
  - rewrite loop_location_panics; [|exact Hfix|apply Hfix].
    split; [intros H; right; now split|].
    intros [(H & _) | (_ & H)]; [discriminate|exact H].
  - split.
    + intros H. exfalso. revert H.
      apply (@loop_returns h _ (h p) _ p Hfix (proj1 (Hfix p)) Hg Hl).
    + intros [(H & _) | (H & _)]; contradiction.
Qed.

(* ----------------------------------------------------------------- *)
(** *** The handlers *)

Lemma keeps_SetLabel (v : string) : keeps_device (Lifx_SetLabel v).
Proof. unfold Lifx_SetLabel. keeps. Qed.

Lemma keeps_SetPower (v : string) : keeps_device (SetPower v).
Proof. unfold SetPower. keeps. Qed.

Lemma keeps_SetHSBK (hsbk : HSBK) (duration : Z) : keeps_device (SetHSBK hsbk duration).
Proof. unfold SetHSBK. keeps. Qed.

Lemma keeps_SetState (st : State) (duration : Z) : keeps_device (SetState st duration).
Proof.
  unfold SetState.
  apply keeps_bind.
  { destruct (0 <? String.length (State_Label st))%nat;
      [apply keeps_annotate, keeps_SetLabel|apply keeps_ret]. }
  intros ?. apply keeps_bind.
  { destruct (0 <? String.length (State_Power st))%nat;
      [apply keeps_annotate, keeps_SetPower|apply keeps_ret]. }
  intros ?. apply keeps_bind.
  { destruct (State_HSBK st);
      [apply keeps_annotate, keeps_SetHSBK|apply keeps_ret]. }
  intros ?. apply keeps_ret.
Qed.

Lemma same_but_client_same_device (l l' : Lifx) :
  same_but_client l l' -> same_device l l'.
Proof. unfold same_but_client. intros ->. repeat split. Qed.

Lemma keeps_Toggle (brightness duration : Z) :
  keeps_device (Toggle brightness duration).
Proof.
  intros l w. pose proof (Toggle_effect brightness duration l w) as H.
  destruct (Toggle brightness duration l w) as [[[ | u | e ] l'] w'];
    cbn [fst snd]; try (apply same_but_client_same_device; exact H).
  destruct H as (reply & st & _ & _ & -> & _). repeat split.
Qed.

(** The loop of the handlers.  When it returns there is one result for
    each device, in the order of the devices, with the UUID of the device
    and the label it has after the call; [Good] and [Bad] are what the method
    leaves when it returns and when it fails.  When it panics, the call on
    one device has panicked: the devices before it have been called, those
    after it have not. *)
Lemma each_device_reports (method : M unit) (n : nat)
    (Good Bad : Lifx -> Lifx -> Prop) :
  keeps_device method -> sends n method ->
  (forall l w,
      match method l w with
      | (Return _, l', _) => Good l l'
      | (Fail _, l', _) => Bad l l'
      | (Panic, _, _) => True
      end) ->
  forall devices results w,
    match each_device method devices results w with
    | (out, devices', w') =>
        map UUID devices' = map UUID devices
        /\ exists dgs,
             outbox w' = outbox w ++ dgs
             /\ inbox w' = skipn (List.length dgs) (inbox w)
             /\ match out with
                | Panicked =>
                    exists called failing rest results' called' failing' wk,
                      devices = called ++ failing :: rest
                      /\ each_device method called results w
                         = (Returned results', called', wk)
                      /\ method failing wk = (Panic, failing', w')
                      /\ devices' = called' ++ failing' :: rest
                      /\ (List.length dgs <= n * S (List.length called))%nat
                | Returned all' =>
                    (List.length dgs <= n * List.length devices)%nat
                    /\ exists new,
                         all' = results ++ new
                         /\ map ResultOut_UUID new = map UUID devices
                         /\ map ResultOut_Label new = map Label devices'
                         /\ Forall2 (fun dd r =>
                                       match ResultOut_Error r with
                                       | None => Good (fst dd) (snd dd)
                                       | Some _ => Bad (fst dd) (snd dd)
                                       end)
                                    (combine devices devices') new
                end
    end.
Proof.
  intros Hk Hs Hm devices.
  induction devices as [|device rest IH]; intros results w.
  - cbn [each_device map combine List.length]. split; [reflexivity|].
    exists []. rewrite app_nil_r. repeat split; [cbn [List.length]; lia|].
    exists []. rewrite app_nil_r. repeat split. constructor.
  - cbn [each_device].
    pose proof (Hk device w) as (Hu & _).
    pose proof (Hs device w) as (dgs & Hn & Ho & Hi).
    pose proof (Hm device w) as Hg.
    destruct (method device w) as [[[ | [] | e ] device'] w1] eqn:Em;
      cbn [fst snd] in Hu, Ho, Hi.
    + split; [cbn [map]; now rewrite Hu|].
      exists dgs. split; [exact Ho|]. split; [exact Hi|].
      exists [], device, rest, results, [], device', w.
      repeat split; [exact Em|cbn [List.length]; lia].
    + specialize (IH (results ++ [mkResultOut (UUID device') (Label device') None]) w1).
      destruct (each_device method rest _ w1) as [[out rest'] w2].
      destruct IH as (IHu & dgs' & Ho' & Hi' & IHo).
      split; [cbn [map]; now rewrite Hu, IHu|].
      exists (dgs ++ dgs'). rewrite length_app, Ho', Hi', Ho, Hi, skipn_skipn.
      rewrite app_assoc, (Nat.add_comm (List.length dgs')).
      split; [reflexivity|]. split; [reflexivity|].
      destruct out as [|all'].
      * destruct IHo as (called & failing & rest0 & results' & called' & failing'
                         & wk & -> & Hc & Hp & -> & Hb).
        exists (device :: called), failing, rest0, results', (device' :: called'),
               failing', wk.
        split; [reflexivity|]. split.
        { cbn [each_device]. rewrite Em, Hc. reflexivity. }
        split; [exact Hp|]. split; [reflexivity|cbn [List.length]; nia].
      * destruct IHo as (Hb & new & -> & Nu & Nl & F).
        split; [cbn [List.length]; nia|].
        exists (mkResultOut (UUID device') (Label device') None :: new).
        rewrite <- app_assoc. cbn [app map ResultOut_UUID ResultOut_Label combine].
        rewrite Nu, Nl, Hu. repeat split.
        constructor; [exact Hg|exact F].
    + specialize (IH (results ++ [mkResultOut (UUID device') (Label device') (Some e)]) w1).
      destruct (each_device method rest _ w1) as [[out rest'] w2].
      destruct IH as (IHu & dgs' & Ho' & Hi' & IHo).
      split; [cbn [map]; now rewrite Hu, IHu|].
      exists (dgs ++ dgs'). rewrite length_app, Ho', Hi', Ho, Hi, skipn_skipn.
      rewrite app_assoc, (Nat.add_comm (List.length dgs')).
      split; [reflexivity|]. split; [reflexivity|].
      destruct out as [|all'].
      * destruct IHo as (called & failing & rest0 & results' & called' & failing'
                         & wk & -> & Hc & Hp & -> & Hb).
        exists (device :: called), failing, rest0, results', (device' :: called'),
               failing', wk.
        split; [reflexivity|]. split.
        { cbn [each_device]. rewrite Em, Hc. reflexivity. }
        split; [exact Hp|]. split; [reflexivity|cbn [List.length]; nia].
      * destruct IHo as (Hb & new & -> & Nu & Nl & F).
        split; [cbn [List.length]; nia|].
        exists (mkResultOut (UUID device') (Label device') (Some e) :: new).
        rewrite <- app_assoc. cbn [app map ResultOut_UUID ResultOut_Label combine].
        rewrite Nu, Nl, Hu. repeat split.
        constructor; [exact Hg|exact F].
Qed.

Lemma loop_incl (h : selheap) (registry : list Lifx) (sel : selector)
    (rest : list Lifx) :
  forall devices found,
    incl rest registry -> incl devices registry ->
    sortBySelector_loop h registry sel rest devices = Returned (Ok found) ->
    incl found registry.
Proof.
  induction rest as [|device rest IH]; intros devices found Hrest Hdev;
    cbn [sortBySelector_loop].
  - destruct (List.length devices =? 0)%nat; [discriminate|].
    intros H. injection H as <-. exact Hdev.
  - assert (Hr : incl rest registry)
      by (intros d Hd; apply Hrest; now right).
    assert (Hd : incl (devices ++ [device]) registry).
    { intros d Hin. apply in_app_or in Hin. destruct Hin as [Hin | [<- | []]].
      - apply Hdev, Hin.
      - apply Hrest. now left. }
    repeat match goal with
           | |- (if ?b then _ else _) = _ -> _ => destruct b
           | |- match ?o with Some _ => _ | None => _ end = _ -> _ => destruct o
           end;
      try discriminate;
      try (apply IH; assumption).
    intros H. injection H as <-. apply incl_refl.
Qed.

Lemma sortBySelector_refreshed (a : API) (h : selheap) (p : selptr) :
  names_fixed h ->
  Forall refreshed (Config_Lifx (config a)) ->
  sortBySelector a h p <> Panicked.
Proof.
  intros Hfix Hall. unfold sortBySelector.
  rewrite Forall_forall in Hall.
  assert (Dec : p = group \/ p = location \/ (p <> group /\ p <> location))
    by (destruct p; auto; right; right; split; discriminate).
  destruct Dec as [-> | [-> | (Hg & Hl)]].
  - rewrite loop_group_panics; [|exact Hfix|apply Hfix].
    intros (d & Hin & Hnil). destruct (Hall d Hin) as (_ & _ & _ & G & _).
    contradiction.
  - rewrite loop_location_panics; [|exact Hfix|apply Hfix].
    intros (d & Hin & Hnil). destruct (Hall d Hin) as (_ & _ & _ & _ & _ & L).
    contradiction.
  - apply (@loop_returns h _ (h p) _ p Hfix (proj1 (Hfix p)) Hg Hl).
Qed.

Lemma parseSelector_names_fixed (a : API) (s : string) (h : selheap) :
  names_fixed h -> names_fixed (snd (parseSelector a s h)).
Proof.
  intros Hfix. pose proof (parseSelector_stores a s h) as H.
  destruct (parseSelector a s h) as [[p|e] h']; cbn [snd].
  - destruct H as [-> | (v & ->)];
      [exact Hfix|apply store_value_names_fixed, Hfix].
  - subst h'. exact Hfix.
Qed.

Lemma parseSelector_Err (a : API) (s : string) (h h' : selheap) (e : error) :
  parseSelector a s h = (Err e, h') -> h' = h.
Proof.
  intros E. pose proof (parseSelector_stores a s h) as H.
  rewrite E in H. exact H.
Qed.

(** X23: [getDevices] refreshes the whole registry before it looks at the
    selector.  It is refused as not provisioned on the empty registry only,
    with nothing sent.  When the refresh of a device fails or panics, the
    request ends so, whatever the selector names, and no selector object is
    written.  Otherwise every device has been refreshed, at five datagrams
    each, also when the selector is then refused; a request that is answered
    returns devices of the registry, at least one, and resolving never
    panics there, since every device has a group and a location by then. *)
Theorem getDevices_refreshes_first (a : API) (selectorStr : string)
    (h : selheap) (w : World) :
  names_fixed h ->
  let s := getDevices a selectorStr h w in
  let registry := Config_Lifx (config a) in
  map UUID (devices_after s) = map UUID registry /\
  match answer s with
  | Refused (NotProvisioned _) =>
      registry = [] /\ objects_after s = h /\ network_after s = w
  | Crashed =>
      objects_after s = h
      /\ exists d, In d (devices_after s) /\ Connected d = false
  | Refused (Raised err) =>
      (objects_after s = h
       /\ exists d, In d (devices_after s) /\ Connected d = false)
      \/ (Forall refreshed (devices_after s)
          /\ List.length (outbox (network_after s))
             = (List.length (outbox w) + 5 * List.length registry)%nat)
  | Answered found =>
      registry <> []
      /\ Forall refreshed (devices_after s)
      /\ List.length (outbox (network_after s))
         = (List.length (outbox w) + 5 * List.length registry)%nat
      /\ found <> [] /\ incl found (devices_after s)
      /\ exists sel,
           parseSelector (with_Lifx a (devices_after s)) selectorStr h
           = (Ok sel, objects_after s)
           /\ sortBySelector (with_Lifx a (devices_after s)) (objects_after s) sel
              = Returned (Ok found)
  end.
Proof.
  intros Hfix. cbv zeta. unfold getDevices.
  destruct (List.length (Config_Lifx (config a)) =? 0)%nat eqn:Ereg.
  { apply Nat.eqb_eq, length_zero_iff_nil in Ereg.
    cbn [answer devices_after objects_after network_after]. repeat split.
    exact Ereg. }
  assert (Hreg : Config_Lifx (config a) <> []).
  { intros E. rewrite E in Ereg. discriminate Ereg. }
  pose proof (updateLifx_effect (Config_Lifx (config a)) w) as U.
  destruct (updateLifx (Config_Lifx (config a)) w) as [[[ | [] | e ] devices] w'].
  - destruct U as (Hu & n & failed & _ & N & C & _).
    cbn [answer devices_after objects_after]. split; [exact Hu|].
    split; [reflexivity|]. exists failed. split; [|exact C].
    apply (nth_error_In _ _ N).
  - destruct U as (Hu & F & O).
    pose proof (@parseSelector_names_fixed (with_Lifx a devices) selectorStr h Hfix)
      as Hfix'.
    destruct (parseSelector (with_Lifx a devices) selectorStr h) as [[sel|e] h'] eqn:P;
      cbn [snd] in Hfix'.
    + pose proof (@sortBySelector_refreshed (with_Lifx a devices) h' sel Hfix' F)
        as Hp.
      destruct (sortBySelector (with_Lifx a devices) h' sel) as [|[found|e]] eqn:S';
        [contradiction| |];
        cbn [answer devices_after objects_after network_after].
      * split; [exact Hu|].
        split; [exact Hreg|].
        split; [exact F|]. split; [exact O|].
        assert (Hne : devices <> []).
        { intros ->. apply Hreg. symmetry in Hu. apply map_eq_nil in Hu.
          exact Hu. }
        split.
        { intros ->. revert S'. unfold sortBySelector.
          apply loop_not_empty. exact Hne. }
        split.
        { revert S'. unfold sortBySelector. cbn [with_Lifx config Config_Lifx].
          apply loop_incl; [apply incl_refl|intros x []]. }
        exists sel. split; [exact P|exact S'].
      * split; [exact Hu|]. right. split; [exact F|exact O].
    + cbn [answer devices_after objects_after network_after].
      split; [exact Hu|]. right. split; [exact F|exact O].
  - destruct U as (Hu & n & failed & _ & N & C & _).
    cbn [answer devices_after objects_after]. split; [exact Hu|].
    left. split; [reflexivity|]. exists failed. split; [|exact C].
    apply (nth_error_In _ _ N).
Qed.

Lemma each_device_idle (method : M unit) :
  (forall l w, method l w = (Return tt, l, w)) ->
  forall devices results w,
    each_device method devices results w
    = (Returned (results
                 ++ map (fun d => mkResultOut (UUID d) (Label d) None) devices),
       devices, w).
Proof.
  intros Hm devices. induction devices as [|device rest IH]; intros results w.
  - cbn. rewrite app_nil_r. reflexivity.
  - cbn [each_device]. rewrite Hm, IH, <- app_assoc. reflexivity.
Qed.

(** X24: the [toggle] handler.  It is refused before anything is sent or
    not at all: as not provisioned exactly on the empty registry, otherwise
    with the error of parsing or of resolving the selector.  Once the
    devices are resolved the request ends in one of two ways.  It is
    answered, the failure of a device being no failure of the request: the
    answer has one result for each device resolved, in their order, with its
    UUID and the label it has after the call; a result without error stands
    for a device that now caches the state that came back, a result with an
    error for one whose fields but [client] are untouched; at most one
    datagram has gone out for each device.  Or it crashes, with no result at
    all: resolving has panicked, nothing being sent, or the call of [Toggle]
    on one of the devices has panicked, after the devices before it have
    been called and their datagrams, and possibly its own, have gone out;
    the devices after it have not been called. *)
Theorem toggle_reports_each_device (a : API) (inp : DurationIn)
    (h : selheap) (w : World) :
  let s := toggle a inp h w in
  match answer s with
  | Refused e =>
      network_after s = w
      /\ (e = NotProvisioned "list of Lifx devices"
          <-> Config_Lifx (config a) = [])
      /\ (Config_Lifx (config a) = [] -> objects_after s = h)
  | Answered results =>
      Config_Lifx (config a) <> []
      /\ exists sel devices,
        parseSelector a (DurationIn_Selector inp) h = (Ok sel, objects_after s)
        /\ sortBySelector a (objects_after s) sel = Returned (Ok devices)
        /\ map ResultOut_UUID results = map UUID devices
        /\ map ResultOut_Label results = map Label (devices_after s)
        /\ (exists dgs,
               (List.length dgs <= List.length devices)%nat
               /\ outbox (network_after s) = outbox w ++ dgs)
        /\ Forall2 (fun dd r =>
                      match ResultOut_Error r with
                      | None =>
                          (exists st,
                              snd dd = cache_state st
                                         (set_client (Some UDP_client) (fst dd)))
                          /\ HSBK_ (snd dd) <> None
                      | Some _ => same_but_client (fst dd) (snd dd)
                      end)
                   (combine devices (devices_after s)) results
  | Crashed =>
      Config_Lifx (config a) <> []
      /\ exists sel,
           parseSelector a (DurationIn_Selector inp) h = (Ok sel, objects_after s)
           /\ ((sortBySelector a (objects_after s) sel = Panicked
                /\ network_after s = w)
               \/ exists called failing rest results called' failing' wk dgs,
                    sortBySelector a (objects_after s) sel
                    = Returned (Ok (called ++ failing :: rest))
                    /\ each_device (Toggle (MaxBrightness (config a))
                                           (DurationIn_Duration inp))
                                   called [] w
                       = (Returned results, called', wk)
                    /\ Toggle (MaxBrightness (config a))
                              (DurationIn_Duration inp) failing wk
                       = (Panic, failing', network_after s)
                    /\ devices_after s = called' ++ failing' :: rest
                    /\ outbox (network_after s) = outbox w ++ dgs
                    /\ (List.length dgs <= S (List.length called))%nat)
  end.
Proof.
  cbv zeta. unfold toggle.
  destruct (List.length (Config_Lifx (config a)) =? 0)%nat eqn:Ereg.
  { apply Nat.eqb_eq, length_zero_iff_nil in Ereg.
    cbn [answer network_after objects_after]. repeat split; auto. }
  assert (Hreg : Config_Lifx (config a) <> []).
  { intros E. rewrite E in Ereg. discriminate Ereg. }
  destruct (parseSelector a (DurationIn_Selector inp) h) as [[sel|e] h'] eqn:P.
  2:{ cbn [answer network_after objects_after].
      split; [reflexivity|]. split; [|contradiction].
      split; [discriminate|contradiction]. }
  destruct (sortBySelector a h' sel) as [|[devices|e]] eqn:S'.
  { cbn [answer network_after objects_after]. split; [exact Hreg|].
    exists sel. split; [reflexivity|]. left. split; [exact S'|reflexivity]. }
  2:{ cbn [answer network_after objects_after].
      split; [reflexivity|]. split; [|contradiction].
      split; [discriminate|contradiction]. }
  set (method := Toggle (MaxBrightness (config a)) (DurationIn_Duration inp)).
  pose proof (@each_device_reports method 1
                (fun l l' => (exists st, l' = cache_state st
                                               (set_client (Some UDP_client) l))
                             /\ HSBK_ l' <> None)
                same_but_client
                (keeps_Toggle _ _) (sends_Toggle _ _)) as R.
  assert (Hm : forall l w0,
             match method l w0 with
             | (Return _, l', _) =>
                 (exists st, l' = cache_state st (set_client (Some UDP_client) l))
                 /\ HSBK_ l' <> None
             | (Fail _, l', _) => same_but_client l l'
             | (Panic, _, _) => True
             end).
  { intros l w0. unfold method.
    pose proof (Toggle_effect (MaxBrightness (config a))
                  (DurationIn_Duration inp) l w0) as E.
    destruct (Toggle _ _ l w0) as [[[ | u | e ] l'] w1]; [exact I| |exact E].
    destruct E as (reply & st & _ & _ & E & C). split; [now exists st|exact C]. }
  specialize (R Hm devices [] w).
  destruct (each_device method devices [] w) as [[out devices'] w1].
  destruct R as (Hu & dgs & Ho & _ & Hout).
  destruct out as [|results];
    cbn [report answer network_after objects_after devices_after].
  - destruct Hout as (called & failing & rest & results & called' & failing'
                      & wk & -> & Hc & Hp & -> & Hb).
    split; [exact Hreg|]. exists sel. split; [reflexivity|]. right.
    exists called, failing, rest, results, called', failing', wk, dgs.
    split; [exact S'|]. split; [exact Hc|]. split; [exact Hp|].
    split; [reflexivity|]. split; [exact Ho|lia].
  - destruct Hout as (Hb & new & -> & Nu & Nl & F). cbn [app].
    split; [exact Hreg|].
    exists sel, devices. split; [reflexivity|]. split; [exact S'|].
    split; [exact Nu|]. split; [exact Nl|]. split; [|exact F].
    exists dgs. split; [lia|exact Ho].
Qed.

(** X25: the [setState] handler.  It has no check of the registry: it is
    never refused as not provisioned, and on the empty registry it is
    refused with the error of the selector, not found when the selector
    parses.  It is refused before anything is sent or not at all.  Once the
    devices are resolved, the registry not being empty then, the request
    ends in one of two ways.  It is answered with one result for each
    device, in their order, with its UUID and the label it has after the
    call, at most three datagrams having gone out for each; a request with
    no color, no power and no label is answered so, with success for every
    device and nothing sent.  Or it crashes, with no result at all:
    resolving has panicked, nothing being sent, or the call of [SetState] on
    one of the devices has panicked (a reply to the color message too short
    to decode), after the devices before it have been called and their
    datagrams, and possibly its own, have gone out; the devices after it
    have not been called. *)
Theorem setState_reports_each_device (a : API) (inp : StateIn)
    (h : selheap) (w : World) :
  let s := setState a inp h w in
  match answer s with
  | Refused (NotProvisioned _) => False
  | Refused (Raised err) =>
      network_after s = w
      /\ (Config_Lifx (config a) = [] ->
          fst (parseSelector a (StateIn_Selector inp) h) = Err err
          \/ IsNotFound err = true)
  | Answered results =>
      Config_Lifx (config a) <> []
      /\ exists sel devices,
        parseSelector a (StateIn_Selector inp) h = (Ok sel, objects_after s)
        /\ sortBySelector a (objects_after s) sel = Returned (Ok devices)
        /\ map ResultOut_UUID results = map UUID devices
        /\ map ResultOut_Label results = map Label (devices_after s)
        /\ (exists dgs,
               (List.length dgs <= 3 * List.length devices)%nat
               /\ outbox (network_after s) = outbox w ++ dgs)
        /\ (StateIn_HSBK inp = None -> StateIn_Power inp = "" ->
            StateIn_Label inp = "" ->
            network_after s = w /\ devices_after s = devices
            /\ Forall (fun r => ResultOut_Error r = None) results)
  | Crashed =>
      Config_Lifx (config a) <> []
      /\ exists sel,
           parseSelector a (StateIn_Selector inp) h = (Ok sel, objects_after s)
           /\ ((sortBySelector a (objects_after s) sel = Panicked
                /\ network_after s = w)
               \/ exists called failing rest results called' failing' wk dgs,
                    sortBySelector a (objects_after s) sel
                    = Returned (Ok (called ++ failing :: rest))
                    /\ each_device (SetState (state_of inp)
                                             (StateIn_Duration inp))
                                   called [] w
                       = (Returned results, called', wk)
                    /\ SetState (state_of inp) (StateIn_Duration inp) failing wk
                       = (Panic, failing', network_after s)
                    /\ (StateIn_HSBK inp <> None \/ StateIn_Power inp <> ""
                        \/ StateIn_Label inp <> "")
                    /\ devices_after s = called' ++ failing' :: rest
                    /\ outbox (network_after s) = outbox w ++ dgs
                    /\ (List.length dgs <= 3 * S (List.length called))%nat)
  end.
Proof.
  cbv zeta. unfold setState.
  assert (Hempty : forall sel h' r,
             Config_Lifx (config a) = [] ->
             sortBySelector a h' sel = r ->
             exists e, r = Returned (Err e) /\ IsNotFound e = true).
  { intros sel h' r E <-. unfold sortBySelector. rewrite E. cbn.
    eexists. split; reflexivity. }
  destruct (parseSelector a (StateIn_Selector inp) h) as [[sel|e] h'] eqn:P.
  2:{ cbn [answer network_after fst]. split; [reflexivity|]. intros _. now left. }
  destruct (sortBySelector a h' sel) as [|[devices|e]] eqn:S'.
  { cbn [answer network_after objects_after]. split.
    - intros E. destruct (Hempty sel h' _ E S') as (e & He & _). discriminate He.
    - exists sel. split; [reflexivity|]. left. split; [exact S'|reflexivity]. }
  2:{ cbn [answer network_after]. split; [reflexivity|]. intros E. right.
      destruct (Hempty sel h' _ E S') as (e' & He & Hnf).
      injection He as ->. exact Hnf. }
  assert (Hreg : Config_Lifx (config a) <> []).
  { intros E. destruct (Hempty sel h' _ E S') as (e & He & _). discriminate He. }
  set (method := SetState (state_of inp) (StateIn_Duration inp)).
  pose proof (@each_device_reports method 3 (fun _ _ => True) (fun _ _ => True)
                (keeps_SetState _ _) (sends_SetState _ _)) as R.
  assert (Hm : forall l w0,
             match method l w0 with
             | (Return _, l', _) => True
             | (Fail _, l', _) => True
             | (Panic, _, _) => True
             end).
  { intros l w0. destruct (method l w0) as [[[ | u | e ] l'] w1]; exact I. }
  specialize (R Hm devices [] w).
  pose proof (@each_device_idle method) as Idle.
  assert (Hidle : StateIn_HSBK inp = None -> StateIn_Power inp = "" ->
                  StateIn_Label inp = "" ->
                  forall l w0, method l w0 = (Return tt, l, w0)).
  { intros Hc Hp Hl l w0. unfold method, state_of. rewrite Hc, Hp, Hl.
    reflexivity. }
  destruct (each_device method devices [] w) as [[out devices'] w1] eqn:Eloop.
  destruct R as (Hu & dgs & Ho & _ & Hout).
  destruct out as [|results];
    cbn [report answer network_after objects_after devices_after].
  - destruct Hout as (called & failing & rest & results & called' & failing'
                      & wk & -> & Hc & Hp & -> & Hb).
    split; [exact Hreg|]. exists sel. split; [reflexivity|]. right.
    exists called, failing, rest, results, called', failing', wk, dgs.
    split; [exact S'|]. split; [exact Hc|]. split; [exact Hp|]. split.
    { destruct (StateIn_HSBK inp) as [c|] eqn:Ec; [left; discriminate|].
      destruct (StateIn_Power inp) as [|c0 p0] eqn:Ep;
        [|right; left; discriminate].
      destruct (StateIn_Label inp) as [|c1 l1] eqn:El;
        [|right; right; discriminate].
      rewrite (Hidle eq_refl eq_refl eq_refl failing wk) in Hp.
      discriminate Hp. }
    split; [reflexivity|]. split; [exact Ho|lia].
  - destruct Hout as (Hb & new & -> & Nu & Nl & F). cbn [app].
    split; [exact Hreg|].
    exists sel, devices. split; [reflexivity|]. split; [exact S'|].
    split; [exact Nu|]. split; [exact Nl|]. split.
    { exists dgs. split; [lia|exact Ho]. }
    intros Hc Hp Hl.
    rewrite (Idle (Hidle Hc Hp Hl) devices [] w) in Eloop.
    injection Eloop as E1 E2 E3. subst devices' w1. cbn [app] in E1.
    split; [reflexivity|]. split; [reflexivity|].
    rewrite <- E1. apply Forall_forall. intros r Hr.
    apply in_map_iff in Hr. destruct Hr as (d & <- & _). reflexivity.
Qed.

End Horus.

Arguments Panic {A}.
Arguments Return {A} _.
Arguments Fail {A} _.

(* ================================================================= *)
(** ** The properties at concrete inputs *)

(** The bytes of the query the refresh sequence starts with, decoded: the
    frame, the source and the target come back; the response flag, the
    sequence 0x10 and the message type 101 of the header do not. *)
Lemma Header_round_trip_fails_Get :
  Header_ (GetMessageWithoutPayload frame_example source_example Get)
  = mkHeader frame_example source_example (zeros 8) false true x10 [x65; x00]
  /\ exists m',
       DecodeToMessage
         (slice_of (fst (EncodeToBytes
            (GetMessageWithoutPayload frame_example source_example Get))))
       = Returned m'
       /\ Header_ m' <> Header_ (GetMessageWithoutPayload frame_example
                                   source_example Get)
       /\ Header_ m' = mkHeader frame_example source_example (zeros 8)
                                false false x00 [x00; x00].
Proof.
  split; [reflexivity|].
  refine (@Header_round_trip_fails
            (GetMessageWithoutPayload frame_example source_example Get) Get
            _ _ eq_refl).
  - repeat split.
  - unfold MessageTypes. cbn [In]. do 29 right. left. reflexivity.
Defined.

(** Replies of 36 and of 10 bytes: the decoders of the refresh sequence and
    the message decoder panic on them. *)
Lemma decoders_panic_on_short_replies :
  DecodeToState (slice_of (zeros 36)) = Panicked
  /\ DecodeToGroup (slice_of (zeros 36)) = Panicked
  /\ DecodeToMessage (slice_of (zeros 10)) = Panicked.
Proof.
  destruct (decoders_panic_on_short_buffers no_products (slice_of (zeros 36)))
    as (_ & Hs & Hg & _).
  destruct (decoders_panic_on_short_buffers no_products (slice_of (zeros 10)))
    as (Hm & _).
  split; [apply Hs; reflexivity|].
  split; [apply Hg; reflexivity|apply Hm; reflexivity].
Defined.

(** The byte 0x02 is none of the four control bytes, and [decodeAckRes]
    decodes it, to the flags of 0x11. *)
Lemma decodeAckRes_accepts_x02 :
  decodeAckRes x02 = (true, true) /\ decodeAckRes x02 = decodeAckRes x11.
Proof. split; reflexivity. Qed.

Lemma decodeAckRes_total_at_xff :
  xff <> x00 /\ xff <> x01 /\ xff <> x10 /\ decodeAckRes xff = (true, true).
Proof.
  assert (H0 : xff <> x00) by discriminate.
  assert (H1 : xff <> x01) by discriminate.
  assert (H2 : xff <> x10) by discriminate.
  split; [exact H0|]. split; [exact H1|]. split; [exact H2|].
  exact (proj1 (proj2 (proj2 (proj2 (proj2 decodeAckRes_total)))) xff H0 H1 H2).
Defined.

(** A payload of 65500 bytes: the size prefix reads 0, and 36 + L is
    65536. *)
Lemma EncodeToBytes_size_wraps :
  LittleEndian_Uint16
    (firstn 2 (fst (EncodeToBytes
       (SetPayload (zeros (Z.to_nat 65500))
                   (NewMessage frame_example source_example)))))
  = Returned 0
  /\ 36 + Z.of_nat (List.length (payload
            (SetPayload (zeros (Z.to_nat 65500))
                        (NewMessage frame_example source_example))))
     = 65536.
Proof. split; vm_compute; reflexivity. Qed.

(** The color-set message, whose payload has 13 bytes, has the size prefix
    49. *)
Lemma EncodeToBytes_size_SetColor :
  Z.of_nat (List.length (payload
     (SetColorMessage frame_example source_example Off 1500))) <= 65499
  /\ LittleEndian_Uint16
       (firstn 2 (fst (EncodeToBytes
          (SetColorMessage frame_example source_example Off 1500))))
     = Returned 49.
Proof.
  assert (H : Z.of_nat (List.length (payload
                (SetColorMessage frame_example source_example Off 1500)))
              <= 65499) by (vm_compute; discriminate).
  split; [exact H|].
  rewrite (@EncodeToBytes_size
             (SetColorMessage frame_example source_example Off 1500) H).
  reflexivity.
Defined.

(** The examples of selector parsing, on the objects as they are built. *)
Lemma parseSelector_examples :
  selectors api_example = New_selectors
  /\ names_fixed selheap_init
  /\ parseSelector api_example "" selheap_init = (Ok all, selheap_init)
  /\ parseSelector api_example "label:kitchen" selheap_init
     = (Ok label, store_value selheap_init label "kitchen")
  /\ value (store_value selheap_init label "kitchen" label) = "kitchen"
  /\ (exists e, parseSelector api_example "uuid" selheap_init = (Err e, selheap_init)
                /\ IsNotValid e = true)
  /\ (exists e, parseSelector api_example "foo:bar" selheap_init = (Err e, selheap_init)
                /\ IsNotFound e = true)
  /\ (exists e, parseSelector api_example "a:b:c" selheap_init = (Err e, selheap_init)
                /\ IsNotValid e = true).
Proof.
  destruct (@parseSelector_cases api_example selheap_init eq_refl
              selheap_init_names_fixed)
    as (Hempty & _ & Hdyn & _ & Hknown & Hunknown & Hmany).
  split; [reflexivity|]. split; [exact selheap_init_names_fixed|].
  split; [exact Hempty|].
  split; [exact (proj1 (Hknown label "kitchen" eq_refl))|].
  split; [exact (proj2 (proj2 (Hknown label "kitchen" eq_refl)))|].
  split; [exact (Hdyn uuid eq_refl)|].
  split.
  - apply (Hunknown "foo" "bar" eq_refl eq_refl).
    intros p; destruct p; discriminate.
  - apply (Hmany "a:b:c"). cbn. apply le_n.
Defined.

(** Resolving [all] against the empty registry is the not-found error, not
    the registry; resolving a group against a device that has no group yet
    panics. *)
Lemma sortBySelector_empty_registry_and_nil_group :
  sortBySelector api_empty selheap_init all
  = Returned (Err (NotFound "devices corresponding to selector all"))
  /\ sortBySelector api_example (store_value selheap_init group "upstairs") group
     = Panicked.
Proof. split; reflexivity. Qed.

(** The examples of selector resolution, on the registry of the kitchen and
    the hall. *)
Lemma sortBySelector_examples :
  Config_Lifx (config api_example) <> []
  /\ sortBySelector api_example selheap_init all = Returned (Ok [kitchen; hall])
  /\ sortBySelector api_example (store_value selheap_init label "kitchen") label
     = Returned (Ok [kitchen])
  /\ sortBySelector api_example (store_value selheap_init label "missing") label
     = Returned (Err (NotFound "devices corresponding to selector label:missing")).
Proof.
  assert (Hreg : Config_Lifx (config api_example) <> []) by discriminate.
  split; [exact Hreg|].
  split; [exact (proj1 (@sortBySelector_cases api_example selheap_init
                          selheap_init_names_fixed Hreg))|].
  split.
  - rewrite (proj1 (proj2 (@sortBySelector_cases api_example _
                (store_value_names_fixed label "kitchen" selheap_init_names_fixed)
                Hreg))).
    reflexivity.
  - rewrite (proj1 (proj2 (@sortBySelector_cases api_example _
                (store_value_names_fixed label "missing" selheap_init_names_fixed)
                Hreg))).
    reflexivity.
Defined.

(** Two devices on which [Toggle] sends nothing.  One has its power cached
    as on and its color still nil: [Toggle] panics.  The other has no port:
    [Send] refuses, and [Toggle] returns its error. *)
Lemma Toggle_power_on_no_color :
  Power bulb_on_no_color = "on" /\ HSBK_ bulb_on_no_color = None
  /\ Toggle frame_example source_example 30000 1500 bulb_on_no_color world_silent
     = (Panic, bulb_on_no_color, world_silent)
  /\ Toggle frame_example source_example 30000 1500 bulb_no_port world_silent
     = (Fail (Annotate (NotValid "port of a lifx has not been initialized")
                       "turning off a device"),
        set_client (Some UDP_client) bulb_no_port, world_silent)
  /\ outbox world_silent = [].
Proof. repeat split. Qed.

(** The examples of [Toggle]: with the power on and a brightness of 20000
    the color sent is all zeros; with the power off and a maximal brightness
    of 30000 it is the on preset at that brightness. *)
Lemma Toggle_examples :
  toggle_color 30000 bulb_on = mkHSBK 0 0 0 0
  /\ outbox (snd (Toggle frame_example source_example 30000 1500 bulb_on world_silent))
     = [mkDatagram "192.168.1.20" "56700"
          (fst (EncodeToBytes
             (SetColorMessage frame_example source_example (mkHSBK 0 0 0 0) 1500)))]
  /\ toggle_color 30000 bulb_off = mkHSBK 65535 65535 30000 65535
  /\ outbox (snd (Toggle frame_example source_example 30000 1500 bulb_off world_silent))
     = [mkDatagram "192.168.1.20" "56700"
          (fst (EncodeToBytes
             (SetColorMessage frame_example source_example
                (mkHSBK 65535 65535 30000 65535) 1500)))].
Proof.
  assert (Hon : Power bulb_on = PowerOn -> HSBK_ bulb_on <> None)
    by (intros _; discriminate).
  assert (Hoff : Power bulb_off = PowerOn -> HSBK_ bulb_off <> None)
    by (intros _; discriminate).
  assert (Con : configured bulb_on "192.168.1.20").
  { repeat split; try discriminate. now right. }
  assert (Coff : configured bulb_off "192.168.1.20").
  { repeat split; try discriminate. now right. }
  split; [reflexivity|]. split.
  - exact (proj2 (proj2 (proj2 (@Toggle_sends frame_example source_example
             30000 1500 bulb_on world_silent Hon))) "192.168.1.20" Con).
  - split; [reflexivity|].
    exact (proj2 (proj2 (proj2 (@Toggle_sends frame_example source_example
             30000 1500 bulb_off world_silent Hoff))) "192.168.1.20" Coff).
Defined.

(** Three runs of [Update] on the device of the examples.  The state
    query is answered and the group query times out: [Update] returns the
    annotated time-out, the device is not connected, and its color, label
    and power are those of the answer.  The group query is answered with 36
    bytes, too few to decode: [Update] panics, with the device in the same
    state.  The five queries are answered: [Update] returns, and the device
    is connected. *)
Lemma Update_group_exchange_fails :
  Update frame_example source_example no_products bulb world_group_fails
  = (Fail (Annotate (Transport "i/o timeout")
             "an error occured while sending a GetGroup (53) Message on updating"),
     mkLifx "u1" "kitchen" false "on" (Some (mkHSBK 0 0 20000 3500))
            None None None None (Some "192.168.1.20") "56700" "udp"
            (Some UDP_client),
     mkWorld []
       [mkDatagram "192.168.1.20" "56700"
          (fst (EncodeToBytes
                  (GetMessageWithoutPayload frame_example source_example Get)));
        mkDatagram "192.168.1.20" "56700"
          (fst (EncodeToBytes
                  (GetMessageWithoutPayload frame_example source_example GetGroup)))])
  /\ Update frame_example source_example no_products bulb world_group_short
     = (Panic,
        mkLifx "u1" "kitchen" false "on" (Some (mkHSBK 0 0 20000 3500))
               None None None None (Some "192.168.1.20") "56700" "udp"
               (Some UDP_client),
        mkWorld []
          [mkDatagram "192.168.1.20" "56700"
             (fst (EncodeToBytes
                     (GetMessageWithoutPayload frame_example source_example Get)));
           mkDatagram "192.168.1.20" "56700"
             (fst (EncodeToBytes
                     (GetMessageWithoutPayload frame_example source_example GetGroup)))])
  /\ exists l5 w',
       Update frame_example source_example no_products bulb world_five_replies
       = (Return tt, set_Connected true l5, w')
       /\ Connected (set_Connected true l5) = true
       /\ Label l5 = "kitchen" /\ Group_ l5 <> None /\ Location_ l5 <> None
       /\ inbox w' = [] /\ List.length (outbox w') = 5%nat.
Proof.
  split; [|split].
  - refine (proj1 (proj2 (proj2 (proj2
              (Update_abort frame_example source_example no_products)))
              (firstn 1 (refresh_sequence no_products))
              (nth 1 (refresh_sequence no_products)
                   (mkExchange 0 "" (fun _ => ret tt)))
              (skipn 2 (refresh_sequence no_products))
              bulb world_group_fails _ _ _ _ _ eq_refl _ _ _)).
    + reflexivity.
    + reflexivity.
    + discriminate.
  - refine (proj1 (proj2 (proj2 (proj2
              (Update_abort frame_example source_example no_products)))
              (firstn 1 (refresh_sequence no_products))
              (nth 1 (refresh_sequence no_products)
                   (mkExchange 0 "" (fun _ => ret tt)))
              (skipn 2 (refresh_sequence no_products))
              bulb world_group_short _ _ _ _ _ eq_refl _ _ _)).
    + reflexivity.
    + reflexivity.
    + discriminate.
  - destruct (run_exchanges frame_example source_example
                (refresh_sequence no_products)
                (set_Connected false bulb) world_five_replies)
      as [[[ | [] | e ] l5] w'] eqn:E;
      try (vm_compute in E; discriminate E).
    exists l5, w'. split.
    + apply (proj1 (proj2 (proj2
               (Update_abort frame_example source_example no_products)))).
      exists l5. split; [exact E|reflexivity].
    + vm_compute in E. injection E as <- <-. repeat split; discriminate.
Defined.

(** The guard of [Toggle] on a nil color: a panic with the power on, the on
    preset sent with the power not on. *)
Lemma Toggle_guard_on_nil_color :
  Toggle frame_example source_example 30000 0 bulb_on_no_color world_group_fails
  = (Panic, bulb_on_no_color, world_group_fails)
  /\ Toggle frame_example source_example 30000 0 bulb world_silent
     = send_and_apply "turning on a device"
         (SetColorMessage frame_example source_example
            (mkHSBK 65535 65535 30000 65535) 0)
         bulb world_silent.
Proof.
  split.
  - exact (proj1 (Toggle_guard_nil_color frame_example source_example 30000 0
                    bulb_on_no_color world_group_fails) eq_refl eq_refl).
  - apply (proj1 (proj2 (Toggle_guard_nil_color frame_example source_example
                           30000 0 bulb world_silent))).
    discriminate.
Defined.

(** How a device comes to have its power cached as on and no color: its
    power is set before its first refresh.  [Toggle] then panics. *)
Lemma SetPower_then_Toggle :
  SetPower frame_example source_example "on" bulb world_one_reply
  = (Return tt, set_Power "on" (set_client (Some UDP_client) bulb),
     mkWorld []
       [mkDatagram "192.168.1.20" "56700"
          (fst (EncodeToBytes
                  (SetPowerDeviceMessage frame_example source_example "on")))])
  /\ fst (fst (Toggle frame_example source_example 30000 0
                 (set_Power "on" (set_client (Some UDP_client) bulb))
                 world_silent))
     = Panic.
Proof. split; reflexivity. Qed.

(* ================================================================= *)
(** ** The further properties at concrete inputs *)

Arguments Crashed {A}.
Arguments Answered {A} _.
Arguments Refused {A} _.

(** The header of the state query and a header that differs from it in
    the flags and the message type: both have 34 bytes, and their bytes
    differ. *)
Lemma Header_EncodeToBytes_get_ack :
  wf_Header header_get /\ wf_Header header_ack
  /\ List.length (Header_EncodeToBytes header_get) = 34%nat
  /\ Header_EncodeToBytes header_get <> Header_EncodeToBytes header_ack.
Proof.
  assert (H1 : wf_Header header_get) by (repeat split).
  assert (H2 : wf_Header header_ack) by (repeat split).
  destruct (@Header_EncodeToBytes_injective header_get header_ack H1 H2)
    as (Hlen & Hinj).
  split; [exact H1|]. split; [exact H2|]. split; [exact Hlen|].
  intros E. specialize (Hinj E). discriminate Hinj.
Defined.

(** The color-set message: 49 bytes, the last 13 of them its payload, and
    a size prefix of 49. *)
Lemma EncodeToBytes_layout_SetColor :
  wf_Header (Header_ (SetColorMessage frame_example source_example warm_white 1500))
  /\ List.length (fst (EncodeToBytes
        (SetColorMessage frame_example source_example warm_white 1500))) = 49%nat
  /\ skipn 36 (fst (EncodeToBytes
        (SetColorMessage frame_example source_example warm_white 1500)))
     = payload (SetColorMessage frame_example source_example warm_white 1500)
  /\ LittleEndian_Uint16 (fst (EncodeToBytes
        (SetColorMessage frame_example source_example warm_white 1500)))
     = Returned 49.
Proof.
  assert (H : wf_Header (Header_ (SetColorMessage frame_example source_example
                                    warm_white 1500))) by (repeat split).
  destruct (@EncodeToBytes_layout
              (SetColorMessage frame_example source_example warm_white 1500) H)
    as (_ & Hlen & Hpay & Hsize).
  split; [exact H|]. split; [exact Hlen|]. split; [exact Hpay|].
  rewrite Hsize; [rewrite Hlen; reflexivity|vm_compute; discriminate].
Defined.

(** The color of the examples comes back from its eight bytes. *)
Lemma DecodeToHSBK_encodeHSBKToBytes_warm_white :
  uint16_fields warm_white
  /\ DecodeToHSBK (slice_of (encodeHSBKToBytes warm_white))
     = Returned (Ok warm_white).
Proof.
  assert (H : uint16_fields warm_white) by (unfold uint16_fields; cbn; lia).
  split; [exact H|].
  destruct H as (Hh & Hs & Hb & Hk).
  exact (@DecodeToHSBK_encodeHSBKToBytes warm_white Hh Hs Hb Hk).
Defined.

(** The payload of the color-set message for that color over 1500 ms. *)
Lemma SetColorMessage_payload_warm_white :
  uint16_fields warm_white /\ 0 <= 1500 < 4294967296
  /\ payload (SetColorMessage frame_example source_example warm_white 1500)
     = [x00] ++ [x00; x00; x00; x00; x20; x4e; xac; x0d] ++ [xdc; x05; x00; x00]
  /\ DecodeToHSBK
       (slice_of (firstn 8 (skipn 1
          (payload (SetColorMessage frame_example source_example
                      warm_white 1500)))))
     = Returned (Ok warm_white).
Proof.
  assert (H : uint16_fields warm_white) by (unfold uint16_fields; cbn; lia).
  assert (Hd : 0 <= 1500 < 4294967296) by lia.
  split; [exact H|]. split; [exact Hd|]. split; [reflexivity|].
  exact (proj1 (proj2 (proj2
           (@SetColorMessage_payload frame_example source_example
              warm_white 1500 H Hd)))).
Defined.

(** The reply of the examples, read from its end. *)
Lemma DecodeToState_layout_kitchen :
  uint16_fields warm_white
  /\ DecodeToState state_reply
     = Returned (Ok (mkState (Some warm_white) "on" "kitchen")).
Proof.
  assert (H : uint16_fields warm_white) by (unfold uint16_fields; cbn; lia).
  split; [exact H|].
  exact (@DecodeToState_layout (zeros 36) [x00; x00]
           (list_byte_of_string "kitchen" ++ zeros 25) (zeros 8)
           warm_white xff xff H eq_refl eq_refl eq_refl).
Defined.

(** Four devices: one with the protocol tcp, one with no address, one with
    no port, and the device of the examples, which the network answers. *)
Lemma Send_effect_by_cause :
  Send
       (GetMessageWithoutPayload frame_example source_example Get)
       bulb_tcp world_one_reply
  = (Fail (NotFound "protocol tcp not found"), bulb_tcp, world_one_reply)
  /\ Send
          (GetMessageWithoutPayload frame_example source_example Get)
          bulb_no_address world_one_reply
     = (Panic, set_client (Some UDP_client) bulb_no_address, world_one_reply)
  /\ Send
          (GetMessageWithoutPayload frame_example source_example Get)
          bulb_no_port world_one_reply
     = (Fail (NotValid "port of a lifx has not been initialized"),
        set_client (Some UDP_client) bulb_no_port, world_one_reply)
  /\ Send
          (GetMessageWithoutPayload frame_example source_example Get)
          bulb world_one_reply
     = (Return (slice_of (zeros 36)), set_client (Some UDP_client) bulb,
        mkWorld []
          [mkDatagram "192.168.1.20" "56700"
             (fst (EncodeToBytes
                (GetMessageWithoutPayload frame_example source_example Get)))]).
Proof.
  split; [|split; [|split]].
  - apply (proj1 (proj2 (Send_effect
             (GetMessageWithoutPayload frame_example source_example Get)
             bulb_tcp world_one_reply))); [reflexivity|discriminate].
  - apply (proj1 (proj2 (proj2 (Send_effect
             (GetMessageWithoutPayload frame_example source_example Get)
             bulb_no_address world_one_reply)) (or_intror eq_refl))).
    reflexivity.
  - apply (proj1 (proj2 (proj2 (proj2 (Send_effect
             (GetMessageWithoutPayload frame_example source_example Get)
             bulb_no_port world_one_reply)) (or_intror eq_refl))
             "192.168.1.20"%string eq_refl ltac:(discriminate))).
    reflexivity.
  - apply (proj2 (proj2 (proj2 (proj2 (Send_effect
             (GetMessageWithoutPayload frame_example source_example Get)
             bulb world_one_reply)) (or_intror eq_refl))
             "192.168.1.20"%string eq_refl ltac:(discriminate))).
    discriminate.
Defined.

(** The network answers with no bytes at all: the label and the power
    asked for are cached all the same. *)
Lemma SetLabel_SetPower_cache_empty_reply :
  configured bulb "192.168.1.20"
  /\ Lifx_SetLabel frame_example source_example "desk" bulb world_empty_reply
     = (Return tt, set_Label "desk" (set_client (Some UDP_client) bulb),
        mkWorld []
          [mkDatagram "192.168.1.20" "56700"
             (fst (EncodeToBytes
                (SetLabelMessage frame_example source_example "desk")))])
  /\ SetPower frame_example source_example "on" bulb world_empty_reply
     = (Return tt, set_Power "on" (set_client (Some UDP_client) bulb),
        mkWorld []
          [mkDatagram "192.168.1.20" "56700"
             (fst (EncodeToBytes
                (SetPowerDeviceMessage frame_example source_example "on")))]).
Proof.
  assert (C : configured bulb "192.168.1.20").
  { repeat split; try discriminate. now right. }
  split; [exact C|]. split.
  - exact (proj1 (proj1 (SetLabel_SetPower_cache frame_example source_example
             "desk" bulb world_empty_reply)
             "192.168.1.20"%string (slice_of []) [] C eq_refl)).
  - exact (proj2 (proj1 (SetLabel_SetPower_cache frame_example source_example
             "on" bulb world_empty_reply)
             "192.168.1.20"%string (slice_of []) [] C eq_refl)).
Defined.

(** A datagram of 40 bytes that declares 38: the reply has 38 bytes.  A
    dial that fails: a panic, whatever the rest of the network would do. *)
Lemma SendWithDeadLine_reply_38 :
  udp_read network_answers = Ok datagram_38
  /\ (exists reply,
        SendWithDeadLine network_answers (Some "192.168.1.20") "56700" []
        = Returned (Ok reply)
        /\ len reply = 38
        /\ elems reply = firstn 38 datagram_38)
  /\ udp_dial network_no_route = Some (Transport "network is unreachable")
  /\ SendWithDeadLine network_no_route (Some "192.168.1.20") "56700" []
     = Panicked.
Proof.
  split; [reflexivity|].
  assert (Hd : Some "192.168.1.20"%string <> None) by discriminate.
  split; [|split; [reflexivity|]].
  - destruct (proj2 (SendWithDeadLine_reply network_answers
                       (Some "192.168.1.20"%string) "56700" []) Hd)
      as (size & Hsize & Hin & _).
    assert (E : size = 38) by (vm_compute in Hsize; congruence).
    subst size.
    destruct Hin as (reply & Hr & Hl & He); [lia|].
    exists reply. split; [exact Hr|]. split; [exact Hl|].
    rewrite He. reflexivity.
  - exact (proj2 (SendWithDeadLine_reply network_no_route
                    (Some "192.168.1.20"%string) "56700" []) Hd).
Defined.

(** Two requests by label: the object [label] holds the value of the
    second. *)
Lemma parseSelector_shares_objects_label :
  selectors api_example = New_selectors
  /\ names_fixed selheap_init
  /\ fst (parseSelector api_example "label:kitchen" selheap_init) = Ok label
  /\ fst (parseSelector api_example "label:hall"
            (snd (parseSelector api_example "label:kitchen" selheap_init)))
     = Ok label
  /\ value (snd (parseSelector api_example "label:hall"
              (snd (parseSelector api_example "label:kitchen" selheap_init)))
            label)
     = "hall"
  /\ selector_String
       (snd (parseSelector api_example "label:kitchen" selheap_init) label)
     = "label:kitchen".
Proof.
  destruct (@parseSelector_shares_objects api_example selheap_init eq_refl
              selheap_init_names_fixed) as (_ & Htwice & Hstring).
  destruct (Htwice label "kitchen" "hall" eq_refl eq_refl)
    as (H1 & _ & H2 & H3).
  split; [reflexivity|]. split; [exact selheap_init_names_fixed|].
  split; [exact H1|]. split; [exact H2|]. split; [exact H3|].
  apply (Hstring label "kitchen"); [discriminate|reflexivity].
Defined.

(** The kitchen has a group and the hall has none: resolving a group
    panics, also when the group asked for is that of the kitchen. *)
Lemma sortBySelector_panics_half_grouped :
  names_fixed (store_value selheap_init group "downstairs")
  /\ sortBySelector api_half_grouped
       (store_value selheap_init group "downstairs") group
     = Panicked
  /\ sortBySelector api_half_grouped
       (store_value selheap_init group "downstairs") label
     <> Panicked.
Proof.
  assert (Hfix : names_fixed (store_value selheap_init group "downstairs"))
    by exact (store_value_names_fixed group "downstairs" selheap_init_names_fixed).
  split; [exact Hfix|]. split.
  - apply (proj2 (@sortBySelector_panics api_half_grouped _ group Hfix)).
    left. split; [reflexivity|]. exists hall. split; [|reflexivity].
    right. left. reflexivity.
  - intros E.
    apply (proj1 (@sortBySelector_panics api_half_grouped _ label Hfix)) in E.
    destruct E as [(E & _) | (E & _)]; discriminate E.
Defined.

(** Five answers for one device: [Update] returns, and the device is
    connected with the state of the first answer. *)
Lemma Update_refreshes_bulb :
  exists l' w',
    Update frame_example source_example no_products bulb world_five_replies
    = (Return tt, l', w')
    /\ Connected l' = true /\ Label l' = "kitchen" /\ Power l' = "on"
    /\ HSBK_ l' = Some warm_white
    /\ inbox w' = []
    /\ map packet (outbox w')
       = map (fun q => fst (EncodeToBytes
                (GetMessageWithoutPayload frame_example source_example q)))
             [Get; GetGroup; GetInfo; GetLocation; GetVersion].
Proof.
  destruct (Update frame_example source_example no_products bulb
              world_five_replies) as [[[ | [] | e ] l'] w'] eqn:E;
    try (vm_compute in E; discriminate E).
  exists l', w'. split; [reflexivity|].
  destruct (proj2 (Update_refreshes frame_example source_example no_products)
              bulb world_five_replies l' w' E)
    as (b1 & b2 & b3 & b4 & b5 & st & g & i & lo & p & a
        & Hin & D1 & _ & _ & _ & _ & -> & _ & Ha & Ho).
  cbn [inbox world_five_replies repeat] in Hin.
  injection Hin as <- _ _ _ _ Hin'.
  assert (Hst : st = mkState (Some warm_white) "on" "kitchen")
    by (vm_compute in D1; injection D1 as <-; reflexivity).
  subst st. rewrite Ho, <- Hin'.
  repeat split.
Defined.

(** The label is written and the power message times out: [SetState]
    fails, the new label stays, the power does not change. *)
Lemma SetState_label_then_power_fails :
  exists l2 w2,
    SetState frame_example source_example (mkState None "on" "desk") 0
             bulb world_power_fails
    = (Fail (Annotate (Annotate (Transport "i/o timeout") "setting power")
                      "setting state"), l2, w2)
    /\ Label l2 = "desk" /\ Power l2 = Power bulb /\ HSBK_ l2 = HSBK_ bulb.
Proof.
  destruct (Lifx_SetLabel frame_example source_example "desk" bulb
              world_power_fails) as [[[ | [] | e ] l1] w1] eqn:E1;
    try (vm_compute in E1; discriminate E1).
  destruct (SetPower frame_example source_example "on" l1 w1)
    as [[[ | [] | e ] l2] w2] eqn:E2;
    try (vm_compute in E1; injection E1 as <- <-;
         vm_compute in E2; discriminate E2).
  assert (He : e = Annotate (Transport "i/o timeout") "setting power").
  { vm_compute in E1. injection E1 as <- <-.
    vm_compute in E2. injection E2 as <- _ _. reflexivity. }
  subst e. exists l2, w2.
  refine (proj2 (proj2 (SetState_not_atomic frame_example source_example))
            (mkState None "on" "desk") 0 bulb world_power_fails l1 w1 _ l2 w2
            _ _ E1 E2);
    discriminate.
Defined.

(** The registry of the kitchen and the hall, both answering: a request by
    label is answered after ten datagrams, with devices of the refreshed
    registry. *)
Lemma getDevices_refreshes_first_label :
  names_fixed selheap_init
  /\ exists found,
       answer (getDevices frame_example source_example no_products
                 api_example "label:kitchen" selheap_init world_ten_replies)
       = Answered found
       /\ found <> []
       /\ Forall refreshed
            (devices_after (getDevices frame_example source_example no_products
               api_example "label:kitchen" selheap_init world_ten_replies))
       /\ List.length (outbox (network_after
            (getDevices frame_example source_example no_products
               api_example "label:kitchen" selheap_init world_ten_replies)))
          = 10%nat.
Proof.
  split; [exact selheap_init_names_fixed|].
  pose proof (@getDevices_refreshes_first frame_example source_example
                no_products api_example "label:kitchen" selheap_init
                world_ten_replies selheap_init_names_fixed) as H.
  cbv zeta in H. destruct H as (_ & H).
  destruct (answer (getDevices frame_example source_example no_products
                      api_example "label:kitchen" selheap_init
                      world_ten_replies)) as [ | found | e ] eqn:E;
    try (vm_compute in E; discriminate E).
  destruct H as (_ & F & O & Hne & _).
  exists found. split; [reflexivity|]. split; [exact Hne|].
  split; [exact F|]. rewrite O. reflexivity.
Defined.

(** The power "ON", in capitals: the device answers, the level that has
    gone out is 0, and the power cached is "ON". *)
Lemma SetPower_any_string_capitals :
  exists l' w',
    SetPower frame_example source_example "ON" bulb world_one_reply
    = (Return tt, l', w')
    /\ Power l' = "ON"
    /\ exists packet',
         map packet (outbox w') = [packet']
         /\ BigEndian_Uint16 (skipn 36 packet') = Returned 0.
Proof.
  destruct (SetPower frame_example source_example "ON" bulb world_one_reply)
    as [[[ | [] | e ] l'] w'] eqn:E;
    try (vm_compute in E; discriminate E).
  exists l', w'. split; [reflexivity|].
  destruct (@SetPower_any_string frame_example source_example "ON" bulb l'
              world_one_reply w' eq_refl eq_refl E)
    as (Hp & a & packet' & _ & Ho & _ & Hlevel).
  split; [exact Hp|]. exists packet'. split; [|exact Hlevel].
  rewrite Ho. reflexivity.
Defined.

(** A toggle of the kitchen and the hall.  Both answer: two results,
    without error.  The hall has its power cached as on and no color: the
    request crashes on it, after the datagram for the kitchen has gone
    out. *)
Lemma toggle_reports_or_crashes :
  (exists results,
      answer (toggle frame_example source_example api_example
                (mkDurationIn "all" 0) selheap_init world_ten_replies)
      = Answered results
      /\ map ResultOut_UUID results = ["u1"; "u2"]%string
      /\ map ResultOut_Error results = [None; None])
  /\ answer (toggle frame_example source_example api_hall_on
               (mkDurationIn "all" 0) selheap_init world_state_reply)
     = Crashed
  /\ List.length (outbox (network_after
        (toggle frame_example source_example api_hall_on
           (mkDurationIn "all" 0) selheap_init world_state_reply))) = 1%nat
  /\ exists called failing rest called' failing',
       sortBySelector api_hall_on selheap_init all
       = Returned (Ok (called ++ failing :: rest))
       /\ devices_after
            (toggle frame_example source_example api_hall_on
               (mkDurationIn "all" 0) selheap_init world_state_reply)
          = called' ++ failing' :: rest.
Proof.
  split; [|split; [|split]].
  - pose proof (toggle_reports_each_device frame_example source_example
                  api_example (mkDurationIn "all" 0) selheap_init
                  world_ten_replies) as H.
    cbv zeta in H.
    destruct (answer (toggle frame_example source_example api_example
                        (mkDurationIn "all" 0) selheap_init world_ten_replies))
      as [ | results | e ] eqn:E;
      try (vm_compute in E; discriminate E).
    destruct H as (_ & sel & devices & P & S' & Hu & _).
    exists results. split; [reflexivity|].
    vm_compute in P. injection P as <-.
    vm_compute in S'. injection S' as <-.
    split; [exact Hu|].
    vm_compute in E. injection E as <-. reflexivity.
  - vm_compute. reflexivity.
  - vm_compute. reflexivity.
  - pose proof (toggle_reports_each_device frame_example source_example
                  api_hall_on (mkDurationIn "all" 0) selheap_init
                  world_state_reply) as H.
    cbv zeta in H.
    destruct (answer (toggle frame_example source_example api_hall_on
                        (mkDurationIn "all" 0) selheap_init world_state_reply))
      as [ | results | e ] eqn:E;
      try (vm_compute in E; discriminate E).
    destruct H as (_ & sel & P & [(S' & _) | H]).
    + vm_compute in P. injection P as <-.
      vm_compute in S'. discriminate S'.
    + destruct H as (called & failing & rest & results & called' & failing'
                     & wk & dgs & S' & _ & _ & Hd & _).
      vm_compute in P. injection P as <-.
      exists called, failing, rest, called', failing'.
      split; [exact S'|exact Hd].
Defined.

(** A color for the kitchen and the hall, the kitchen answering with 36
    bytes, too few to decode: the request crashes after one datagram.  The
    same request with no color, no power and no label: two results without
    error, nothing sent. *)
Lemma setState_reports_or_crashes :
  answer (setState frame_example source_example api_example
            (mkStateIn "all" (Some (mkHSBKIn 0 0 20000 3500)) 0 "" "")
            selheap_init world_one_reply)
  = Crashed
  /\ List.length (outbox (network_after
        (setState frame_example source_example api_example
           (mkStateIn "all" (Some (mkHSBKIn 0 0 20000 3500)) 0 "" "")
           selheap_init world_one_reply))) = 1%nat
  /\ Config_Lifx (config api_example) <> []
  /\ exists results,
       answer (setState frame_example source_example api_example
                 (mkStateIn "all" None 0 "" "") selheap_init world_one_reply)
       = Answered results
       /\ network_after
            (setState frame_example source_example api_example
               (mkStateIn "all" None 0 "" "") selheap_init world_one_reply)
          = world_one_reply
       /\ Forall (fun r => ResultOut_Error r = None) results.
Proof.
  split; [vm_compute; reflexivity|]. split; [vm_compute; reflexivity|].
  split.
  - pose proof (setState_reports_each_device frame_example source_example
                  api_example
                  (mkStateIn "all" (Some (mkHSBKIn 0 0 20000 3500)) 0 "" "")
                  selheap_init world_one_reply) as H.
    cbv zeta in H.
    destruct (answer (setState frame_example source_example api_example
                        (mkStateIn "all" (Some (mkHSBKIn 0 0 20000 3500)) 0 "" "")
                        selheap_init world_one_reply))
      as [ | results | e ] eqn:E;
      try (vm_compute in E; discriminate E).
    exact (proj1 H).
  - pose proof (setState_reports_each_device frame_example source_example
                  api_example (mkStateIn "all" None 0 "" "")
                  selheap_init world_one_reply) as H.
    cbv zeta in H.
    destruct (answer (setState frame_example source_example api_example
                        (mkStateIn "all" None 0 "" "")
                        selheap_init world_one_reply))
      as [ | results | e ] eqn:E;
      try (vm_compute in E; discriminate E).
    destruct H as (_ & sel & devices & _ & _ & _ & _ & _ & Hidle).
    destruct (Hidle eq_refl eq_refl eq_refl) as (Hw & _ & Hok).
    exists results. split; [reflexivity|]. split; [exact Hw|exact Hok].
Defined.
